(** * guild.model and guild.flag_util: a shallow embedding

    Model resolution registry of Guild AI ([guild/model.py]) and the flag
    value codec ([guild/flag_util.py]).

    Python [str] values are sequences of Unicode code points and [bytes]
    values are sequences of octets; both are lists of integers here.
    Exceptions are values of [result]; logging, file-system reads and
    attribute assignment go through an explicit state. *)

From Stdlib Require Import ZArith Lia List Ascii String Bool.
From stdpp Require Import base option list strings gmap sorting.
Import ListNotations.

Local Open Scope Z_scope.
Set Warnings "-register-all".

(** ** Python values: text, bytes, exceptions *)

(** A [str]: its code points. *)
Definition str := list Z.
(** A [bytes] object: its octets. *)
Definition bytes := list Z.

(** An ASCII literal of the source as a [str]. *)
Definition py (s : string) : str :=
  map (fun a => Z.of_N (N_of_ascii a)) (list_ascii_of_string s).

Inductive exn : Type :=
| ValueError (msg : str)
| BinasciiError
| UnicodeEncodeError
| UnicodeDecodeError
| IOError
| IndexError
| AttributeError
| LookupError (msg : str)
| YAMLError
| TypeError (msg : str)
| OtherError (msg : str).

Inductive result (A : Type) : Type :=
| Ok (a : A)
| Raise (e : exn).
Arguments Ok {A} a.
Arguments Raise {A} e.

Definition rbind {A B} (r : result A) (k : A -> result B) : result B :=
  match r with
  | Ok a => k a
  | Raise e => Raise e
  end.

Definition str_eqb (a b : str) : bool := bool_decide (a = b).

(** ** The codecs behind [str.encode], [bytes.decode] and [base64] *)

Module Codec.

(** [True] for a Unicode scalar value: what [str.encode("utf-8")] accepts. *)
Definition is_scalar (c : Z) : bool :=
  (0 <=? c) && (c <? 0x110000) && negb ((0xD800 <=? c) && (c <=? 0xDFFF)).

(** One code point as UTF-8 (RFC 3629); lone surrogates and values outside
    the code space are refused. *)
Definition utf8_encode_cp (c : Z) : option bytes :=
  if c <? 0 then None
  else if c <? 0x80 then Some [c]
  else if c <? 0x800 then Some [0xC0 + c / 64; 0x80 + c mod 64]
  else if c <? 0x10000 then
    if (0xD800 <=? c) && (c <=? 0xDFFF) then None
    else Some [0xE0 + c / 4096; 0x80 + (c / 64) mod 64; 0x80 + c mod 64]
  else if c <? 0x110000 then
    Some [0xF0 + c / 262144; 0x80 + (c / 4096) mod 64;
          0x80 + (c / 64) mod 64; 0x80 + c mod 64]
  else None.

(** [s.encode("utf-8")] *)
Fixpoint utf8_encode (s : str) : result bytes :=
  match s with
  | [] => Ok []
  | c :: s' =>
      match utf8_encode_cp c with
      | None => Raise UnicodeEncodeError
      | Some bs =>
          match utf8_encode s' with
          | Ok rest => Ok (bs ++ rest)
          | Raise e => Raise e
          end
      end
  end.

Definition in_range (lo hi b : Z) : bool := (lo <=? b) && (b <=? hi).
Definition octet (b : Z) : Prop := 0 <= b < 256.
Definition is_cont (b : Z) : bool := in_range 0x80 0xBF b.

Definition lift_cons (c : Z) (r : result str) : result str :=
  match r with Ok s => Ok (c :: s) | Raise e => Raise e end.

(** [b.decode("utf-8")], strict: overlong forms, surrogates, values past
    U+10FFFF, stray continuation bytes and truncated sequences are errors. *)
Fixpoint utf8_decode (b : bytes) : result str :=
  match b with
  | [] => Ok []
  | b0 :: t0 =>
      if in_range 0 0x7F b0 then
        match utf8_decode t0 with
        | Ok s => Ok (b0 :: s)
        | Raise e => Raise e
        end
      else if in_range 0xC2 0xDF b0 then
        match t0 with
        | b1 :: t1 =>
            if is_cont b1 then
              match utf8_decode t1 with
              | Ok s => Ok (((b0 - 0xC0) * 64 + (b1 - 0x80)) :: s)
              | Raise e => Raise e
              end
            else Raise UnicodeDecodeError
        | _ => Raise UnicodeDecodeError
        end
      else if in_range 0xE0 0xEF b0 then
        match t0 with
        | b1 :: b2 :: t2 =>
            if in_range (if b0 =? 0xE0 then 0xA0 else 0x80)
                        (if b0 =? 0xED then 0x9F else 0xBF) b1
               && is_cont b2 then
              match utf8_decode t2 with
              | Ok s =>
                  Ok (((b0 - 0xE0) * 4096 + (b1 - 0x80) * 64 + (b2 - 0x80)) :: s)
              | Raise e => Raise e
              end
            else Raise UnicodeDecodeError
        | _ => Raise UnicodeDecodeError
        end
      else if in_range 0xF0 0xF4 b0 then
        match t0 with
        | b1 :: b2 :: b3 :: t3 =>
            if in_range (if b0 =? 0xF0 then 0x90 else 0x80)
                        (if b0 =? 0xF4 then 0x8F else 0xBF) b1
               && is_cont b2 && is_cont b3 then
              match utf8_decode t3 with
              | Ok s =>
                  Ok (((b0 - 0xF0) * 262144 + (b1 - 0x80) * 4096
                       + (b2 - 0x80) * 64 + (b3 - 0x80)) :: s)
              | Raise e => Raise e
              end
            else Raise UnicodeDecodeError
        | _ => Raise UnicodeDecodeError
        end
      else Raise UnicodeDecodeError
  end.

(** [s.encode("ascii")] as [base64._bytes_from_decode_data] uses it: a
    non-ASCII character is a [ValueError]. *)
Definition ascii_encode (s : str) : result bytes :=
  if forallb (in_range 0 0x7F) s then Ok s
  else Raise (ValueError (py "string argument should contain only ASCII characters")).

(** The digit of the alphabet [0-9A-F] for a nibble. *)
Definition hex_digit (n : Z) : Z := if n <? 10 then 48 + n else 55 + n.

(** [base64.b16encode]: two upper-case digits per octet. *)
Definition b16encode (b : bytes) : bytes :=
  flat_map (fun x => [hex_digit (x / 16); hex_digit (x mod 16)]) b.

Definition is_b16_digit (d : Z) : bool := in_range 48 57 d || in_range 65 70 d.

Definition hex_value (d : Z) : Z := if d <? 65 then d - 48 else d - 55.

(** [binascii.unhexlify] on digits already checked against [0-9A-F]. *)
Fixpoint unhexlify (b : bytes) : result bytes :=
  match b with
  | [] => Ok []
  | [_] => Raise BinasciiError
  | h :: l :: t =>
      match unhexlify t with
      | Ok r => Ok ((16 * hex_value h + hex_value l) :: r)
      | Raise e => Raise e
      end
  end.

(** [base64.b16decode(s)] with the default [casefold=False]: any character
    outside [0-9A-F] (lower case included) and an odd length are
    [binascii.Error]. *)
Definition b16decode (s : str) : result bytes :=
  match ascii_encode s with
  | Raise e => Raise e
  | Ok b => if forallb is_b16_digit b then unhexlify b else Raise BinasciiError
  end.

End Codec.

(** A [str] that [encode("utf-8")] accepts: every character is a scalar
    value. *)
Definition encodable (s : str) : Prop := forallb Codec.is_scalar s = true.

(** ** [str] methods used by the sources *)

Module Str.

(** [s.startswith(prefix)] *)
Fixpoint startswith (s prefix : str) {struct prefix} : bool :=
  match prefix, s with
  | [], _ => true
  | p :: prefix', c :: s' => (c =? p) && startswith s' prefix'
  | _ :: _, [] => false
  end.

(** [s.endswith(suffix)] for a one-character suffix. *)
Definition endswith_char (s : str) (c : Z) : bool :=
  match last s with
  | Some x => x =? c
  | None => false
  end.

(** [s.split(sep)] for a one-character [sep]. *)
Fixpoint split (sep : Z) (s : str) : list str :=
  match s with
  | [] => [[]]
  | c :: s' =>
      if c =? sep then [] :: split sep s'
      else match split sep s' with
           | w :: ws => (c :: w) :: ws
           | [] => [[c]]
           end
  end.

(** [s.split(sep, 1)] for a one-character [sep]: one part when [sep] does
    not occur, otherwise the text before and after its first occurrence. *)
Fixpoint split1 (sep : Z) (s : str) : list str :=
  match s with
  | [] => [[]]
  | c :: s' =>
      if c =? sep then [[]; s']
      else match split1 sep s' with
           | w :: ws => (c :: w) :: ws
           | [] => [[c]]
           end
  end.

Fixpoint rfind_from (c : Z) (s : str) (i found : Z) : Z :=
  match s with
  | [] => found
  | x :: s' => rfind_from c s' (i + 1) (if x =? c then i else found)
  end.

(** [s.rfind(c)]: the index of the last [c], or [-1]. *)
Definition rfind (c : Z) (s : str) : Z := rfind_from c s 0 (-1).

(** [s.rstrip(c)] for a one-character set. *)
Fixpoint rstrip (c : Z) (s : str) : str :=
  match s with
  | [] => []
  | x :: s' =>
      match rstrip c s' with
      | [] => if x =? c then [] else [x]
      | r => x :: r
      end
  end.

(** [sep.join(parts)] for a one-character [sep]. *)
Fixpoint join (sep : Z) (parts : list str) : str :=
  match parts with
  | [] => []
  | [w] => w
  | w :: ws => w ++ sep :: join sep ws
  end.

End Str.

Definition slash : Z := 47.
Definition dot : Z := 46.

(** ** [os.path] on a POSIX host, the working directory made explicit *)

Module Posixpath.

(** [os.path.isabs] *)
Definition isabs (s : str) : bool := Str.startswith s [slash].

(** One step of [os.path.join]'s loop. *)
Definition join2 (path b : str) : str :=
  if Str.startswith b [slash] then b
  else if bool_decide (path = []) || Str.endswith_char path slash then path ++ b
  else path ++ slash :: b.

(** [os.path.join(a, *p)] *)
Definition join (a : str) (p : list str) : str := fold_left join2 p a.

(** [os.path.dirname] *)
Definition dirname (p : str) : str :=
  let i := Str.rfind slash p + 1 in
  let head := take (Z.to_nat i) p in
  if negb (bool_decide (head = []))
     && negb (bool_decide (head = replicate (length head) slash))
  then Str.rstrip slash head
  else head.

(** [os.path.basename] *)
Definition basename (p : str) : str :=
  let i := Str.rfind slash p + 1 in
  drop (Z.to_nat i) p.

(** The loop of [os.path.normpath] over the components; [new_comps] is
    kept reversed. *)
Fixpoint normpath_comps (initial_slashes : nat) (comps : list str)
    (new_comps : list str) : list str :=
  match comps with
  | [] => rev new_comps
  | comp :: comps' =>
      if bool_decide (comp = []) || bool_decide (comp = [dot]) then
        normpath_comps initial_slashes comps' new_comps
      else if negb (bool_decide (comp = [dot; dot]))
              || (Nat.eqb initial_slashes 0 && bool_decide (new_comps = []))
              || match new_comps with
                 | top :: _ => bool_decide (top = [dot; dot])
                 | [] => false
                 end
      then normpath_comps initial_slashes comps' (comp :: new_comps)
      else normpath_comps initial_slashes comps' (tl new_comps)
  end.

(** [os.path.normpath] *)
Definition normpath (path : str) : str :=
  if bool_decide (path = []) then [dot]
  else
    let initial_slashes : nat :=
      if Str.startswith path [slash] then
        if Str.startswith path [slash; slash]
           && negb (Str.startswith path [slash; slash; slash])
        then 2%nat else 1%nat
      else 0%nat in
    let comps := normpath_comps initial_slashes (Str.split slash path) [] in
    let path' := replicate initial_slashes slash ++ Str.join slash comps in
    if bool_decide (path' = []) then [dot] else path'.

(** [os.path.abspath], with [cwd] the value of [os.getcwd()]. *)
Definition abspath (cwd path : str) : str :=
  normpath (if isabs path then path else join cwd [path]).

(** [len(os.path.commonprefix([a, b]))] for two lists of components. *)
Fixpoint commonprefix_len (a b : list str) : nat :=
  match a, b with
  | x :: a', y :: b' => if bool_decide (x = y) then S (commonprefix_len a' b') else 0
  | _, _ => 0
  end.

(** [os.path.relpath(path)] with the default [start=os.curdir]. *)
Definition relpath (cwd path : str) : result str :=
  if bool_decide (path = []) then Raise (ValueError (py "no path specified"))
  else
    let nonempty := filter (fun x : str => x <> []) in
    let start_list := nonempty (Str.split slash (abspath cwd [dot])) in
    let path_list := nonempty (Str.split slash (abspath cwd path)) in
    let i := commonprefix_len start_list path_list in
    let rel_list :=
      replicate (length start_list - i) [dot; dot] ++ drop i path_list in
    match rel_list with
    | [] => Ok [dot]
    | a :: p => Ok (join a p)
    end.

(** [os.path.relpath(path)] as it is called: the path is tested first;
    then [abspath] asks [os.getcwd()], which fails when the working
    directory is gone, and what it raises is raised. *)
Definition relpath_in (getcwd : result str) (path : str) : result str :=
  if bool_decide (path = []) then Raise (ValueError (py "no path specified"))
  else rbind getcwd (fun cwd => relpath cwd path).

End Posixpath.

(** ** [pkg_resources] *)

Module PkgResources.

Definition is_safe_char (c : Z) : bool :=
  Codec.in_range 65 90 c || Codec.in_range 97 122 c
  || Codec.in_range 48 57 c || (c =? dot).

(** [safe_name(name)]: [re.sub('[^A-Za-z0-9.]+', '-', name)]. *)
Fixpoint safe_name (name : str) : str :=
  match name with
  | [] => []
  | c :: name' =>
      if is_safe_char c then c :: safe_name name'
      else match name' with
           | c' :: _ => if is_safe_char c' then 45 :: safe_name name'
                        else safe_name name'
           | [] => [45]
           end
  end.

End PkgResources.

(** ** guild.model: project names *)

(** [_escape_project_name(name)] *)
Definition _escape_project_name (name : str) : result str :=
  rbind (Codec.utf8_encode name) (fun b => Codec.utf8_decode (Codec.b16encode b)).

(** [_unescape_project_name(escaped_name)] *)
Definition _unescape_project_name (escaped_name : str) : result str :=
  rbind (Codec.b16decode escaped_name) Codec.utf8_decode.

(** ** guild.model: definitions, model files and distributions *)

Record Resource := { res_name : str }.

(** What the core reads of a [modeldef]. *)
Record ModelDef := {
  md_name : str;
  md_private : bool;
  md_resources : list Resource
}.

(** A parsed model file: its path and, in declaration order, the
    definitions iterating over it yields. *)
Record Modelfile := {
  mf_src : str;
  mf_models : list ModelDef
}.

Inductive Membership := yes | no.

Definition modelfile_prefix : str := py ".modelfile.".

(** What follows the escaped token in a project name: nothing, or a slash
    and the remainder. *)
Definition remainder (rest : option str) : str :=
  match rest with
  | Some r => slash :: r
  | None => []
  end.

(** [ModelfileNamespace.is_project_name_member(name)] *)
Definition is_project_name_member (name : str) : result (Membership * option str) :=
  if Str.startswith name modelfile_prefix then
    let parts := Str.split1 slash (drop 11 name) in
    rbind (_unescape_project_name (nth 0 parts []))
      (fun project_name =>
         let rest := if Nat.eqb (length parts) 2
                     then slash :: nth 1 parts [] else [] in
         Ok (yes, Some (project_name ++ rest)))
  else Ok (no, None).

(** [_modelfile_project_name(modelfile)], with [getcwd] what
    [os.getcwd()] answers at the time of the call. *)
Definition _modelfile_project_name (getcwd : result str) (modelfile : Modelfile)
    : result str :=
  rbind (Posixpath.relpath_in getcwd (Posixpath.dirname (mf_src modelfile)))
    (fun pkg_path =>
       match pkg_path with
       | [] => Raise IndexError
       | c :: _ =>
           let pkg_path :=
             if negb (c =? dot) then Posixpath.join [dot] [pkg_path]
             else pkg_path in
           rbind (_escape_project_name pkg_path)
             (fun safe_path => Ok (modelfile_prefix ++ safe_path))
       end).

(** A [pkg_resources.EntryPoint]; its [dist] is the distribution whose
    entry map holds it. *)
Record EntryPoint := {
  ep_name : str;
  ep_module_name : str;
  ep_attrs : list str
}.

(** [_model_entry_point(model, dist)] *)
Definition _model_entry_point (model : ModelDef) : EntryPoint :=
  {| ep_name := md_name model;
     ep_module_name := py "guild.model";
     ep_attrs := [py "Model"] |}.

(** [_resource_entry_point(name, dist)] *)
Definition _resource_entry_point (name : str) : EntryPoint :=
  {| ep_name := name;
     ep_module_name := py "guild.resource";
     ep_attrs := [py "Resource"] |}.

(** [_iter_resources(modelfile)] *)
Definition _iter_resources (modelfile : Modelfile) : list Resource :=
  flat_map md_resources (mf_models modelfile).

(** A dict comprehension: a later item replaces an earlier one with the
    same key. *)
Definition dict_of {A} (key : A -> str) (value : A -> EntryPoint) (items : list A)
    : gmap str EntryPoint :=
  foldl (fun m x => <[key x := value x]> m) ∅ items.

(** [_modelfile_entry_map(modelfile, dist)] *)
Definition _modelfile_entry_map (modelfile : Modelfile)
    : gmap str (gmap str EntryPoint) :=
  <[py "guild.resources" :=
      dict_of res_name (fun r => _resource_entry_point (res_name r))
        (_iter_resources modelfile)]>
  (<[py "guild.models" :=
      dict_of md_name _model_entry_point (mf_models modelfile)]> ∅).

(** A [ModelfileDistribution] after [__init__]. *)
Record ModelfileDistribution := {
  mfd_location : str;
  mfd_project_name : str;
  mfd_modelfile : Modelfile;
  mfd_entry_map : gmap str (gmap str EntryPoint)
}.

(** [ModelfileDistribution.__init__(modelfile)];
    [pkg_resources.Distribution.__init__] stores
    [safe_name(project_name or 'Unknown')]. *)
Definition ModelfileDistribution_init (getcwd : result str) (modelfile : Modelfile)
    : result ModelfileDistribution :=
  rbind (_modelfile_project_name getcwd modelfile)
    (fun project_name =>
       Ok {| mfd_location := mf_src modelfile;
             mfd_project_name :=
               PkgResources.safe_name
                 (if bool_decide (project_name = []) then py "Unknown"
                  else project_name);
             mfd_modelfile := modelfile;
             mfd_entry_map := _modelfile_entry_map modelfile |}).

(** The directory of a definition file as the specification words it:
    relative to the working directory, and marked with a leading [./]
    unless it starts with a dot already. *)
Definition spec_relative_dir (cwd definition_file : str) : result str :=
  rbind (Posixpath.relpath cwd (Posixpath.dirname definition_file))
    (fun r => Ok (if Str.startswith r [dot] then r else [dot; slash] ++ r)).

(** ** Distributions known to [pkg_resources] *)

(** A package distribution: what the core reads of a
    [pkg_resources.Distribution]. [pd_id] is the identity of the object,
    [pd_metadata_lines] what [get_metadata_lines(name)] answers. *)
Record PackageDistribution := {
  pd_id : nat;
  pd_project_name : str;
  pd_version : option str;
  pd_location : str;
  pd_metadata_lines : str -> result (list str)
}.

Inductive Distribution :=
| PackageDist (d : PackageDistribution)
| ModelfileDist (d : ModelfileDistribution).

(** [pkg_resources.Distribution.__str__] *)
Definition Distribution_str (d : PackageDistribution) : str :=
  pd_project_name d ++ py " "
  ++ match pd_version d with
     | Some v => if bool_decide (v = []) then py "[unknown version]" else v
     | None => py "[unknown version]"
     end.

(** [pkg_resources.Distribution.__repr__] *)
Definition Distribution_repr (d : PackageDistribution) : str :=
  if bool_decide (pd_location d = []) then Distribution_str d
  else Distribution_str d ++ py " (" ++ pd_location d ++ py ")".

(** [Model]: the name and distribution of its entry point, and the
    definition resolved by [__init__]. *)
Record Model := {
  model_name : str;
  model_dist : Distribution;
  model_modeldef : ModelDef
}.

(** ** The host: collaborators outside this module *)

Record Host := {
  (** [modelfile.NAMES] *)
  NAMES : list str;
  (** [modelfile.from_file(path)] *)
  from_file : str -> result Modelfile;
  (** [open(path, "rb").read()] *)
  open_read : str -> result bytes;
  (** [hashlib.md5(data).hexdigest()] *)
  md5_hexdigest : bytes -> str;
  (** [os.getcwd()] *)
  getcwd : str;
  (** [namespace.apply_namespace(project_name)] of [guild/namespace.py],
      which is not part of the sources at hand: the display namespace of
      a project name, or the exception the lookup ends in. *)
  apply_namespace : str -> result str;
  (** Modelled from the spec: the models a full scan of a search path
      gathers, from package metadata and the discovery hook, both outside
      the sources at hand. They come in order of priority: root by root
      in path order, and within a root distribution by distribution. *)
  scan : list str -> list Model
}.

(** ** State and effects *)

(** A record handed to [logging.warning]: the format and its arguments. *)
Inductive warning :=
| MissingRecord (dist : str)
    (* "distribution %s missing RECORD metadata - unable to find models" *)
| UnableToLoad (path : str) (e : exn)
    (* "unable to load models from %s: %s" *)
| UnableToHash (path : str).
    (* "unable to read %s to calculate modelfile hash" *)

(** An access to the world outside the process. *)
Inductive io_event :=
| GetMetadataLines (dist : nat) (name : str)
| FromFile (path : str)
| OpenRead (path : str).

(** Modelled from the spec: [EntryPointResources] of
    [guild/entry_point_util.py], which is not part of the sources at hand.
    It owns the search path and the index from fully-qualified names to
    models; the index is built once per path value and dropped when the
    path is assigned. *)
Record EntryPointResources := {
  epr_path : list str;
  epr_index : option (gmap str Model)
}.

Record state := {
  st_warnings : list warning;
  st_io : list io_event;
  (** attributes this module sets on distribution objects, by object
      identity and attribute name *)
  st_attrs : gmap (nat * string) (list ModelDef);
  (** the module-level [_models] *)
  st_models : EntryPointResources
}.

Definition M (A : Type) : Type := state -> result A * state.

Definition ret {A} (a : A) : M A := fun s => (Ok a, s).
Definition raise {A} (e : exn) : M A := fun s => (Raise e, s).
Definition bind {A B} (m : M A) (k : A -> M B) : M B :=
  fun s =>
    match m s with
    | (Ok a, s') => k a s'
    | (Raise e, s') => (Raise e, s')
    end.

(** [try: m  except: handler  else: body]; [handler] answers [None] for an
    exception its [except] clause does not name, which then propagates. *)
Definition try_except_else {A B} (m : M A) (handler : exn -> option (M B))
    (body : A -> M B) : M B :=
  fun s =>
    match m s with
    | (Ok a, s') => body a s'
    | (Raise e, s') =>
        match handler e with
        | Some h => h s'
        | None => (Raise e, s')
        end
    end.

Notation "x <- m ;; k" := (bind m (fun x => k))
  (at level 100, m at next level, right associativity).
Notation "m ;;; k" := (bind m (fun _ => k))
  (at level 100, right associativity).

Definition lift {A} (r : result A) : M A := fun s => (r, s).

Definition logging_warning (w : warning) : M unit :=
  fun s => (Ok tt, {| st_warnings := st_warnings s ++ [w];
                      st_io := st_io s;
                      st_attrs := st_attrs s;
                      st_models := st_models s |}).

Definition io (e : io_event) : M unit :=
  fun s => (Ok tt, {| st_warnings := st_warnings s;
                      st_io := st_io s ++ [e];
                      st_attrs := st_attrs s;
                      st_models := st_models s |}).

(** [hasattr(dist, name)]; an underscore name never reaches the metadata
    provider, so it is found only when set on the object. *)
Definition hasattr (dist : PackageDistribution) (name : string) : M bool :=
  fun s => (Ok (bool_decide (is_Some (st_attrs s !! (pd_id dist, name)))), s).

(** [dist.<name> = v] *)
Definition setattr (dist : PackageDistribution) (name : string)
    (v : list ModelDef) : M unit :=
  fun s => (Ok tt, {| st_warnings := st_warnings s;
                      st_io := st_io s;
                      st_attrs := <[(pd_id dist, name) := v]> (st_attrs s);
                      st_models := st_models s |}).

(** [dist.<name>] *)
Definition getattr (dist : PackageDistribution) (name : string)
    : M (list ModelDef) :=
  fun s =>
    match st_attrs s !! (pd_id dist, name) with
    | Some v => (Ok v, s)
    | None => (Raise AttributeError, s)
    end.

Definition comma : Z := 44.

Section GuildModel.
Variable host : Host.

(** [dist.get_metadata_lines(name)] *)
Definition get_metadata_lines (dist : PackageDistribution) (name : str)
    : M (list str) :=
  io (GetMetadataLines (pd_id dist) name) ;;; lift (pd_metadata_lines dist name).

(** [modelfile.from_file(path)] *)
Definition modelfile_from_file (path : str) : M Modelfile :=
  io (FromFile path) ;;; lift (from_file host path).

(** [_try_acc_modeldefs(path, acc)]; the list [acc] is extended in place,
    here it is passed on. *)
Definition _try_acc_modeldefs (path : str) (acc : list ModelDef)
    : M (list ModelDef) :=
  try_except_else (modelfile_from_file path)
    (fun e => Some (logging_warning (UnableToLoad path e) ;;; ret acc))
    (fun models => ret (acc ++ mf_models models)).

(** The [for line in record] loop of [_load_dist_modeldefs]. *)
Fixpoint _load_dist_modeldefs_loop (dist : PackageDistribution)
    (record : list str) (modeldefs : list ModelDef) : M (list ModelDef) :=
  match record with
  | [] => ret modeldefs
  | line :: record' =>
      let path := nth 0 (Str.split1 comma line) [] in
      if bool_decide (Posixpath.basename path ∈ NAMES host) then
        let fullpath := Posixpath.join (pd_location dist) [path] in
        modeldefs' <- _try_acc_modeldefs fullpath modeldefs ;;
        _load_dist_modeldefs_loop dist record' modeldefs'
      else _load_dist_modeldefs_loop dist record' modeldefs
  end.

(** [_load_dist_modeldefs(dist)] *)
Definition _load_dist_modeldefs (dist : PackageDistribution)
    : M (list ModelDef) :=
  try_except_else (get_metadata_lines dist (py "RECORD"))
    (fun e =>
       match e with
       | IOError =>
           Some (logging_warning (MissingRecord (Distribution_str dist)) ;;; ret [])
       | _ => None
       end)
    (fun record => _load_dist_modeldefs_loop dist record []).

(** [_ensure_dist_modeldefs(dist)]: the test reads the attribute
    [_modelefs], the assignment writes [_modeldefs]. *)
Definition _ensure_dist_modeldefs (dist : PackageDistribution)
    : M (list ModelDef) :=
  cached <- hasattr dist "_modelefs" ;;
  (if negb cached then
     modeldefs <- _load_dist_modeldefs dist ;;
     setattr dist "_modeldefs" modeldefs
   else ret tt) ;;;
  getattr dist "_modeldefs".

(** The [for ... if ... return] loop shared by [get_model] and
    [_modeldef_for_dist]. *)
Fixpoint first_named (name : str) (modeldefs : list ModelDef) : option ModelDef :=
  match modeldefs with
  | [] => None
  | modeldef :: rest =>
      if str_eqb (md_name modeldef) name then Some modeldef
      else first_named name rest
  end.

(** [ModelfileDistribution.get_model(name)] *)
Definition get_model (self : ModelfileDistribution) (name : str) : result ModelDef :=
  match first_named name (mf_models (mfd_modelfile self)) with
  | Some model => Ok model
  | None => Raise (ValueError name)
  end.

(** [_modeldef_for_dist(name, dist)] *)
Definition _modeldef_for_dist (name : str) (dist : Distribution) : M ModelDef :=
  match dist with
  | ModelfileDist d => lift (get_model d name)
  | PackageDist d =>
      modeldefs <- _ensure_dist_modeldefs d ;;
      match first_named name modeldefs with
      | Some modeldef => ret modeldef
      | None => raise (ValueError (py "undefined model '" ++ name ++ py "'"))
      end
  end.

(** [Model.__init__(ep)] for an entry point named [name] of [dist]. *)
Definition Model_init (name : str) (dist : Distribution) : M Model :=
  modeldef <- _modeldef_for_dist name dist ;;
  ret {| model_name := name; model_dist := dist; model_modeldef := modeldef |}.

(** [dist.project_name] *)
Definition project_name (dist : Distribution) : str :=
  match dist with
  | PackageDist d => pd_project_name d
  | ModelfileDist d => mfd_project_name d
  end.

(** [Model.fullname]. The value is computed at the first access and kept
    in [_fullname]; [apply_namespace] answers by the project name alone,
    so a later access finds what it would compute again. *)
Definition fullname (self : Model) : result str :=
  rbind (apply_namespace host (project_name (model_dist self)))
    (fun pkg_name => Ok (pkg_name ++ py "/" ++ model_name self)).

(** [_modelfile_hash(path)] *)
Definition _modelfile_hash (path : str) : M str :=
  try_except_else (io (OpenRead path) ;;; lift (open_read host path))
    (fun e =>
       match e with
       | IOError => Some (logging_warning (UnableToHash path) ;;; ret (py "-"))
       | _ => None
       end)
    (fun path_bytes => ret (md5_hexdigest host path_bytes)).

(** [_modelfile_dist_ref(modelfile)] *)
Definition _modelfile_dist_ref (modelfile : Modelfile) : M str :=
  let path := Posixpath.abspath (getcwd host) (mf_src modelfile) in
  hash <- _modelfile_hash path ;;
  ret (path ++ py " " ++ hash).

(** [Model.reference]; reading [dist.modelfile] raises [AttributeError]
    exactly for a package distribution. *)
Definition reference (self : Model) : M str :=
  match model_dist self with
  | PackageDist d =>
      ret (py "dist:" ++ Distribution_str d ++ py " " ++ model_name self)
  | ModelfileDist d =>
      ref <- _modelfile_dist_ref (mfd_modelfile d) ;;
      ret (py "file:" ++ ref ++ py " " ++ model_name self)
  end.

(** *** The registry *)

Definition with_models (r : EntryPointResources) (s : state) : state :=
  {| st_warnings := st_warnings s;
     st_io := st_io s;
     st_attrs := st_attrs s;
     st_models := r |}.

(** Modelled from the spec: [_models.path()], the read accessor. *)
Definition EntryPointResources_path : M (list str) :=
  fun s => (Ok (epr_path (st_models s)), s).

(** Modelled from the spec: [_models.set_path(path)] replaces the search
    path wholesale and invalidates the cached index. *)
Definition EntryPointResources_set_path (path : list str) : M unit :=
  fun s => (Ok tt, with_models {| epr_path := path; epr_index := None |} s).

(** Modelled from the spec: the index from fully-qualified names to
    models, built of the models a scan gathers, in their order; the first
    writer of a name wins, a later model of the same name does not
    replace it. The name of a model is its [fullname]; an error of
    computing it ends the build. *)
Fixpoint index_of (models : list Model) (index : gmap str Model)
    : result (gmap str Model) :=
  match models with
  | [] => Ok index
  | model :: rest =>
      rbind (fullname model)
        (fun name =>
           index_of rest
             match index !! name with
             | Some _ => index
             | None => <[name := model]> index
             end)
  end.

(** Modelled from the spec: the index is rebuilt by a full scan of the
    path when the cache is stale and reused otherwise. *)
Definition EntryPointResources_index : M (gmap str Model) :=
  fun s =>
    match epr_index (st_models s) with
    | Some index => (Ok index, s)
    | None =>
        match index_of (scan host (epr_path (st_models s))) ∅ with
        | Ok index =>
            (Ok index,
             with_models {| epr_path := epr_path (st_models s);
                            epr_index := Some index |} s)
        | Raise e => (Raise e, s)
        end
    end.

(** Modelled from the spec: [_models.for_name(name)] looks the name up in
    a fresh index and fails when it is absent. *)
Definition EntryPointResources_for_name (name : str) : M Model :=
  index <- EntryPointResources_index ;;
  match index !! name with
  | Some model => ret model
  | None => raise (LookupError name)
  end.

(** Code points compared in order: the order of [sorted] on names. *)
Fixpoint str_leb (a b : str) : bool :=
  match a, b with
  | [], _ => true
  | _ :: _, [] => false
  | x :: a', y :: b' =>
      if x <? y then true else if y <? x then false else str_leb a' b'
  end.

Definition name_le (a b : str * Model) : Prop := str_leb a.1 b.1 = true.

#[global] Instance name_le_dec a b : Decision (name_le a b).
Proof. unfold name_le. apply _. Defined.

(** Modelled from the spec: iterating [_models] yields every entry of a
    fresh index, in name order. *)
Definition EntryPointResources_iter : M (list (str * Model)) :=
  index <- EntryPointResources_index ;;
  ret (merge_sort name_le (map_to_list index)).

(** [get_path()] *)
Definition get_path : M (list str) := EntryPointResources_path.

(** [set_path(path)] *)
Definition set_path (path : list str) : M unit := EntryPointResources_set_path path.

(** [list.remove(x)]: drops the first element equal to [x]; [ValueError]
    when there is none. *)
Fixpoint list_remove (x : str) (l : list str) : result (list str) :=
  match l with
  | [] => Raise (ValueError (py "list.remove(x): x not in list"))
  | y :: l' =>
      if str_eqb y x then Ok l'
      else match list_remove x l' with
           | Ok r => Ok (y :: r)
           | Raise e => Raise e
           end
  end.

(** [add_model_path(model_path)] *)
Definition add_model_path (model_path : str) : M unit :=
  path <- EntryPointResources_path ;;
  let path :=
    match list_remove model_path path with
    | Ok path' => path'
    | Raise _ => path
    end in
  let path := model_path :: path in
  EntryPointResources_set_path path.

(** [iter_models()]: the models the generator yields, in order. *)
Definition iter_models : M (list Model) :=
  entries <- EntryPointResources_iter ;;
  ret (map snd (filter (fun e : str * Model =>
                          negb (md_private (model_modeldef e.2)) = true) entries)).

(** [for_name(name)] *)
Definition for_name (name : str) : M Model := EntryPointResources_for_name name.

End GuildModel.

(** ** The specification's vocabulary *)

(** The definition files a manifest names, in manifest order: for each line
    whose first comma-delimited field has a recognized base name, that
    field joined to the distribution's location. *)
Definition matched_paths (host : Host) (dist : PackageDistribution)
    (record : list str) : list str :=
  flat_map (fun line =>
              let path := nth 0 (Str.split1 comma line) [] in
              if bool_decide (Posixpath.basename path ∈ NAMES host)
              then [Posixpath.join (pd_location dist) [path]] else [])
           record.

(** The definitions of the files that parse, in order. *)
Definition loaded (host : Host) (paths : list str) : list ModelDef :=
  flat_map (fun p => match from_file host p with
                     | Ok models => mf_models models
                     | Raise _ => []
                     end) paths.

(** One warning for each file that does not parse, in order. *)
Definition load_warnings (host : Host) (paths : list str) : list warning :=
  flat_map (fun p => match from_file host p with
                     | Ok _ => []
                     | Raise e => [UnableToLoad p e]
                     end) paths.

(** A component of a relative path: not empty and without a slash. *)
Definition component (w : str) : Prop := w <> [] /\ (slash ∉ w).

(** The state after the files [paths] were handed to the parser: one I/O
    event for each, one warning for each that failed. *)
Definition log_loads (host : Host) (paths : list str) (s : state) : state :=
  {| st_warnings := st_warnings s ++ load_warnings host paths;
     st_io := st_io s ++ map FromFile paths;
     st_attrs := st_attrs s;
     st_models := st_models s |}.

(** [m] is the first definition of [l] named [name]. *)
Definition first_match (name : str) (l : list ModelDef) (m : ModelDef) : Prop :=
  exists l1 l2, l = l1 ++ m :: l2 /\ md_name m = name
                /\ Forall (fun x => md_name x <> name) l1.

(** [model] is the first of [models] whose fully-qualified name is
    [name]: the first writer of that name. *)
Definition first_writer (host : Host) (name : str) (model : Model)
    (models : list Model) : Prop :=
  exists l1 l2, models = l1 ++ model :: l2
                /\ fullname host model = Ok name
                /\ Forall (fun m => fullname host m <> Ok name) l1.

(** The invariant of the registry: a cached index is the index of the
    current search path. It holds of a fresh registry and every
    operation keeps it. *)
Definition registry_ok (host : Host) (s : state) : Prop :=
  forall index, epr_index (st_models s) = Some index ->
    index_of host (scan host (epr_path (st_models s))) ∅ = Ok index.

(** How often [x] occurs in [l]. *)
Definition occurrences (x : str) (l : list str) : nat :=
  length (filter (fun y => y = x) l).

(** ** Worked examples *)

Definition net : ModelDef :=
  {| md_name := py "net"; md_private := false; md_resources := [] |}.
Definition debug_net : ModelDef :=
  {| md_name := py "debug-net"; md_private := true; md_resources := [] |}.

(** A model file in [proj-a] under the working directory: [net] is public
    and [debug-net] is private. *)
Definition example_modelfile : Modelfile :=
  {| mf_src := py "/home/u/work/proj-a/MODEL";
     mf_models := [net; debug_net] |}.

Definition example_cwd : str := py "/home/u/work".

Definition example_file_dist : ModelfileDistribution :=
  {| mfd_location := mf_src example_modelfile;
     mfd_project_name := py ".modelfile.2E2F70726F6A2D61";
     mfd_modelfile := example_modelfile;
     mfd_entry_map := _modelfile_entry_map example_modelfile |}.

Definition example_net : Model :=
  {| model_name := py "net";
     model_dist := ModelfileDist example_file_dist;
     model_modeldef := net |}.
Definition example_debug_net : Model :=
  {| model_name := py "debug-net";
     model_dist := ModelfileDist example_file_dist;
     model_modeldef := debug_net |}.

(** A host with one installed package: its manifest names two definition
    files, the second of which does not parse. The only file hashed is
    empty, and its MD5 digest is the one given. No namespace claims a
    project name, and a scan finds the two models of the model file in
    [proj-a]. *)
Definition example_host : Host :=
  {| NAMES := [py "MODEL"; py "MODELS"];
     from_file := fun path =>
       if str_eqb path (py "/site/demo/MODEL")
       then Ok {| mf_src := path; mf_models := [net; debug_net] |}
       else if str_eqb path (py "/site/demo/extra/MODELS")
       then Ok {| mf_src := path; mf_models := [net] |}
       else Raise (OtherError (py "invalid modelfile"));
     open_read := fun path =>
       if str_eqb path (py "/home/u/work/proj-a/MODEL") then Ok [] else Raise IOError;
     md5_hexdigest := fun _ => py "d41d8cd98f00b204e9800998ecf8427e";
     getcwd := example_cwd;
     apply_namespace := fun project_name => Ok project_name;
     scan := fun _ => [example_net; example_debug_net] |}.

Definition example_dist : PackageDistribution :=
  {| pd_id := 1;
     pd_project_name := py "gpkg.demo";
     pd_version := Some (py "0.1");
     pd_location := py "/site";
     pd_metadata_lines := fun name =>
       if str_eqb name (py "RECORD")
       then Ok [py "demo/MODEL,sha256=ab12,120";
                py "demo/__init__.py,,";
                py "demo/broken/MODEL,sha256=cd34,7";
                py "demo/extra/MODELS,sha256=ef56,64"]
       else Raise IOError |}.

(** The same package without readable metadata. *)
Definition example_dist_no_record : PackageDistribution :=
  {| pd_id := 2;
     pd_project_name := py "gpkg.bare";
     pd_version := None;
     pd_location := py "/site";
     pd_metadata_lines := fun _ => Raise IOError |}.

Definition initial_state : state :=
  {| st_warnings := [];
     st_io := [];
     st_attrs := ∅;
     st_models := {| epr_path := []; epr_index := None |} |}.

(** ** guild.flag_util: the flag value codec *)

(** A flag value. A float is its binary64 bit pattern; a dict is its items
    in the order [sorted(d.items())] gives them. *)
Inductive pyval :=
| VBool (b : bool)
| VNone
| VInt (n : Z)
| VFloat (bits : Z)
| VStr (s : str)
| VList (l : list pyval)
| VDict (items : list (pyval * pyval)).

(** The libraries behind the codec. *)
Record FlagHost := {
  (** [yaml.safe_dump(val)] *)
  yaml_safe_dump : pyval -> str;
  (** [yaml.safe_load(s)] *)
  yaml_safe_load : str -> result pyval;
  (** [float(s)], which raises [ValueError] for a text that is no float *)
  py_float : str -> result Z;
  (** [int(s)] for a text with characters outside ASCII *)
  py_int_unicode : str -> result Z
}.

Module PyStr.

(** [c.isspace()], the characters [strip()] removes and [\s] matches. *)
Definition is_space (c : Z) : bool :=
  Codec.in_range 9 13 c || Codec.in_range 28 32 c || (c =? 0x85) || (c =? 0xA0)
  || (c =? 0x1680) || Codec.in_range 0x2000 0x200A c || (c =? 0x2028)
  || (c =? 0x2029) || (c =? 0x202F) || (c =? 0x205F) || (c =? 0x3000).

(** What the C library calls a space: the white space [int()] skips
    around an ASCII text. *)
Definition is_c_space (c : Z) : bool := Codec.in_range 9 13 c || (c =? 32).

Fixpoint lstrip_by (space : Z -> bool) (s : str) : str :=
  match s with
  | [] => []
  | c :: s' => if space c then lstrip_by space s' else s
  end.

Fixpoint rstrip_by (space : Z -> bool) (s : str) : str :=
  match s with
  | [] => []
  | c :: s' =>
      match rstrip_by space s' with
      | [] => if space c then [] else [c]
      | r => c :: r
      end
  end.

Definition strip_by (space : Z -> bool) (s : str) : str :=
  rstrip_by space (lstrip_by space s).

(** [s.strip()] *)
Definition strip (s : str) : str := strip_by is_space s.

(** [s.endswith(suffix)] *)
Definition endswith (s suffix : str) : bool :=
  (length suffix <=? length s)%nat
  && bool_decide (drop (length s - length suffix) s = suffix).

Definition is_digit (c : Z) : bool := Codec.in_range 48 57 c.

(** The digits of [int(s)] after the sign: decimal digits, with single
    underscores allowed between two digits. *)
Fixpoint int_digits (s : str) (acc : Z) (after_digit : bool) : option Z :=
  match s with
  | [] => if after_digit then Some acc else None
  | c :: s' =>
      if is_digit c then int_digits s' (10 * acc + (c - 48)) true
      else if (c =? 95) && after_digit then
        match s' with
        | c' :: _ => if is_digit c' then int_digits s' acc false else None
        | [] => None
        end
      else None
  end.

Definition invalid_literal (s : str) : exn :=
  ValueError (py "invalid literal for int() with base 10: " ++ s).

(** [int(s)] for an ASCII text: surrounding white space, an optional sign,
    digits. *)
Definition int_ascii (s : str) : result Z :=
  let body := strip_by is_c_space s in
  let '(negative, digits) :=
    match body with
    | c :: d =>
        if c =? 45 then (true, d)
        else if c =? 43 then (false, d)
        else (false, body)
    | [] => (false, [])
    end in
  match int_digits digits 0 false with
  | Some n => Ok (if negative then - n else n)
  | None => Raise (invalid_literal s)
  end.

Fixpoint digits_fuel (fuel : nat) (n : Z) : str :=
  match fuel with
  | O => []
  | S fuel' =>
      if n <? 10 then [48 + n]
      else digits_fuel fuel' (n / 10) ++ [48 + n mod 10]
  end.

(** The decimal digits of [n >= 0]; a number has no more decimal digits
    than binary ones. *)
Definition digits (n : Z) : str := digits_fuel (S (Z.to_nat (Z.log2 n))) n.

(** [str(n)] for an [int]. *)
Definition str_of_int (n : Z) : str :=
  if n <? 0 then 45 :: digits (- n) else digits n.

End PyStr.

Section FlagUtil.
Variable host : FlagHost.

(** [int(s)] *)
Definition py_int (s : str) : result Z :=
  if forallb (Codec.in_range 0 0x7F) s then PyStr.int_ascii s
  else py_int_unicode host s.

(** [_strip_yaml(s)] *)
Definition _strip_yaml (s : str) : str :=
  if PyStr.endswith s (10 :: py "...") then take (length s - 4) s else s.

(** [_yaml_encode(val)] *)
Definition _yaml_encode (val : pyval) : str :=
  _strip_yaml (PyStr.strip (yaml_safe_dump host val)).

(** [_quote_float(s)] *)
Definition _quote_float (s : str) : str :=
  match py_float host s with
  | Raise _ => s
  | Ok _ => py "'" ++ s ++ py "'"
  end.

(** [_encode_str(s)] *)
Definition _encode_str (s : str) : str := _quote_float (_yaml_encode (VStr s)).

(** [sep.join(parts)] *)
Fixpoint str_join (sep : str) (parts : list str) : str :=
  match parts with
  | [] => []
  | [w] => w
  | w :: ws => w ++ sep ++ str_join sep ws
  end.

(** [encode_flag_val(val)], with [_encode_list] and [_encode_dict] in
    place. The items of a [VDict] are those [sorted(d.items())] gave: a
    dict whose keys do not compare, for which [sorted] raises
    [TypeError], has no value here. *)
Fixpoint encode_flag_val (val : pyval) : str :=
  match val with
  | VBool true => py "yes"
  | VBool false => py "no"
  | VNone => py "null"
  | VList val_list =>
      py "[" ++ str_join (py ", ") (map encode_flag_val val_list) ++ py "]"
  | VFloat _ => _yaml_encode val
  | VStr s => _encode_str s
  | VDict items =>
      py "{"
      ++ str_join (py ", ")
           (map (fun kv : pyval * pyval =>
                   let (k, v) := kv in
                   encode_flag_val k ++ py ": " ++ encode_flag_val v) items)
      ++ py "}"
  | VInt n => PyStr.str_of_int n
  end.

Definition is_name_char (c : Z) : bool :=
  Codec.in_range 97 122 c || Codec.in_range 65 90 c || Codec.in_range 48 57 c
  || (c =? 95) || (c =? 45) || (c =? 46).

(** The longest prefix of name characters and what follows it. *)
Fixpoint span_name (s : str) : str * str :=
  match s with
  | c :: s' =>
      if is_name_char c then let (n, r) := span_name s' in (c :: n, r)
      else ([], s)
  | [] => ([], [])
  end.

(** [s] split at its last closing square bracket: what precedes it and
    what follows. *)
Fixpoint split_last_bracket (s : str) : option (str * str) :=
  match s with
  | [] => None
  | c :: s' =>
      match split_last_bracket s' with
      | Some (before, after) => Some (c :: before, after)
      | None => if c =? 93 then Some ([], s') else None
      end
  end.

(** [FUNCTION_P.match(s)] and its two groups. The pattern reads: a
    greedy run of name characters (letters, digits, underscore, hyphen,
    dot), an opening square bracket, any characters but a newline, a
    closing square bracket, white space, the end of the text. So the name
    runs up to the first other character, which must be the opening
    bracket, and the arguments run up to the last closing bracket, which
    only white space may follow. *)
Definition FUNCTION_P_match (s : str) : option (str * str) :=
  let (name, rest) := span_name s in
  match rest with
  | 91 :: body =>
      match split_last_bracket body with
      | Some (args, trailing) =>
          if forallb (fun c => negb (c =? 10)) args && forallb PyStr.is_space trailing
          then Some (name, args) else None
      | None => None
      end
  | _ => None
  end.

(** What [except ValueError] catches. *)
Definition is_ValueError (e : exn) : bool :=
  match e with
  | ValueError _ | BinasciiError | UnicodeEncodeError | UnicodeDecodeError => true
  | _ => false
  end.

(** What [except (ValueError, yaml.YAMLError)] catches. *)
Definition is_ValueError_or_YAMLError (e : exn) : bool :=
  match e with
  | YAMLError => true
  | _ => is_ValueError e
  end.

(** The comprehension [[decode_flag_val(arg.strip()) for arg in args_s]]. *)
Fixpoint decode_args (decode : str -> result pyval) (args_s : list str)
    : result (list pyval) :=
  match args_s with
  | [] => Ok []
  | arg :: rest =>
      match decode (PyStr.strip arg) with
      | Raise e => Raise e
      | Ok v =>
          match decode_args decode rest with
          | Raise e => Raise e
          | Ok vs => Ok (v :: vs)
          end
      end
  end.

(** [decode_flag_function(s)], given the decoder of its arguments. *)
Definition decode_flag_function_with (decode : str -> result pyval) (s : str)
    : result (option str * list pyval) :=
  match FUNCTION_P_match s with
  | None => Raise (ValueError (py "not a function"))
  | Some (g1, g2) =>
      let name := if bool_decide (g1 = []) then None else Some g1 in
      let args_raw := PyStr.strip g2 in
      let args_s :=
        if bool_decide (args_raw = []) then [] else Str.split 58 args_raw in
      match decode_args decode args_s with
      | Raise e => Raise e
      | Ok args => Ok (name, args)
      end
  end.

(** [_yaml_parse(s)], given the decoder of function arguments. *)
Definition _yaml_parse_with (decode : str -> result pyval) (s : str)
    : result pyval :=
  match decode_flag_function_with decode s with
  | Raise e =>
      if is_ValueError e then yaml_safe_load host s else Raise e
  | Ok (name, args) =>
      if bool_decide (name = None) && (2 <=? length args)%nat then Ok (VStr s)
      else yaml_safe_load host s
  end.

(** [decode_flag_val(s)] run with room for [fuel] nested calls of itself
    on the interpreter's stack. A call that finds no room ends in
    [RecursionError], which is no [ValueError] and no [yaml.YAMLError]:
    neither handler catches it and it reaches the caller. *)
Fixpoint decode_flag_val_fuel (fuel : nat) (s : str) : result pyval :=
  match fuel with
  | O => Raise (OtherError (py "maximum recursion depth exceeded"))
  | S fuel' =>
      if bool_decide (s = []) then Ok (VStr s)
      else
        match py_int s with
        | Ok n => Ok (VInt n)
        | Raise e =>
            if is_ValueError e then
              match _yaml_parse_with (decode_flag_val_fuel fuel') s with
              | Ok v => Ok v
              | Raise e' =>
                  if is_ValueError_or_YAMLError e' then Ok (VStr s) else Raise e'
              end
            else Raise e
        end
  end.

(** [decode_flag_val(s)] on a stack with room for the nesting of [s]:
    the arguments of a flag function are shorter than the function, so
    the length of [s] bounds the nesting. *)
Definition decode_flag_val (s : str) : result pyval :=
  decode_flag_val_fuel (S (length s)) s.

(** [decode_flag_function(s)] *)
Definition decode_flag_function (s : str) : result (option str * list pyval) :=
  decode_flag_function_with decode_flag_val s.

(** [_yaml_parse(s)] *)
Definition _yaml_parse (s : str) : result pyval :=
  _yaml_parse_with decode_flag_val s.

End FlagUtil.

(** The values the codec names or prints itself: booleans, [None] and
    integers. *)
Definition is_scalar_literal (v : pyval) : bool :=
  match v with
  | VBool _ | VNone | VInt _ => true
  | _ => false
  end.

(** One step of reading a decimal number: the value so far and a digit. *)
Definition decimal_step (acc d : Z) : Z := 10 * acc + (d - 48).

(** A YAML 1.1 loader for the plain scalars of the examples. *)
Definition example_flag_host : FlagHost :=
  {| yaml_safe_dump := fun _ => [];
     yaml_safe_load := fun s =>
       if str_eqb s (py "yes") then Ok (VBool true)
       else if str_eqb s (py "no") then Ok (VBool false)
       else if str_eqb s (py "null") then Ok VNone
       else Ok (VStr s);
     py_float := fun _ => Raise (ValueError []);
     py_int_unicode := fun s => Raise (ValueError s) |}.


(** ** guild.model: the entry map and the importer *)

(** [ModelfileDistribution.get_entry_map()], the [group is None] branch. *)
Definition get_entry_map_all (self : ModelfileDistribution)
    : gmap str (gmap str EntryPoint) :=
  mfd_entry_map self.

(** [ModelfileDistribution.get_entry_map(group)] for a given group:
    [self._entry_map.get(group, {})]. *)
Definition get_entry_map (self : ModelfileDistribution) (group : str)
    : gmap str EntryPoint :=
  default ∅ (mfd_entry_map self !! group).

(** A model file whose one definition declares a resource, and its
    distribution. *)
Definition example_modelfile_res : Modelfile :=
  {| mf_src := py "/home/u/work/proj-a/MODEL";
     mf_models :=
       [ {| md_name := py "net"; md_private := false;
            md_resources := [ {| res_name := py "data" |} ] |} ] |}.

Definition example_res_dist : ModelfileDistribution :=
  {| mfd_location := mf_src example_modelfile_res;
     mfd_project_name := py ".modelfile.2E2F70726F6A2D61";
     mfd_modelfile := example_modelfile_res;
     mfd_entry_map := _modelfile_entry_map example_modelfile_res |}.

(** The search path without the first entry equal to [x]: what the
    [try: path.remove(x) except ValueError: pass] of [add_model_path]
    leaves. *)
Definition without_first (x : str) (l : list str) : list str :=
  match list_remove x l with
  | Ok l' => l'
  | Raise _ => l
  end.

(** A package whose metadata provider fails in its own way. *)
Definition example_dist_denied : PackageDistribution :=
  {| pd_id := 3;
     pd_project_name := py "gpkg.denied";
     pd_version := None;
     pd_location := py "/site";
     pd_metadata_lines := fun _ => Raise (OtherError (py "no such metadata")) |}.

(** What [ModelImporter.__init__] reads of the file system. *)
Record FsHost := {
  (** [os.path.isdir(path)] *)
  isdir : str -> bool;
  (** [os.listdir(path)]; it raises [OSError] when the directory cannot
      be read, for want of permission or because it went away *)
  listdir : str -> result (list str)
}.

(** A file system with one model directory, and one directory that may
    not be read. *)
Definition example_fs : FsHost :=
  {| isdir := fun path =>
       str_eqb path (py "./proj-a") || str_eqb path (py "./locked");
     listdir := fun path =>
       if str_eqb path (py "./proj-a") then Ok [py "README"; py "MODEL"]
       else if str_eqb path (py "./locked")
       then Raise (OtherError (py "Permission denied"))
       else Raise (OtherError (py "No such file or directory")) |}.

(** How [ModelImporter(path)] ends: with an importer, with
    [ModelImportError(path)], or with an exception of [os.listdir],
    which is not caught. *)
Inductive importer_init :=
| Importer
| ModelImportError (path : str)
| Propagates (e : exn).

(** The [for ... break ... else] loop of [ModelImporter.__init__]: [true]
    when the loop is left by [break]. *)
Fixpoint finds_modelfile (names path_names : list str) : bool :=
  match names with
  | [] => false
  | modelfile_name :: rest =>
      if bool_decide (modelfile_name ∈ path_names) then true
      else finds_modelfile rest path_names
  end.

(** [ModelImporter.__init__(path)]; [names] is [modelfile.NAMES]. *)
Definition ModelImporter_init (fs : FsHost) (names : list str) (path : str)
    : importer_init :=
  if negb (isdir fs path) then ModelImportError path
  else
    match listdir fs path with
    | Raise e => Propagates e
    | Ok path_names =>
        if finds_modelfile names path_names then Importer
        else ModelImportError path
    end.

(** ** guild.flag_util: formatting flags *)

(** [DEFAULT_FLOAT_TRUNC_LEN] *)
Definition DEFAULT_FLOAT_TRUNC_LEN : Z := 5.

(** [s[:k]], with Python's reading of a negative bound. *)
Definition slice_to (k : Z) (s : str) : str :=
  if 0 <=? k then take (Z.to_nat k) s
  else take (Z.to_nat (Z.of_nat (length s) + k)) s.

(** [_maybe_truncate_dec_part(part, trunc_len)] *)
Definition _maybe_truncate_dec_part (part : str) (trunc_len : Z) : str :=
  if negb (bool_decide (take 1 part = [dot])) then part
  else if Z.of_nat (length part) <=? trunc_len then part
  else slice_to (trunc_len + 1) part.

(** [re.split(r"(\.[0-9]+)", s)], read from the left: [text] is the text
    since the last separator and [in_dec] tells whether it is a separator
    being read, a dot and the digits after it. Both are kept reversed. *)
Fixpoint split_decimals (s : str) (text : str) (in_dec : bool) : list str :=
  match s with
  | [] => if in_dec then [rev text; []] else [rev text]
  | c :: s' =>
      if in_dec && PyStr.is_digit c then split_decimals s' (c :: text) true
      else
        let closed := if in_dec then [rev text] else [] in
        let text0 := if in_dec then [] else text in
        if (c =? dot)
           && match s' with
              | d :: _ => PyStr.is_digit d
              | [] => false
              end
        then closed ++ rev text0 :: split_decimals s' [c] true
        else closed ++ split_decimals s' (c :: text0) false
  end.

(** [_truncate_formatted_float(s, trunc_len)] *)
Definition _truncate_formatted_float (s : str) (trunc_len : Z) : str :=
  concat (map (fun part => _maybe_truncate_dec_part part trunc_len)
              (split_decimals s [] false)).

(** The truth value of a flag value: what [if val] tests. A float is zero
    when all its bits but the sign are. *)
Definition truthy (v : pyval) : bool :=
  match v with
  | VBool b => b
  | VNone => false
  | VInt n => negb (n =? 0)
  | VFloat bits => negb (bits mod 2 ^ 63 =? 0)
  | VStr s => negb (bool_decide (s = []))
  | VList l => match l with [] => false | _ => true end
  | VDict d => match d with [] => false | _ => true end
  end.

Section Format.
Variable host : FlagHost.
(** [repr(val)] *)
Variable py_repr : pyval -> str.

(** [_trunc_len(truncate_floats)]; [False], an [int] as well, counts as
    zero. *)
Definition _trunc_len (truncate_floats : pyval) : result Z :=
  match truncate_floats with
  | VBool true => Ok DEFAULT_FLOAT_TRUNC_LEN
  | VBool false => Ok 0
  | VInt n => Ok n
  | _ =>
      Raise (ValueError
               (py "invalid value for truncate_floats: "
                ++ py_repr truncate_floats ++ py " (expected int)"))
  end.

(** [_quote(s)] *)
Definition _quote (s : str) : str := py_repr (VStr s).

(** [_needs_quote(encoded, val)] *)
Definition _needs_quote (encoded : str) (val : pyval) : bool :=
  match val with
  | VStr _ =>
      bool_decide (32 ∈ encoded)
      && match encoded with
         | c :: _ => negb ((c =? 39) || (c =? 34))
         | [] => false
         end
  | _ => false
  end.

(** [_quote_encoded(encoded, val)] *)
Definition _quote_encoded (encoded : str) (val : pyval) : str :=
  if _needs_quote encoded val then _quote encoded else encoded.

(** [format_flag(val, truncate_floats)] *)
Definition format_flag (val truncate_floats : pyval) : result str :=
  let fmt_val := encode_flag_val host val in
  let is_float := match val with VFloat _ => true | _ => false end in
  if truthy truncate_floats && is_float then
    match _trunc_len truncate_floats with
    | Raise e => Raise e
    | Ok trunc_len =>
        Ok (_quote_encoded (_truncate_formatted_float fmt_val trunc_len) val)
    end
  else Ok (_quote_encoded fmt_val val).

(** [_flag_assign(name, val, truncate_floats)] *)
Definition _flag_assign (name : str) (val truncate_floats : pyval) : result str :=
  match format_flag val truncate_floats with
  | Raise e => Raise e
  | Ok v => Ok (name ++ py "=" ++ v)
  end.

(** The order of [sorted] on the items of a dict with [str] keys: keys
    are distinct, so the values are never compared. *)
Definition flag_le (a b : str * pyval) : Prop := str_leb a.1 b.1 = true.

#[global] Instance flag_le_dec a b : Decision (flag_le a b).
Proof. unfold flag_le. apply _. Defined.

(** The comprehension of [format_flags] over the sorted items. *)
Fixpoint format_each (items : list (str * pyval)) (truncate_floats : pyval)
    : result (list str) :=
  match items with
  | [] => Ok []
  | (name, val) :: rest =>
      match _flag_assign name val truncate_floats with
      | Raise e => Raise e
      | Ok line =>
          match format_each rest truncate_floats with
          | Raise e => Raise e
          | Ok lines => Ok (line :: lines)
          end
      end
  end.

(** [format_flags(flags, truncate_floats)]; [flags] holds the items of
    the dict. *)
Definition format_flags (flags : list (str * pyval)) (truncate_floats : pyval)
    : result (list str) :=
  format_each (merge_sort flag_le flags) truncate_floats.

End Format.


Definition is_float (v : pyval) : bool :=
  match v with VFloat _ => true | _ => false end.

Definition is_str (v : pyval) : bool :=
  match v with VStr _ => true | _ => false end.


(** A list or a dict: the values [encode_flag_val] encodes item by item.
    Sorting the items of a dict fails, with [TypeError], when its keys do
    not compare, and a nesting deeper than the stack ends in
    [RecursionError]; [VDict] holds items that were sorted, so a statement
    on what [format_flag] raises is made of the other values. *)
Definition is_container (v : pyval) : bool :=
  match v with VList _ | VDict _ => true | _ => false end.
(** * Properties *)

(** ** Codec facts *)

Section CodecFacts.
Import Codec.

Lemma in_range_true lo hi b : lo <= b <= hi -> in_range lo hi b = true.
Proof. unfold in_range. intros. apply andb_true_intro. split; apply Z.leb_le; lia. Qed.

Lemma in_range_false lo hi b : b < lo \/ hi < b -> in_range lo hi b = false.
Proof.
  unfold in_range. intros [H|H].
  - apply andb_false_intro1, Z.leb_gt, H.
  - apply andb_false_intro2, Z.leb_gt, H.
Qed.

Lemma in_range_spec lo hi b : in_range lo hi b = true <-> lo <= b <= hi.
Proof. unfold in_range. rewrite andb_true_iff, !Z.leb_le. tauto. Qed.

Lemma is_scalar_spec c :
  is_scalar c = true <-> 0 <= c < 0x110000 /\ ~ (0xD800 <= c <= 0xDFFF).
Proof.
  unfold is_scalar.
  rewrite !andb_true_iff, negb_true_iff, andb_false_iff.
  rewrite !Z.leb_le, Z.ltb_lt, !Z.leb_gt. lia.
Qed.

Lemma not_is_Some_None {A} : ~ is_Some (@None A).
Proof. intros [? [=]]. Qed.

Lemma utf8_encode_cp_scalar c :
  is_Some (utf8_encode_cp c) <-> is_scalar c = true.
Proof.
  rewrite is_scalar_spec. unfold utf8_encode_cp.
  destruct (Z.ltb_spec c 0).
  { split; [intros []%not_is_Some_None | intros; exfalso; lia]. }
  destruct (Z.ltb_spec c 0x80). { split; [lia|eauto]. }
  destruct (Z.ltb_spec c 0x800). { split; [lia|eauto]. }
  destruct (Z.ltb_spec c 0x10000).
  { destruct (Z.leb_spec 0xD800 c), (Z.leb_spec c 0xDFFF); simpl.
    - split; [intros []%not_is_Some_None | intros; exfalso; lia].
    - split; [lia|eauto].
    - split; [lia|eauto].
    - split; [lia|eauto]. }
  destruct (Z.ltb_spec c 0x110000). { split; [lia|eauto]. }
  split; [intros []%not_is_Some_None | intros; exfalso; lia].
Qed.

Lemma utf8_encode_cp_octets c bs :
  utf8_encode_cp c = Some bs -> Forall octet bs.
Proof.
  unfold utf8_encode_cp, octet.
  destruct (Z.ltb_spec c 0); [done|].
  destruct (Z.ltb_spec c 0x80).
  { intros [= <-]. repeat constructor; lia. }
  pose proof (Z.mod_pos_bound c 64 ltac:(lia)).
  pose proof (Z.mod_pos_bound (c / 64) 64 ltac:(lia)).
  pose proof (Z.mod_pos_bound (c / 4096) 64 ltac:(lia)).
  destruct (Z.ltb_spec c 0x800).
  { intros [= <-].
    assert (0 <= c / 64 < 32) by (split; [apply Z.div_pos | apply Z.div_lt_upper_bound]; lia).
    repeat constructor; lia. }
  destruct (Z.ltb_spec c 0x10000).
  { destruct (_ && _); [done|]. intros [= <-].
    assert (0 <= c / 4096 < 16) by (split; [apply Z.div_pos | apply Z.div_lt_upper_bound]; lia).
    repeat constructor; lia. }
  destruct (Z.ltb_spec c 0x110000); [|done].
  intros [= <-].
  assert (0 <= c / 262144 < 16) by (split; [apply Z.div_pos | apply Z.div_lt_upper_bound]; lia).
  repeat constructor; lia.
Qed.
Lemma utf8_decode_encode_cp c bs rest :
  utf8_encode_cp c = Some bs ->
  utf8_decode (bs ++ rest) = lift_cons c (utf8_decode rest).
Proof.
  unfold utf8_encode_cp, lift_cons.
  destruct (Z.ltb_spec c 0); [done|].
  destruct (Z.ltb_spec c 0x80).
  { intros [= <-]. cbn [app utf8_decode].
    rewrite in_range_true by lia. done. }
  pose proof (Z.div_mod c 64 ltac:(lia)) as Hdm.
  pose proof (Z.mod_pos_bound c 64 ltac:(lia)) as Hm.
  pose proof (Z.div_mod (c / 64) 64 ltac:(lia)) as Hdm2.
  pose proof (Z.mod_pos_bound (c / 64) 64 ltac:(lia)) as Hm2.
  pose proof (Z.div_mod (c / 64 / 64) 64 ltac:(lia)) as Hdm3.
  pose proof (Z.mod_pos_bound (c / 64 / 64) 64 ltac:(lia)) as Hm3.
  replace (c / 4096) with (c / 64 / 64) by (rewrite Z.div_div by lia; reflexivity).
  replace (c / 262144) with (c / 64 / 64 / 64) by (rewrite !Z.div_div by lia; reflexivity).
  generalize dependent (c mod 64). intros r.
  generalize dependent (c / 64 mod 64). intros r2.
  generalize dependent (c / 64 / 64 mod 64). intros r3.
  generalize dependent (c / 64 / 64 / 64). intros q3.
  generalize dependent (c / 64 / 64). intros q2.
  generalize dependent (c / 64). intros q.
  intros.
  destruct (Z.ltb_spec c 0x800).
  { injection H1 as <-. cbn [app utf8_decode]. unfold is_cont.
    rewrite (in_range_false 0 127) by lia.
    rewrite (in_range_true 194 223) by lia.
    rewrite (in_range_true 128 191) by lia.
    replace ((192 + q - 192) * 64 + (128 + r - 128)) with c by lia. done. }
  destruct (Z.ltb_spec c 0x10000).
  { destruct (Z.leb_spec 0xD800 c), (Z.leb_spec c 0xDFFF); simpl in H1; try done;
      injection H1 as <-; cbn [app utf8_decode]; unfold is_cont.
    all: rewrite (in_range_false 0 127) by lia.
    all: rewrite (in_range_false 194 223) by lia.
    all: rewrite (in_range_true 224 239) by lia.
    all: rewrite (in_range_true 128 191 (128 + r)) by lia.
    all: destruct (Z.eqb_spec (224 + q2) 224), (Z.eqb_spec (224 + q2) 237).
    all: rewrite in_range_true by lia; cbn [andb].
    all: replace ((224 + q2 - 224) * 4096 + (128 + r2 - 128) * 64 + (128 + r - 128))
           with c by lia; done. }
  destruct (Z.ltb_spec c 0x110000); [|done].
  injection H1 as <-; cbn [app utf8_decode]; unfold is_cont.
  rewrite (in_range_false 0 127) by lia.
  rewrite (in_range_false 194 223) by lia.
  rewrite (in_range_false 224 239) by lia.
  rewrite (in_range_true 240 244) by lia.
  rewrite (in_range_true 128 191 (128 + r)) by lia.
  rewrite (in_range_true 128 191 (128 + r2)) by lia.
  destruct (Z.eqb_spec (240 + q3) 240), (Z.eqb_spec (240 + q3) 244).
  all: rewrite in_range_true by lia; cbn [andb].
  all: replace ((240 + q3 - 240) * 262144 + (128 + r3 - 128) * 4096
                + (128 + r2 - 128) * 64 + (128 + r - 128)) with c by lia; done.
Qed.
Lemma utf8_encode_total p :
  encodable p -> exists b, utf8_encode p = Ok b.
Proof.
  unfold encodable. induction p as [|c p IH]; simpl; [eauto|].
  intros [Hc Hp]%andb_true_iff.
  apply utf8_encode_cp_scalar in Hc as [bs ->].
  destruct (IH Hp) as [b ->]. eauto.
Qed.

Lemma utf8_encode_encodable p b :
  utf8_encode p = Ok b -> encodable p.
Proof.
  unfold encodable. revert b. induction p as [|c p IH]; simpl; [done|].
  intros b. destruct (utf8_encode_cp c) as [bs|] eqn:Hc; [|done].
  destruct (utf8_encode p) as [rest|]; [|done]. intros _.
  apply andb_true_iff. split; [|by eapply IH].
  apply utf8_encode_cp_scalar. rewrite Hc. eauto.
Qed.

Lemma utf8_encode_octets p b :
  utf8_encode p = Ok b -> Forall octet b.
Proof.
  revert b. induction p as [|c p IH]; simpl; intros b.
  - intros [= <-]. constructor.
  - destruct (utf8_encode_cp c) as [bs|] eqn:Hc; [|done].
    destruct (utf8_encode p) as [rest|]; [|done].
    intros [= <-]. apply Forall_app. split; [by eapply utf8_encode_cp_octets|by apply IH].
Qed.

Lemma utf8_round_trip p b :
  utf8_encode p = Ok b -> utf8_decode b = Ok p.
Proof.
  revert b. induction p as [|c p IH]; simpl; intros b.
  - by intros [= <-].
  - destruct (utf8_encode_cp c) as [bs|] eqn:Hc; [|done].
    destruct (utf8_encode p) as [rest|]; [|done].
    intros [= <-]. rewrite (utf8_decode_encode_cp c bs rest Hc).
    by rewrite (IH rest eq_refl).
Qed.

Lemma utf8_decode_ascii b :
  forallb (in_range 0 0x7F) b = true -> utf8_decode b = Ok b.
Proof.
  induction b as [|x b IH]; [done|].
  cbn [forallb utf8_decode]. intros [Hx Hb]%andb_true_iff.
  rewrite Hx, (IH Hb). done.
Qed.

Lemma hex_digit_value n : 0 <= n < 16 -> hex_value (hex_digit n) = n.
Proof.
  intros Hn. unfold hex_value, hex_digit.
  destruct (Z.ltb_spec n 10).
  - destruct (Z.ltb_spec (48 + n) 65); lia.
  - destruct (Z.ltb_spec (55 + n) 65); lia.
Qed.

Lemma hex_digit_b16 n : 0 <= n < 16 -> is_b16_digit (hex_digit n) = true.
Proof.
  intros Hn. unfold is_b16_digit, hex_digit. apply orb_true_iff.
  destruct (Z.ltb_spec n 10); [left|right]; apply in_range_true; lia.
Qed.

Lemma hex_digit_ascii n : 0 <= n < 16 -> in_range 0 0x7F (hex_digit n) = true.
Proof.
  intros Hn. unfold hex_digit.
  destruct (Z.ltb_spec n 10); apply in_range_true; lia.
Qed.

Lemma octet_nibbles x : octet x -> 0 <= x / 16 < 16 /\ 0 <= x mod 16 < 16.
Proof.
  unfold octet. intros Hx. split; [|apply Z.mod_pos_bound; lia].
  split; [apply Z.div_pos | apply Z.div_lt_upper_bound]; lia.
Qed.

Lemma b16encode_ascii b :
  Forall octet b -> forallb (in_range 0 0x7F) (b16encode b) = true.
Proof.
  induction 1 as [|x b Hx _ IH]; [done|].
  destruct (octet_nibbles x Hx) as [Hh Hl].
  cbn. rewrite !hex_digit_ascii by done. exact IH.
Qed.

Lemma b16encode_alphabet b :
  Forall octet b -> forallb is_b16_digit (b16encode b) = true.
Proof.
  induction 1 as [|x b Hx _ IH]; [done|].
  destruct (octet_nibbles x Hx) as [Hh Hl].
  cbn. rewrite !hex_digit_b16 by done. exact IH.
Qed.

Lemma unhexlify_b16encode b :
  Forall octet b -> unhexlify (b16encode b) = Ok b.
Proof.
  induction 1 as [|x b Hx _ IH]; [done|].
  destruct (octet_nibbles x Hx) as [Hh Hl].
  cbn [b16encode flat_map app unhexlify].
  change (flat_map _ b) with (b16encode b). rewrite IH.
  rewrite !hex_digit_value by done.
  f_equal. f_equal. symmetry. apply Z_div_mod_eq_full.
Qed.

Lemma b16decode_b16encode b :
  Forall octet b -> b16decode (b16encode b) = Ok b.
Proof.
  intros Hb. unfold b16decode, ascii_encode.
  rewrite b16encode_ascii, b16encode_alphabet by done.
  by apply unhexlify_b16encode.
Qed.

End CodecFacts.

(** ** Escaped project names *)

Lemma escape_spec p b :
  Codec.utf8_encode p = Ok b -> _escape_project_name p = Ok (Codec.b16encode b).
Proof.
  intros Hb. unfold _escape_project_name. rewrite Hb. simpl.
  apply utf8_decode_ascii, b16encode_ascii. by eapply utf8_encode_octets.
Qed.

Lemma escape_alphabet p t :
  _escape_project_name p = Ok t -> forallb Codec.is_b16_digit t = true.
Proof.
  unfold _escape_project_name.
  destruct (Codec.utf8_encode p) as [b|] eqn:Hb; [|done]. simpl.
  rewrite utf8_decode_ascii by (apply b16encode_ascii; by eapply utf8_encode_octets).
  intros [= <-]. apply b16encode_alphabet. by eapply utf8_encode_octets.
Qed.

Lemma escape_total p :
  encodable p -> exists t, _escape_project_name p = Ok t.
Proof.
  intros [b Hb]%utf8_encode_total. rewrite (escape_spec p b Hb). eauto.
Qed.

Lemma unescape_escape p t :
  _escape_project_name p = Ok t -> _unescape_project_name t = Ok p.
Proof.
  unfold _escape_project_name.
  destruct (Codec.utf8_encode p) as [b|] eqn:Hb; [|done]. simpl.
  rewrite utf8_decode_ascii by (apply b16encode_ascii; by eapply utf8_encode_octets).
  intros [= <-]. unfold _unescape_project_name.
  rewrite b16decode_b16encode by (by eapply utf8_encode_octets). simpl.
  by apply utf8_round_trip.
Qed.

(** C1. Escaping a UTF-8-encodable name succeeds, unescaping the token gives
    the name back exactly, and no other name escapes to the same token. *)
Theorem escape_project_name_round_trip (p : str) :
  encodable p ->
  exists t, _escape_project_name p = Ok t
    /\ _unescape_project_name t = Ok p
    /\ forall q, _escape_project_name q = Ok t -> q = p.
Proof.
  intros [t Ht]%escape_total. exists t. split; [done|].
  split; [by apply unescape_escape|].
  intros q Hq. apply unescape_escape in Ht, Hq. congruence.
Qed.

Example escape_proj_a :
  _escape_project_name (py "./proj-a") = Ok (py "2E2F70726F6A2D61").
Proof. reflexivity. Qed.

Example escape_non_ascii :
  _escape_project_name [0xE9; 0x20AC; 0x1F600] = Ok (py "C3A9E282ACF09F9880").
Proof. reflexivity. Qed.

Example escape_lone_surrogate :
  _escape_project_name [0xD800] = Raise UnicodeEncodeError.
Proof. reflexivity. Qed.

Lemma escape_project_name_round_trip_witness :
  encodable (py "./proj-a") /\
  exists t, _escape_project_name (py "./proj-a") = Ok t
    /\ _unescape_project_name t = Ok (py "./proj-a")
    /\ forall q, _escape_project_name q = Ok t -> q = py "./proj-a".
Proof.
  split; [reflexivity|].
  apply (escape_project_name_round_trip (py "./proj-a")). reflexivity.
Defined.

(** ** [str] and path facts *)

Section StrFacts.
Import Str.

Lemma startswith_app p x : startswith (p ++ x) p = true.
Proof. induction p as [|c p IH]; [done|]. simpl. by rewrite Z.eqb_refl. Qed.

Lemma startswith_inv s p : startswith s p = true -> s = p ++ drop (length p) s.
Proof.
  revert s. induction p as [|c p IH]; intros [|x s]; simpl; try done.
  intros [->%Z.eqb_eq Hs]%andb_true_iff. f_equal. by apply IH.
Qed.

Lemma split1_no_sep sep s : sep ∉ s -> split1 sep s = [s].
Proof.
  induction s as [|c s IH]; [done|].
  intros [Hc Hs]%not_elem_of_cons. simpl.
  destruct (Z.eqb_spec c sep); [congruence|]. by rewrite IH.
Qed.

Lemma split1_at_sep sep s r : sep ∉ s -> split1 sep (s ++ sep :: r) = [s; r].
Proof.
  induction s as [|c s IH]; simpl.
  - intros _. by rewrite Z.eqb_refl.
  - intros [Hc Hs]%not_elem_of_cons.
    destruct (Z.eqb_spec c sep); [congruence|]. by rewrite IH.
Qed.

Lemma split1_decompose sep s :
  exists tok : str, (sep ∉ tok) /\ (s = tok \/ exists r, s = tok ++ sep :: r).
Proof.
  induction s as [|c s (tok & Htok & IH)].
  - exists []. split; [apply not_elem_of_nil|by left].
  - destruct (decide (c = sep)) as [->|Hc].
    + exists []. split; [apply not_elem_of_nil|right; by exists s].
    + exists (c :: tok). split; [by apply not_elem_of_cons|].
      destruct IH as [->|[r ->]]; [by left|right; by exists r].
Qed.

Lemma split_no_sep sep s w : w ∈ split sep s -> sep ∉ w.
Proof.
  revert w. induction s as [|c s IH]; simpl; intros w.
  - intros ->%list_elem_of_singleton. apply not_elem_of_nil.
  - destruct (Z.eqb_spec c sep) as [->|Hc].
    + intros [->|Hw]%elem_of_cons; [apply not_elem_of_nil|by apply IH].
    + destruct (split sep s) as [|w0 ws] eqn:Hsp.
      * intros ->%list_elem_of_singleton.
        apply not_elem_of_cons. split; [congruence|apply not_elem_of_nil].
      * intros [->|Hw]%elem_of_cons.
        -- apply not_elem_of_cons. split; [congruence|]. apply IH. by left.
        -- apply IH. by right.
Qed.

Lemma rfind_from_app c s1 s2 i found :
  rfind_from c (s1 ++ s2) i found
  = rfind_from c s2 (i + Z.of_nat (length s1)) (rfind_from c s1 i found).
Proof.
  revert i found. induction s1 as [|x s1 IH]; intros i found; simpl length.
  - simpl. f_equal. lia.
  - cbn [app rfind_from]. rewrite IH. f_equal. lia.
Qed.

Lemma rfind_from_absent c s i found : c ∉ s -> rfind_from c s i found = found.
Proof.
  revert i found. induction s as [|x s IH]; intros i found; [done|].
  intros [Hx Hs]%not_elem_of_cons. simpl.
  destruct (Z.eqb_spec x c); [congruence|]. by apply IH.
Qed.

Lemma rfind_last_sep c d b : c ∉ b -> rfind c (d ++ c :: b) = Z.of_nat (length d).
Proof.
  intros Hb. unfold rfind. rewrite rfind_from_app. simpl.
  rewrite Z.eqb_refl. by apply rfind_from_absent.
Qed.

Lemma rstrip_keep c s x : x <> c -> rstrip c (s ++ [x]) = s ++ [x].
Proof.
  intros Hx. induction s as [|y s IH]; simpl.
  - destruct (Z.eqb_spec x c); [congruence|done].
  - rewrite IH. by destruct s.
Qed.

Lemma rstrip_snoc_sep c s : rstrip c (s ++ [c]) = rstrip c s.
Proof.
  induction s as [|y s IH]; simpl.
  - by rewrite Z.eqb_refl.
  - by rewrite IH.
Qed.

End StrFacts.

Section PathFacts.
Import Posixpath.

(** The directory part of [dir/base] is [dir]: the file's own name plays
    no part in it. *)
Lemma dirname_dir_base dir base :
  dir <> [] -> last dir <> Some slash -> slash ∉ base ->
  dirname (dir ++ slash :: base) = dir.
Proof.
  intros Hne Hlast Hbase. unfold dirname.
  rewrite rfind_last_sep by done.
  replace (Z.to_nat (Z.of_nat (length dir) + 1)) with (length (dir ++ [slash]))
    by (rewrite length_app; simpl; lia).
  replace (dir ++ slash :: base) with ((dir ++ [slash]) ++ base)
    by (by rewrite <- app_assoc).
  rewrite take_app_length.
  destruct dir as [|x dir _] using rev_ind; [done|].
  rewrite last_snoc in Hlast.
  assert (x <> slash) as Hx by congruence.
  rewrite bool_decide_eq_false_2 by (by destruct dir).
  rewrite bool_decide_eq_false_2.
  - simpl. rewrite rstrip_snoc_sep. by apply rstrip_keep.
  - intros Heq.
    assert (x ∈ replicate (length ((dir ++ [x]) ++ [slash])) slash) as Hin.
    { rewrite <- Heq. set_solver. }
    apply elem_of_replicate in Hin as [? _]. done.
Qed.

Lemma join2_nonempty path b : path <> [] -> join2 path b <> [].
Proof.
  intros Hp. unfold join2.
  destruct b as [|c b]; simpl.
  - destruct (_ || _); by rewrite app_nil_r || by destruct path.
  - destruct (c =? slash); [done|]. destruct (_ || _); by destruct path.
Qed.

Lemma join2_head path b c :
  head path = Some c -> head b <> Some slash -> head (join2 path b) = Some c.
Proof.
  intros Hp Hb. unfold join2.
  destruct b as [|x b]; simpl.
  - destruct path; [done|]. by destruct (_ || _).
  - destruct (Z.eqb_spec x slash) as [->|_]; [done|].
    destruct path; [done|]. by destruct (_ || _).
Qed.

Lemma join_head a p c :
  head a = Some c -> Forall (fun b => head b <> Some slash) p ->
  head (join a p) = Some c.
Proof.
  unfold join. intros Ha Hp. revert a Ha.
  induction Hp as [|b p Hb _ IH]; intros a Ha; [done|].
  simpl. apply IH. by apply join2_head.
Qed.

Lemma component_head w : component w -> exists c, head w = Some c /\ c <> slash.
Proof.
  intros [Hne Hs]. destruct w as [|c w]; [done|]. exists c. split; [done|].
  intros ->. apply Hs. by left.
Qed.

Lemma components_of_path s :
  Forall component (filter (fun x : str => x <> []) (Str.split slash s)).
Proof.
  apply Forall_forall. intros w [Hne Hw]%list_elem_of_filter.
  split; [done|]. by eapply split_no_sep.
Qed.

(** [relpath] answers with a path that is not empty and does not start
    with a slash. *)
Lemma relpath_head cwd path r :
  relpath cwd path = Ok r -> exists c, head r = Some c /\ c <> slash.
Proof.
  unfold relpath. case_bool_decide; [done|].
  set (sl := filter _ (Str.split slash (abspath cwd [dot]))).
  set (pl := filter _ (Str.split slash (abspath cwd path))).
  assert (Forall component (replicate (length sl - commonprefix_len sl pl) [dot; dot]
                            ++ drop (commonprefix_len sl pl) pl)) as Hall.
  { apply Forall_app. split.
    - apply Forall_replicate. split; [done|].
      rewrite !not_elem_of_cons. repeat split; [done..|apply not_elem_of_nil].
    - apply Forall_drop, components_of_path. }
  destruct (_ ++ _) as [|a p].
  - intros [= <-]. exists dot. done.
  - intros [= <-]. apply Forall_cons in Hall as [Ha Hp].
    destruct (component_head a Ha) as (c & Hc & Hcs). exists c. split; [|done].
    apply join_head; [done|].
    eapply Forall_impl; [exact Hp|]. intros b Hb.
    destruct (component_head b Hb) as (c' & -> & ?). congruence.
Qed.

End PathFacts.

Example posixpath_examples :
  Posixpath.relpath (py "/home/u/work") (py "proj-a") = Ok (py "proj-a")
  /\ Posixpath.relpath (py "/home/u/work") (py "/home/u/other/x") = Ok (py "../other/x")
  /\ Posixpath.relpath (py "/home/u/work") (py "./") = Ok (py ".")
  /\ Posixpath.dirname (py "./proj-a/MODEL") = py "./proj-a"
  /\ Posixpath.dirname (py "/MODEL") = py "/"
  /\ Posixpath.dirname (py "a//MODEL") = py "a"
  /\ Posixpath.basename (py "demo/MODEL") = py "MODEL"
  /\ Posixpath.normpath (py "//a/./b/../../../c/") = py "//c"
  /\ Posixpath.normpath (py "a/../../c/") = py "../c"
  /\ Posixpath.join (py "/site") [py "demo/MODEL"] = py "/site/demo/MODEL"
  /\ PkgResources.safe_name (py "a_b  c.d") = py "a-b-c.d".
Proof. vm_compute. repeat split; reflexivity. Qed.

(** ** Namespace membership *)

Lemma is_project_name_member_prefixed (tok : str) (rest : option str) :
  slash ∉ tok ->
  is_project_name_member (modelfile_prefix ++ tok ++ remainder rest)
  = rbind (_unescape_project_name tok)
      (fun p => Ok (yes, Some (p ++ remainder rest))).
Proof.
  intros Htok. unfold is_project_name_member.
  rewrite startswith_app.
  change 11%nat with (length modelfile_prefix). rewrite drop_app_length.
  destruct rest as [r|]; simpl remainder.
  - rewrite split1_at_sep by done. reflexivity.
  - rewrite app_nil_r, split1_no_sep by done. reflexivity.
Qed.

Lemma prefixed_decompose (name : str) :
  Str.startswith name modelfile_prefix = true ->
  exists tok rest, (slash ∉ tok) /\ name = modelfile_prefix ++ tok ++ remainder rest.
Proof.
  intros H%startswith_inv.
  destruct (split1_decompose slash (drop (length modelfile_prefix) name))
    as (tok & Htok & [Hd|[r Hd]]).
  - exists tok, None. split; [done|]. simpl. by rewrite app_nil_r, <- Hd.
  - exists tok, (Some r). split; [done|]. simpl. by rewrite <- Hd.
Qed.

(** C2, as the code has it. A name [".modelfile." + tok + rest], where
    [tok] holds no slash and [rest] is empty or a slash and a remainder, is
    a member with the project name [unescape(tok) + rest] when [tok] is a
    valid escaped token, and raises the decoding error of [tok] otherwise;
    every name with the prefix has that shape. A name without the prefix is
    not a member and has no recovered name. *)
Theorem is_project_name_member_spec (name : str) :
  (Str.startswith name modelfile_prefix = true ->
   exists tok rest,
     (slash ∉ tok) /\ name = modelfile_prefix ++ tok ++ remainder rest
     /\ is_project_name_member name
        = match _unescape_project_name tok with
          | Ok p => Ok (yes, Some (p ++ remainder rest))
          | Raise e => Raise e
          end)
  /\ (Str.startswith name modelfile_prefix = false ->
      is_project_name_member name = Ok (no, None)).
Proof.
  split.
  - intros (tok & rest & Htok & ->)%prefixed_decompose.
    exists tok, rest. split; [done|]. split; [done|].
    by rewrite is_project_name_member_prefixed.
  - intros H. unfold is_project_name_member. by rewrite H.
Qed.

Lemma is_project_name_member_spec_witness :
  (exists tok rest,
     (slash ∉ tok)
     /\ py ".modelfile.2E2F70726F6A2D61/net" = modelfile_prefix ++ tok ++ remainder rest
     /\ is_project_name_member (py ".modelfile.2E2F70726F6A2D61/net")
        = match _unescape_project_name tok with
          | Ok p => Ok (yes, Some (p ++ remainder rest))
          | Raise e => Raise e
          end)
  /\ is_project_name_member (py "guild.keras") = Ok (no, None).
Proof.
  split.
  - apply (proj1 (is_project_name_member_spec (py ".modelfile.2E2F70726F6A2D61/net"))).
    reflexivity.
  - apply (proj2 (is_project_name_member_spec (py "guild.keras"))).
    reflexivity.
Defined.

(** C2 as stated fails: a name with the prefix whose token is not
    upper-case base16 is answered with an exception, not with [yes]. *)
Lemma is_project_name_member_malformed_token :
  Str.startswith (py ".modelfile.zz") modelfile_prefix = true
  /\ is_project_name_member (py ".modelfile.zz") = Raise BinasciiError
  /\ ~ exists p, is_project_name_member (py ".modelfile.zz") = Ok (yes, p).
Proof.
  split; [reflexivity|]. split; [reflexivity|].
  intros [p Hp]. vm_compute in Hp. discriminate.
Qed.

(** What an escaped name gives back: a project name built from an escaped
    path is a member, and the path is recovered. *)
Lemma is_project_name_member_escaped (p t : str) (rest : option str) :
  _escape_project_name p = Ok t ->
  is_project_name_member (modelfile_prefix ++ t ++ remainder rest)
  = Ok (yes, Some (p ++ remainder rest)).
Proof.
  intros Ht.
  assert (slash ∉ t) as Hs.
  { intros Hin. pose proof (escape_alphabet p t Ht) as Hal.
    rewrite forallb_forall in Hal. apply list_elem_of_In, Hal in Hin.
    vm_compute in Hin. discriminate. }
  rewrite is_project_name_member_prefixed by done.
  by rewrite (unescape_escape p t Ht).
Qed.

(** ** File-backed distributions *)

Lemma safe_name_safe s :
  forallb PkgResources.is_safe_char s = true -> PkgResources.safe_name s = s.
Proof.
  induction s as [|c s IH]; [done|]. simpl.
  intros [-> Hs]%andb_true_iff. by rewrite IH.
Qed.

Lemma b16_digit_safe c :
  Codec.is_b16_digit c = true -> PkgResources.is_safe_char c = true.
Proof.
  unfold Codec.is_b16_digit, PkgResources.is_safe_char.
  rewrite !orb_true_iff, !in_range_spec, Z.eqb_eq. lia.
Qed.

(** With a working directory to answer, [relpath] is a function of it
    and the path. *)
Lemma relpath_in_Ok cwd path :
  Posixpath.relpath_in (Ok cwd) path = Posixpath.relpath cwd path.
Proof.
  unfold Posixpath.relpath_in, Posixpath.relpath. by case_bool_decide.
Qed.

Lemma modelfile_project_name_spec cwd modelfile :
  _modelfile_project_name (Ok cwd) modelfile
  = rbind (spec_relative_dir cwd (mf_src modelfile))
      (fun p => rbind (_escape_project_name p)
                  (fun t => Ok (modelfile_prefix ++ t))).
Proof.
  unfold _modelfile_project_name, spec_relative_dir. rewrite relpath_in_Ok.
  destruct (Posixpath.relpath _ _) as [r|e] eqn:Hr; [|done]. simpl.
  destruct (relpath_head _ _ _ Hr) as (c & Hc & Hcs).
  destruct r as [|c' r]; [done|]. injection Hc as ->.
  destruct (Z.eqb_spec c dot) as [->|Hd]; simpl; [done|].
  unfold Posixpath.join, Posixpath.join2. simpl.
  destruct (Z.eqb_spec c slash); [done|]. reflexivity.
Qed.

Lemma spec_relative_dir_dotted cwd f p :
  spec_relative_dir cwd f = Ok p -> Str.startswith p [dot] = true.
Proof.
  unfold spec_relative_dir.
  destruct (Posixpath.relpath _ _) as [r|e]; [|done]. cbn [rbind].
  destruct (Str.startswith r [dot]) eqn:Hs; intros [= <-]; [done|].
  reflexivity.
Qed.

(** C3. A file-backed distribution has the project name
    [".modelfile." + escape(p)], [p] being the directory of the definition
    file relative to the working directory, marked with [./] unless it
    starts with a dot already; such a distribution exists whenever [p] can
    be escaped; and for a file [dir/base] the path [p] is computed from
    [dir] alone. *)
Theorem modelfile_distribution_project_name (cwd : str) (modelfile : Modelfile) :
  (forall d, ModelfileDistribution_init (Ok cwd) modelfile = Ok d ->
     exists p t,
       spec_relative_dir cwd (mf_src modelfile) = Ok p
       /\ Str.startswith p [dot] = true
       /\ _escape_project_name p = Ok t
       /\ mfd_project_name d = modelfile_prefix ++ t)
  /\ (forall p, spec_relative_dir cwd (mf_src modelfile) = Ok p -> encodable p ->
      exists d, ModelfileDistribution_init (Ok cwd) modelfile = Ok d)
  /\ (forall dir base,
        mf_src modelfile = dir ++ slash :: base ->
        dir <> [] -> last dir <> Some slash -> (slash ∉ base) ->
        spec_relative_dir cwd (mf_src modelfile)
        = rbind (Posixpath.relpath cwd dir)
            (fun r => Ok (if Str.startswith r [dot] then r else [dot; slash] ++ r))).
Proof.
  split; [|split].
  - intros d. unfold ModelfileDistribution_init.
    rewrite modelfile_project_name_spec.
    destruct (spec_relative_dir _ _) as [p|e] eqn:Hp; [|done]. cbn [rbind].
    destruct (_escape_project_name p) as [t|e] eqn:Ht; [|done]. cbn [rbind].
    intros Hd. exists p, t. split; [done|].
    split; [by eapply spec_relative_dir_dotted|]. split; [done|].
    apply (f_equal (fun r => match r with
                             | Ok d => mfd_project_name d
                             | Raise _ => []
                             end)) in Hd.
    cbv beta iota in Hd. cbn [mfd_project_name] in Hd. rewrite <- Hd.
    rewrite bool_decide_eq_false_2 by done.
    apply safe_name_safe. rewrite forallb_app. apply andb_true_iff. split; [done|].
    pose proof (escape_alphabet p t Ht) as Hal.
    rewrite forallb_forall in Hal |- *. intros x Hx. by apply b16_digit_safe, Hal.
  - intros p Hp [t Ht]%escape_total. unfold ModelfileDistribution_init.
    rewrite modelfile_project_name_spec, Hp. cbn [rbind]. rewrite Ht. cbn [rbind]. eauto.
  - intros dir base -> Hne Hlast Hbase. unfold spec_relative_dir.
    by rewrite dirname_dir_base.
Qed.

Lemma modelfile_distribution_project_name_witness :
  (exists d, ModelfileDistribution_init (Ok example_cwd) example_modelfile = Ok d
     /\ exists p t,
          spec_relative_dir example_cwd (mf_src example_modelfile) = Ok p
          /\ Str.startswith p [dot] = true
          /\ _escape_project_name p = Ok t
          /\ mfd_project_name d = modelfile_prefix ++ t)
  /\ spec_relative_dir example_cwd (mf_src example_modelfile)
     = rbind (Posixpath.relpath example_cwd (py "/home/u/work/proj-a"))
         (fun r => Ok (if Str.startswith r [dot] then r else [dot; slash] ++ r)).
Proof.
  pose proof (modelfile_distribution_project_name example_cwd example_modelfile)
    as (Hname & Hinit & Hdir).
  split.
  - destruct (Hinit (py "./proj-a")) as [d Hd]; [reflexivity..|].
    exists d. split; [exact Hd|]. exact (Hname d Hd).
  - apply (Hdir (py "/home/u/work/proj-a") (py "MODEL")).
    + reflexivity.
    + discriminate.
    + vm_compute. discriminate.
    + refine (bool_decide_unpack _ _). vm_compute. exact I.
Defined.

Example example_project_name :
  _modelfile_project_name (Ok example_cwd) example_modelfile
  = Ok (py ".modelfile.2E2F70726F6A2D61").
Proof. vm_compute. reflexivity. Qed.

Example project_name_hidden_dir :
  _modelfile_project_name (Ok example_cwd)
    {| mf_src := py ".hidden/MODEL"; mf_models := [] |}
  = rbind (_escape_project_name (py ".hidden"))
      (fun t => Ok (modelfile_prefix ++ t)).
Proof. vm_compute. reflexivity. Qed.

Example project_name_bare_file :
  _modelfile_project_name (Ok example_cwd) {| mf_src := py "MODEL"; mf_models := [] |}
  = Raise (ValueError (py "no path specified")).
Proof. vm_compute. reflexivity. Qed.

(** ** Loading the definitions of a package *)

Section ModelFacts.
Variable host : Host.

Lemma log_loads_nil s : log_loads host [] s = s.
Proof. destruct s. unfold log_loads. simpl. by rewrite !app_nil_r. Qed.

Lemma try_acc_modeldefs_spec path acc s :
  _try_acc_modeldefs host path acc s
  = (Ok (acc ++ loaded host [path]), log_loads host [path] s).
Proof.
  unfold _try_acc_modeldefs, try_except_else, modelfile_from_file, bind, io,
    lift, logging_warning, ret, loaded, log_loads, load_warnings.
  simpl. destruct (from_file host path) as [models|e]; simpl.
  - by rewrite !app_nil_r.
  - by rewrite !app_nil_r.
Qed.

Lemma log_loads_app p1 p2 s :
  log_loads host p2 (log_loads host p1 s) = log_loads host (p1 ++ p2) s.
Proof.
  unfold log_loads, load_warnings. simpl.
  by rewrite flat_map_app, map_app, !app_assoc.
Qed.

Lemma load_dist_modeldefs_loop_spec dist record acc s :
  _load_dist_modeldefs_loop host dist record acc s
  = (Ok (acc ++ loaded host (matched_paths host dist record)),
     log_loads host (matched_paths host dist record) s).
Proof.
  revert acc s. induction record as [|line record IH]; intros acc s.
  - simpl. unfold ret. by rewrite app_nil_r, log_loads_nil.
  - cbn [_load_dist_modeldefs_loop matched_paths flat_map].
    case_bool_decide.
    + unfold bind at 1. rewrite try_acc_modeldefs_spec, IH.
      fold (matched_paths host dist record).
      rewrite log_loads_app. unfold loaded at 3.
      by rewrite flat_map_app, app_assoc.
    + rewrite IH. done.
Qed.

Lemma load_dist_modeldefs_record dist record s :
  pd_metadata_lines dist (py "RECORD") = Ok record ->
  _load_dist_modeldefs host dist s
  = (Ok (loaded host (matched_paths host dist record)),
     log_loads host (matched_paths host dist record)
       (io (GetMetadataLines (pd_id dist) (py "RECORD")) s).2).
Proof.
  intros Hrec.
  unfold _load_dist_modeldefs, try_except_else, get_metadata_lines, bind, lift.
  cbn [io fst snd]. rewrite Hrec.
  by rewrite load_dist_modeldefs_loop_spec.
Qed.

Lemma load_dist_modeldefs_ioerror dist s :
  pd_metadata_lines dist (py "RECORD") = Raise IOError ->
  _load_dist_modeldefs host dist s
  = (Ok [],
     (logging_warning (MissingRecord (Distribution_str dist))
        (io (GetMetadataLines (pd_id dist) (py "RECORD")) s).2).2).
Proof.
  intros Hrec.
  unfold _load_dist_modeldefs, try_except_else, get_metadata_lines, bind, lift.
  cbn [io fst snd]. rewrite Hrec. reflexivity.
Qed.

Lemma elem_of_loaded m paths :
  m ∈ loaded host paths <->
  exists p models, p ∈ paths /\ from_file host p = Ok models /\ m ∈ mf_models models.
Proof.
  unfold loaded. rewrite list_elem_of_In, in_flat_map. split.
  - intros (p & Hp & Hm). destruct (from_file host p) as [models|e] eqn:Hf.
    + exists p, models. by rewrite !list_elem_of_In.
    + destruct Hm.
  - intros (p & models & Hp & Hf & Hm). exists p. rewrite Hf.
    by rewrite <- !list_elem_of_In.
Qed.

Lemma elem_of_load_warnings w paths :
  w ∈ load_warnings host paths <->
  exists p e, p ∈ paths /\ from_file host p = Raise e /\ w = UnableToLoad p e.
Proof.
  unfold load_warnings. rewrite list_elem_of_In, in_flat_map. split.
  - intros (p & Hp & Hw). destruct (from_file host p) as [models|e] eqn:Hf.
    + destruct Hw.
    + destruct Hw as [<-|[]]. exists p, e. by rewrite list_elem_of_In.
  - intros (p & e & Hp & Hf & ->). exists p. rewrite Hf.
    split; [by apply list_elem_of_In|by left].
Qed.

(** C4. Loading the definitions of a package never raises on an
    unreadable manifest or on a definition file that does not parse. With
    an [IOError] from the manifest the result is empty and one warning is
    logged. Otherwise the result holds, in manifest order, the definitions
    of every matched file that parses, and exactly one warning is logged
    for each matched file that does not. *)
Theorem load_dist_modeldefs_degrades (dist : PackageDistribution) (s : state) :
  (pd_metadata_lines dist (py "RECORD") = Raise IOError ->
   exists s', _load_dist_modeldefs host dist s = (Ok [], s')
     /\ st_warnings s' = st_warnings s ++ [MissingRecord (Distribution_str dist)])
  /\ (forall record, pd_metadata_lines dist (py "RECORD") = Ok record ->
      let matched := matched_paths host dist record in
      exists modeldefs s',
        _load_dist_modeldefs host dist s = (Ok modeldefs, s')
        /\ modeldefs = loaded host matched
        /\ st_warnings s' = st_warnings s ++ load_warnings host matched
        /\ (forall p models m,
              p ∈ matched -> from_file host p = Ok models ->
              m ∈ mf_models models -> m ∈ modeldefs)
        /\ (forall p e,
              p ∈ matched -> from_file host p = Raise e ->
              UnableToLoad p e ∈ st_warnings s')).
Proof.
  split.
  - intros Hrec. eexists. split; [by apply load_dist_modeldefs_ioerror|done].
  - intros record Hrec matched. eexists _, _.
    split; [by apply load_dist_modeldefs_record|].
    split; [done|]. split; [done|]. split.
    + intros p models m Hp Hf Hm. apply elem_of_loaded. eauto.
    + intros p e Hp Hf. cbn [log_loads st_warnings].
      apply elem_of_app. right. apply elem_of_load_warnings. eauto.
Qed.

End ModelFacts.

Lemma load_dist_modeldefs_degrades_witness :
  (exists s', _load_dist_modeldefs example_host example_dist_no_record initial_state
              = (Ok [], s')
     /\ st_warnings s' = [MissingRecord (py "gpkg.bare [unknown version]")])
  /\ (exists modeldefs s',
        _load_dist_modeldefs example_host example_dist initial_state = (Ok modeldefs, s')
        /\ modeldefs = [net; debug_net; net]
        /\ st_warnings s'
           = [UnableToLoad (py "/site/demo/broken/MODEL")
                (OtherError (py "invalid modelfile"))]
        /\ net ∈ modeldefs
        /\ UnableToLoad (py "/site/demo/broken/MODEL")
             (OtherError (py "invalid modelfile")) ∈ st_warnings s').
Proof.
  split.
  - destruct (proj1 (load_dist_modeldefs_degrades example_host
                       example_dist_no_record initial_state) eq_refl)
      as (s' & Hs' & Hw).
    exists s'. split; [exact Hs'|]. rewrite Hw. reflexivity.
  - destruct (proj2 (load_dist_modeldefs_degrades example_host
                       example_dist initial_state) _ eq_refl)
      as (modeldefs & s' & Hs' & Hdefs & Hw & Hgood & Hbad).
    exists modeldefs, s'. split; [exact Hs'|].
    split; [rewrite Hdefs; vm_compute; reflexivity|].
    split; [rewrite Hw; vm_compute; reflexivity|].
    split.
    + apply (Hgood (py "/site/demo/extra/MODELS")
               {| mf_src := py "/site/demo/extra/MODELS"; mf_models := [net] |}).
      * refine (bool_decide_unpack _ _). vm_compute. exact I.
      * vm_compute. reflexivity.
      * apply list_elem_of_singleton. reflexivity.
    + apply Hbad.
      * refine (bool_decide_unpack _ _). vm_compute. exact I.
      * vm_compute. reflexivity.
Defined.

(** ** Resolving a name within one distribution *)

Lemma str_eqb_eq a b : str_eqb a b = true <-> a = b.
Proof. unfold str_eqb. apply bool_decide_eq_true. Qed.

Lemma str_eqb_neq a b : str_eqb a b = false <-> a <> b.
Proof. unfold str_eqb. apply bool_decide_eq_false. Qed.

Lemma first_named_Some name l m :
  first_named name l = Some m <-> first_match name l m.
Proof.
  unfold first_match. induction l as [|x l IH]; simpl.
  - split; [done|]. intros (l1 & l2 & Hl & _). by destruct l1.
  - destruct (str_eqb (md_name x) name) eqn:Hx.
    + apply str_eqb_eq in Hx. split.
      * intros [= <-]. exists [], l. by repeat split.
      * intros (l1 & l2 & Hl & Hm & Hl1). destruct l1 as [|y l1].
        -- by injection Hl as ->.
        -- injection Hl as <- _. by apply Forall_cons in Hl1 as [? _].
    + apply str_eqb_neq in Hx. rewrite IH. split.
      * intros (l1 & l2 & -> & Hm & Hl1). exists (x :: l1), l2.
        split; [done|]. split; [done|]. by constructor.
      * intros (l1 & l2 & Hl & Hm & Hl1). destruct l1 as [|y l1].
        -- injection Hl as -> _. done.
        -- injection Hl as <- ->. apply Forall_cons in Hl1 as [_ Hl1]. eauto.
Qed.

Lemma first_named_None name l :
  first_named name l = None <-> Forall (fun x => md_name x <> name) l.
Proof.
  induction l as [|x l IH]; simpl.
  - split; [constructor|done].
  - destruct (str_eqb (md_name x) name) eqn:Hx.
    + apply str_eqb_eq in Hx. split; [done|].
      by intros [? _]%Forall_cons.
    + apply str_eqb_neq in Hx. rewrite IH. split.
      * by constructor.
      * by intros [_ ?]%Forall_cons.
Qed.

Section ResolveFacts.
Variable host : Host.

(** C5. [get_model] answers with the first definition of the file that
    bears the name and raises [ValueError] exactly when none does; a name
    resolved against the definitions loaded for a package is answered the
    same way. *)
Theorem modeldef_first_match (name : str) :
  (forall (d : ModelfileDistribution) m,
     get_model d name = Ok m <-> first_match name (mf_models (mfd_modelfile d)) m)
  /\ (forall d : ModelfileDistribution,
        get_model d name = Raise (ValueError name)
        <-> Forall (fun x => md_name x <> name) (mf_models (mfd_modelfile d)))
  /\ (forall (d : PackageDistribution) s modeldefs s',
        _ensure_dist_modeldefs host d s = (Ok modeldefs, s') ->
        (forall m, _modeldef_for_dist host name (PackageDist d) s = (Ok m, s')
                   <-> first_match name modeldefs m)
        /\ (_modeldef_for_dist host name (PackageDist d) s
            = (Raise (ValueError (py "undefined model '" ++ name ++ py "'")), s')
            <-> Forall (fun x => md_name x <> name) modeldefs)).
Proof.
  split; [|split].
  - intros d m. rewrite <- first_named_Some. unfold get_model.
    destruct (first_named _ _); split; congruence.
  - intros d. rewrite <- first_named_None. unfold get_model.
    destruct (first_named _ _); split; congruence.
  - intros d s modeldefs s' Hens.
    unfold _modeldef_for_dist, bind. rewrite Hens.
    rewrite <- first_named_None.
    split; [intros m; rewrite <- first_named_Some|];
      destruct (first_named name modeldefs); unfold ret, raise;
      split; congruence.
Qed.

(** While the attribute [_modelefs] is not set, every call loads the
    definitions anew, whatever [_modeldefs] holds, and leaves [_modelefs]
    unset. *)
Lemma ensure_dist_modeldefs_always_loads (dist : PackageDistribution) (s : state) :
  st_attrs s !! (pd_id dist, "_modelefs") = None ->
  _ensure_dist_modeldefs host dist s
  = match _load_dist_modeldefs host dist s with
    | (Ok modeldefs, s') => (Ok modeldefs, (setattr dist "_modeldefs" modeldefs s').2)
    | (Raise e, s') => (Raise e, s')
    end.
Proof.
  intros Hno. unfold _ensure_dist_modeldefs, bind, hasattr.
  rewrite Hno. rewrite bool_decide_eq_false_2 by (by intros [? ?]).
  cbn [negb]. destruct (_load_dist_modeldefs host dist s) as [[modeldefs|e] s'].
  - unfold setattr, getattr, ret. cbn [st_attrs].
    by rewrite lookup_insert_eq.
  - done.
Qed.

End ResolveFacts.

Lemma modeldef_first_match_witness :
  get_model example_file_dist (py "debug-net") = Ok debug_net
  /\ first_match (py "debug-net") (mf_models (mfd_modelfile example_file_dist)) debug_net
  /\ get_model example_file_dist (py "absent") = Raise (ValueError (py "absent"))
  /\ exists s',
       _modeldef_for_dist example_host (py "net") (PackageDist example_dist) initial_state
       = (Ok net, s')
       /\ first_match (py "net") [net; debug_net; net] net.
Proof.
  pose proof (modeldef_first_match example_host (py "debug-net")) as (Hget & _ & _).
  pose proof (modeldef_first_match example_host (py "absent")) as (_ & Hnone & _).
  pose proof (modeldef_first_match example_host (py "net")) as (_ & _ & Hpkg).
  assert (first_match (py "debug-net")
            (mf_models (mfd_modelfile example_file_dist)) debug_net) as Hfm.
  { exists [net], []. split; [reflexivity|]. split; [reflexivity|].
    constructor; [|constructor]. vm_compute. discriminate. }
  split; [apply Hget, Hfm|]. split; [exact Hfm|].
  split.
  { apply Hnone. repeat constructor; vm_compute; discriminate. }
  destruct (_ensure_dist_modeldefs example_host example_dist initial_state)
    as [r s'] eqn:Hens.
  assert (r = Ok [net; debug_net; net]) as ->.
  { apply (f_equal fst) in Hens. vm_compute in Hens. by symmetry. }
  exists s'. destruct (Hpkg example_dist initial_state _ s' Hens) as [Hm _].
  assert (first_match (py "net") [net; debug_net; net] net) as Hfn.
  { exists [], [debug_net; net]. split; [reflexivity|]. split; [reflexivity|].
    constructor. }
  split; [apply Hm, Hfn|exact Hfn].
Defined.

(** C7, as the code behaves. The second of two consecutive calls reads the
    manifest and parses the definition files again: the memo is stored
    under [_modeldefs] but looked for under [_modelefs]. *)
Theorem ensure_dist_modeldefs_rescans :
  let first := _ensure_dist_modeldefs example_host example_dist initial_state in
  let second := _ensure_dist_modeldefs example_host example_dist first.2 in
  first.1 = Ok [net; debug_net; net]
  /\ st_attrs first.2 !! (1%nat, "_modeldefs") = Some [net; debug_net; net]
  /\ st_io first.2
     = [GetMetadataLines 1 (py "RECORD");
        FromFile (py "/site/demo/MODEL");
        FromFile (py "/site/demo/broken/MODEL");
        FromFile (py "/site/demo/extra/MODELS")]
  /\ second.1 = first.1
  /\ st_io second.2 = st_io first.2 ++ st_io first.2
  /\ length (st_warnings second.2) = (2 * length (st_warnings first.2))%nat
  /\ length (st_warnings first.2) = 1%nat.
Proof. vm_compute. repeat split; reflexivity. Qed.

(** ** Provenance references *)

Section ReferenceFacts.
Variable host : Host.


End ReferenceFacts.



(** [%s] renders a distribution with [str], which leaves the location
    out; [repr] adds it. *)
Example reference_uses_str_not_repr :
  Distribution_str example_dist = py "gpkg.demo 0.1"
  /\ Distribution_repr example_dist = py "gpkg.demo 0.1 (/site)"
  /\ (reference example_host
        {| model_name := py "net"; model_dist := PackageDist example_dist;
           model_modeldef := net |} initial_state).1
     <> Ok (py "dist:" ++ Distribution_repr example_dist ++ py " " ++ py "net").
Proof. split; [|split]; [vm_compute; reflexivity..|vm_compute; discriminate]. Qed.

(** ** The registry *)

Section RegistryFacts.
Variable host : Host.

Lemma first_writer_nil name model : ~ first_writer host name model [].
Proof. intros (l1 & l2 & Heq & _). by destruct l1. Qed.

Lemma first_writer_cons name model m rest :
  first_writer host name model (m :: rest)
  <-> (m = model /\ fullname host model = Ok name)
      \/ (fullname host m <> Ok name /\ first_writer host name model rest).
Proof.
  split.
  - intros ([|x l1] & l2 & Heq & Hname & Hl1).
    + injection Heq as -> _. by left.
    + injection Heq as -> ->. apply Forall_cons in Hl1 as [Hx Hl1].
      right. split; [done|]. by exists l1, l2.
  - intros [[-> Hname]|[Hm (l1 & l2 & -> & Hname & Hl1)]].
    + exists [], rest. by repeat split.
    + exists (m :: l1), l2. split; [done|]. split; [done|]. by constructor.
Qed.

(** What the index holds under a name: what it held before, or else the
    first writer of the name. *)
Lemma index_of_spec models acc index :
  index_of host models acc = Ok index ->
  forall name model,
    index !! name = Some model
    <-> acc !! name = Some model
        \/ (acc !! name = None /\ first_writer host name model models).
Proof.
  revert acc. induction models as [|m rest IH]; intros acc; cbn [index_of].
  - intros [= <-] name model. split; [by left|].
    intros [H|[_ H]]; [done|]. by apply first_writer_nil in H.
  - destruct (fullname host m) as [n|e] eqn:Hn; [|done]. cbn [rbind].
    intros Hidx name model. rewrite (IH _ Hidx name model), first_writer_cons.
    destruct (acc !! n) as [old|] eqn:Hacc.
    + split.
      * intros [H|[Hnone Hfw]]; [by left|]. right. split; [done|]. right.
        split; [|done]. intros Heq. rewrite Heq in Hn. injection Hn as ->. congruence.
      * intros [H|[Hnone [[-> Hm]|[_ Hfw]]]]; [by left| |by right].
        rewrite Hm in Hn. injection Hn as ->. congruence.
    + destruct (decide (name = n)) as [->|Hne].
      * rewrite lookup_insert_eq, Hacc. split.
        -- intros [[= <-]|[? _]]; [|done]. right. split; [done|]. by left.
        -- intros [?|[_ [[-> _]|[Hm _]]]]; [done|by left|done].
      * rewrite lookup_insert_ne by done. split.
        -- intros [H|[Hnone Hfw]]; [by left|]. right. split; [done|]. right.
           split; [congruence|done].
        -- intros [H|[Hnone [[-> Hm]|[_ Hfw]]]]; [by left| |by right].
           congruence.
Qed.

Lemma index_of_total models acc :
  Forall (fun m => exists name, fullname host m = Ok name) models ->
  exists index, index_of host models acc = Ok index.
Proof.
  intros Hall. revert acc. induction Hall as [|m rest [n Hn] _ IH]; intros acc.
  - by exists acc.
  - cbn [index_of]. rewrite Hn. cbn [rbind]. apply IH.
Qed.

(** With the invariant and a scan whose models all have a name, the
    index is there, it is the index of the scan, and asking again gives
    the cached one. *)
Lemma index_total s :
  registry_ok host s ->
  Forall (fun m => exists name, fullname host m = Ok name)
    (scan host (epr_path (st_models s))) ->
  exists index s1,
    EntryPointResources_index host s = (Ok index, s1)
    /\ index_of host (scan host (epr_path (st_models s))) ∅ = Ok index
    /\ EntryPointResources_index host s1 = (Ok index, s1)
    /\ registry_ok host s1.
Proof.
  intros Hok Hall. unfold EntryPointResources_index.
  destruct (epr_index (st_models s)) as [index|] eqn:Hi.
  - exists index, s. rewrite Hi. by repeat split; [apply Hok|..].
  - destruct (index_of_total _ ∅ Hall) as [index Hidx]. rewrite Hidx.
    eexists index, _. split; [done|]. split; [done|]. split; [done|].
    intros index' [= <-]. exact Hidx.
Qed.

Lemma registry_ok_initial : registry_ok host initial_state.
Proof. intros index. discriminate. Qed.

Lemma registry_ok_set_path path s :
  registry_ok host (set_path path s).2.
Proof. intros index. discriminate. Qed.

Lemma registry_ok_add_model_path r s :
  registry_ok host (add_model_path r s).2.
Proof. intros index. discriminate. Qed.

Lemma registry_ok_index s :
  registry_ok host s -> registry_ok host (EntryPointResources_index host s).2.
Proof.
  intros Hok. unfold EntryPointResources_index.
  destruct (epr_index (st_models s)) as [index|] eqn:Hi; [done|].
  destruct (index_of host _ ∅) as [index|e] eqn:Hidx; [|done].
  intros index' [= <-]. exact Hidx.
Qed.

Lemma registry_ok_for_name name s :
  registry_ok host s -> registry_ok host (for_name host name s).2.
Proof.
  intros Hok%registry_ok_index.
  unfold for_name, EntryPointResources_for_name, bind.
  destruct (EntryPointResources_index host s) as [[index|e] s1]; [|done].
  by destruct (index !! name).
Qed.

Lemma registry_ok_iter_models s :
  registry_ok host s -> registry_ok host (iter_models host s).2.
Proof.
  intros Hok%registry_ok_index.
  unfold iter_models, EntryPointResources_iter, bind.
  by destruct (EntryPointResources_index host s) as [[index|e] s1].
Qed.

(** C6. In a registry that keeps its invariant, over a scan whose models
    all have a fully-qualified name: [iter_models] never yields a model
    whose definition is private, and yields only models of the index; a
    model that is the first writer of its fully-qualified name, which is
    the namespace of its distribution's project name, a slash and its
    bare name, is what [for_name] answers that name with, private or not,
    and it is yielded when it is not private. *)
Theorem private_filtering_asymmetry (s : state) :
  registry_ok host s ->
  Forall (fun m => exists name, fullname host m = Ok name)
    (scan host (epr_path (st_models s))) ->
  exists models s',
    iter_models host s = (Ok models, s')
    /\ (forall model, md_private (model_modeldef model) = true -> model ∉ models)
    /\ (forall model, model ∈ models ->
          exists name,
            first_writer host name model (scan host (epr_path (st_models s))))
    /\ forall name model,
         first_writer host name model (scan host (epr_path (st_models s))) ->
         (exists pkg_name,
            apply_namespace host (project_name (model_dist model)) = Ok pkg_name
            /\ name = pkg_name ++ slash :: model_name model)
         /\ (exists s3, for_name host name s = (Ok model, s3))
         /\ (md_private (model_modeldef model) = false -> model ∈ models).
Proof.
  intros Hok Hall.
  destruct (index_total s Hok Hall) as (index & s1 & Hidx & Hof & _ & _).
  pose proof (index_of_spec _ _ _ Hof) as Hspec.
  eexists. exists s1. split.
  { unfold iter_models, EntryPointResources_iter, bind. rewrite Hidx.
    unfold ret. reflexivity. }
  split; [|split].
  - intros model Hpriv Hin.
    apply list_elem_of_fmap in Hin as ([n m] & -> & Hin).
    apply list_elem_of_filter in Hin as [Hpub _]. simpl in Hpub, Hpriv.
    rewrite Hpriv in Hpub. discriminate.
  - intros model Hin.
    apply list_elem_of_fmap in Hin as ([n m] & -> & Hin).
    apply list_elem_of_filter in Hin as [_ Hin].
    rewrite merge_sort_Permutation in Hin. apply elem_of_map_to_list in Hin.
    apply Hspec in Hin as [Hin|[_ Hfw]]; [by rewrite lookup_empty in Hin|].
    by exists n.
  - intros name model Hfw.
    assert (index !! name = Some model) as Hlook.
    { apply Hspec. right. split; [apply lookup_empty|done]. }
    split; [|split].
    + destruct Hfw as (_ & _ & _ & Hname & _). unfold fullname in Hname.
      destruct (apply_namespace host _) as [pkg_name|e]; [|done].
      exists pkg_name. split; [done|]. cbn [rbind] in Hname.
      injection Hname as <-. reflexivity.
    + exists s1. unfold for_name, EntryPointResources_for_name, bind.
      rewrite Hidx, Hlook. reflexivity.
    + intros Hpub. apply list_elem_of_fmap. exists (name, model). split; [done|].
      apply list_elem_of_filter. split; [simpl; by rewrite Hpub|].
      rewrite merge_sort_Permutation. by apply elem_of_map_to_list.
Qed.

Lemma list_remove_absent x l :
  x ∉ l -> list_remove x l = Raise (ValueError (py "list.remove(x): x not in list")).
Proof.
  induction l as [|y l IH]; [done|].
  intros [Hxy Hl]%not_elem_of_cons. cbn [list_remove].
  rewrite (proj2 (str_eqb_neq y x)) by congruence. by rewrite IH.
Qed.

Lemma list_remove_present x l :
  x ∈ l -> exists l1 l2, l = l1 ++ x :: l2 /\ (x ∉ l1) /\ list_remove x l = Ok (l1 ++ l2).
Proof.
  induction l as [|y l IH]; [by intros ?%elem_of_nil|].
  intros Hin. cbn [list_remove]. destruct (str_eqb y x) eqn:Hyx.
  - apply str_eqb_eq in Hyx as ->. exists [], l.
    split; [done|]. split; [apply not_elem_of_nil|done].
  - apply str_eqb_neq in Hyx.
    apply elem_of_cons in Hin as [->|Hin]; [done|].
    destruct (IH Hin) as (l1 & l2 & -> & Hl1 & ->).
    exists (y :: l1), l2. split; [done|]. split; [|done].
    apply not_elem_of_cons. split; [congruence|done].
Qed.

Lemma occurrences_cons x y l :
  occurrences x (y :: l)
  = ((if bool_decide (y = x) then 1 else 0) + occurrences x l)%nat.
Proof.
  unfold occurrences. rewrite filter_cons.
  destruct (decide (y = x)) as [->|Hne].
  - by rewrite bool_decide_eq_true_2.
  - by rewrite bool_decide_eq_false_2.
Qed.

Lemma occurrences_app x l1 l2 :
  occurrences x (l1 ++ l2) = (occurrences x l1 + occurrences x l2)%nat.
Proof. unfold occurrences. by rewrite filter_app, length_app. Qed.

Lemma occurrences_absent x l : x ∉ l -> occurrences x l = 0%nat.
Proof.
  induction l as [|y l IH]; [done|].
  intros [Hxy Hl]%not_elem_of_cons. rewrite occurrences_cons, IH by done.
  by rewrite bool_decide_eq_false_2 by congruence.
Qed.

Lemma first_occurrence_unique (r : str) (l1 l2 k1 k2 : list str) :
  l1 ++ r :: l2 = k1 ++ r :: k2 -> r ∉ l1 -> r ∉ k1 -> l1 = k1 /\ l2 = k2.
Proof.
  revert k1. induction l1 as [|x l1 IH]; intros [|y k1] Heq Hl Hk.
  - by injection Heq as ->.
  - injection Heq as <- _. exfalso. apply Hk. by left.
  - injection Heq as -> _. exfalso. apply Hl. by left.
  - injection Heq as -> Heq.
    apply not_elem_of_cons in Hl as [_ Hl]. apply not_elem_of_cons in Hk as [_ Hk].
    destruct (IH k1 Heq Hl Hk) as [-> ->]. done.
Qed.

(** C8, as the code has it. [add_model_path r] drops the first entry equal
    to [r], if there is one, and puts [r] in front. The path afterwards is
    [r] followed by the path before when [r] was not in it, and [r]
    followed by the path before without the first [r] when it was; later
    entries equal to [r] stay where they are. So [r] is the first entry,
    the other entries are as before and in the same order, [r] occurs once
    when it occurred at most once before and as often as before otherwise,
    a path without duplicates stays without, and the cached index is
    dropped. *)
Theorem add_model_path_spec (r : str) (s : state) :
  exists s',
    add_model_path r s = (Ok tt, s')
    /\ let before := epr_path (st_models s) in
       let after := epr_path (st_models s') in
       (r ∉ before -> after = r :: before)
       /\ (forall l1 l2, before = l1 ++ r :: l2 -> r ∉ l1 ->
             after = r :: l1 ++ l2)
       /\ head after = Some r
       /\ filter (fun x => x <> r) after = filter (fun x => x <> r) before
       /\ occurrences r after = Nat.max 1 (occurrences r before)
       /\ (NoDup before -> NoDup after)
       /\ epr_index (st_models s') = None.
Proof.
  eexists. split.
  { cbv beta iota zeta delta
      [add_model_path bind EntryPointResources_path EntryPointResources_set_path].
    reflexivity. }
  cbn [with_models st_models epr_path epr_index].
  set (before := epr_path (st_models s)).
  destruct (decide (r ∈ before)) as [Hin|Hout].
  - destruct (list_remove_present r before Hin) as (l1 & l2 & Hb & Hl1 & ->).
    rewrite Hb. split; [|split; [|split; [done|split; [|split; [|split; [|done]]]]]].
    + intros Hout. exfalso. apply Hout. rewrite elem_of_app. right. by left.
    + intros k1 k2 Hk Hk1.
      destruct (first_occurrence_unique r l1 l2 k1 k2 Hk Hl1 Hk1) as [-> ->]. done.
    + rewrite filter_cons_False by (by intros []).
      rewrite !filter_app, filter_cons_False by (by intros []). done.
    + rewrite occurrences_cons, !occurrences_app, occurrences_cons.
      rewrite bool_decide_eq_true_2 by done. lia.
    + intros Hnd. apply NoDup_app in Hnd as (Hnd1 & Hdisj & Hnd2).
      apply NoDup_cons in Hnd2 as [Hr2 Hnd2].
      apply NoDup_cons. split.
      * apply not_elem_of_app. done.
      * apply NoDup_app. split; [done|]. split; [|done].
        intros x Hx1 Hx2. apply (Hdisj x Hx1). by right.
  - rewrite list_remove_absent by done.
    split; [done|]. split; [|split; [done|split; [|split; [|split; [|done]]]]].
    + intros l1 l2 Hb _. exfalso. apply Hout. rewrite Hb, elem_of_app. right. by left.
    + by rewrite filter_cons_False by (by intros []).
    + rewrite occurrences_cons, bool_decide_eq_true_2 by done.
      rewrite occurrences_absent by done. done.
    + intros Hnd. by apply NoDup_cons.
Qed.

End RegistryFacts.

Lemma private_filtering_asymmetry_witness :
  exists models,
    (iter_models example_host initial_state).1 = Ok models
    /\ (example_debug_net ∉ models)
    /\ fullname example_host example_debug_net
       = Ok (py ".modelfile.2E2F70726F6A2D61/debug-net")
    /\ (for_name example_host (py ".modelfile.2E2F70726F6A2D61/debug-net")
          initial_state).1 = Ok example_debug_net
    /\ example_net ∈ models.
Proof.
  destruct (private_filtering_asymmetry example_host initial_state)
    as (models & s' & Hit & Hpriv & _ & Hall).
  { intros index. discriminate. }
  { repeat constructor; eexists; reflexivity. }
  exists models. rewrite Hit. split; [reflexivity|].
  split; [exact (Hpriv example_debug_net eq_refl)|].
  split; [reflexivity|].
  destruct (Hall (py ".modelfile.2E2F70726F6A2D61/debug-net") example_debug_net)
    as (_ & [s3 Hfor] & _).
  { exists [example_net], []. split; [reflexivity|]. split; [reflexivity|].
    constructor; [|constructor]. vm_compute. discriminate. }
  destruct (Hall (py ".modelfile.2E2F70726F6A2D61/net") example_net) as (_ & _ & Hpub).
  { exists [], [example_debug_net]. split; [reflexivity|]. split; [reflexivity|].
    constructor. }
  split; [by rewrite Hfor|exact (Hpub eq_refl)].
Defined.

Example iter_models_example :
  (iter_models example_host initial_state).1 = Ok [example_net].
Proof. vm_compute. reflexivity. Qed.

Lemma add_model_path_spec_witness :
  exists s',
    add_model_path (py "./proj-b")
      (with_models {| epr_path := [py "./proj-a"; py "./proj-b"; py "./proj-c"];
                      epr_index := Some ∅ |} initial_state) = (Ok tt, s')
    /\ epr_path (st_models s') = [py "./proj-b"; py "./proj-a"; py "./proj-c"]
    /\ NoDup (epr_path (st_models s')).
Proof.
  destruct (add_model_path_spec (py "./proj-b")
              (with_models {| epr_path := [py "./proj-a"; py "./proj-b"; py "./proj-c"];
                              epr_index := Some ∅ |} initial_state))
    as (s' & Hs' & _ & Hfirst & _ & _ & _ & Hnd & _).
  exists s'. split; [exact Hs'|].
  split.
  - apply (Hfirst [py "./proj-a"] [py "./proj-c"]); [reflexivity|].
    refine (bool_decide_unpack _ _). vm_compute. exact I.
  - apply Hnd. refine (bool_decide_unpack _ _). vm_compute. exact I.
Defined.

(** C8 as stated fails on a path that holds [r] more than once: only the
    first entry is dropped, and [r] is still there twice. *)
Lemma add_model_path_keeps_later_duplicates :
  let s := with_models {| epr_path := [py "./a"; py "./b"; py "./a"];
                          epr_index := None |} initial_state in
  let s' := (add_model_path (py "./a") s).2 in
  epr_path (st_models s') = [py "./a"; py "./b"; py "./a"]
  /\ occurrences (py "./a") (epr_path (st_models s')) = 2%nat
  /\ occurrences (py "./a") (epr_path (st_models s')) <> 1%nat.
Proof. vm_compute. repeat split; [reflexivity..|discriminate]. Qed.

(** ** The flag value codec *)

Section IntFacts.
Import PyStr.

Lemma int_digits_all_digits ds acc b :
  forallb is_digit ds = true -> ds <> [] \/ b = true ->
  int_digits ds acc b = Some (fold_left decimal_step ds acc).
Proof.
  revert acc b. induction ds as [|c ds IH]; intros acc b Hall Hne.
  - destruct Hne as [?| ->]; done.
  - cbn [forallb] in Hall. apply andb_true_iff in Hall as [Hc Hds].
    cbn [int_digits fold_left]. rewrite Hc. apply IH; [done|by right].
Qed.

Lemma digits_fuel_spec f n :
  0 <= n < 2 ^ Z.of_nat (S f) ->
  forallb is_digit (digits_fuel (S f) n) = true
  /\ digits_fuel (S f) n <> []
  /\ fold_left decimal_step (digits_fuel (S f) n) 0 = n.
Proof.
  revert n. induction f as [|f IH]; intros n Hn.
  - assert (n < 10) as Hlt by (change (2 ^ Z.of_nat 1) with 2 in Hn; lia).
    cbn [digits_fuel]. rewrite (proj2 (Z.ltb_lt n 10) Hlt).
    split; [|split; [done|]].
    + cbn [forallb]. unfold is_digit. rewrite in_range_true by lia. done.
    + cbn [fold_left]. unfold decimal_step. lia.
  - remember (S f) as f' eqn:Hf'. cbn [digits_fuel].
    destruct (Z.ltb_spec n 10) as [Hlt|Hge].
    + split; [|split; [done|]].
      * cbn [forallb]. unfold is_digit. rewrite in_range_true by lia. done.
      * cbn [fold_left]. unfold decimal_step. lia.
    + subst f'.
      assert (0 <= n / 10 < 2 ^ Z.of_nat (S f)) as Hq.
      { split; [apply Z.div_pos; lia|].
        apply Z.div_lt_upper_bound; [lia|].
        replace (Z.of_nat (S (S f))) with (Z.succ (Z.of_nat (S f))) in Hn by lia.
        rewrite Z.pow_succ_r in Hn by lia. lia. }
      destruct (IH (n / 10) Hq) as (Hall & Hne & Hval).
      pose proof (Z.mod_pos_bound n 10 ltac:(lia)) as Hm.
      split; [|split].
      * rewrite forallb_app, Hall. cbn [forallb]. unfold is_digit.
        rewrite in_range_true by lia. done.
      * by destruct (digits_fuel (S f) (n / 10)).
      * rewrite fold_left_app, Hval. cbn [fold_left]. unfold decimal_step.
        pose proof (Z.div_mod n 10 ltac:(lia)). lia.
Qed.

Lemma digits_spec n :
  0 <= n ->
  forallb is_digit (digits n) = true
  /\ digits n <> []
  /\ fold_left decimal_step (digits n) 0 = n.
Proof.
  intros Hn. unfold digits. apply digits_fuel_spec. split; [done|].
  rewrite Nat2Z.inj_succ, Z2Nat.id by apply Z.log2_nonneg.
  destruct (Z.eq_dec n 0) as [->|Hne]; [done|].
  apply Z.log2_spec. lia.
Qed.

Lemma digit_not_c_space c : is_digit c = true -> is_c_space c = false.
Proof.
  unfold is_digit. intros Hc%in_range_spec. unfold is_c_space.
  rewrite in_range_false by lia. rewrite (proj2 (Z.eqb_neq c 32)) by lia. done.
Qed.

Lemma lstrip_by_head space c s :
  space c = false -> lstrip_by space (c :: s) = c :: s.
Proof. intros Hc. cbn [lstrip_by]. by rewrite Hc. Qed.

Lemma rstrip_by_digits s :
  forallb is_digit s = true -> rstrip_by is_c_space s = s.
Proof.
  induction s as [|c s IH]; [done|].
  cbn [forallb]. intros [Hc Hs]%andb_true_iff.
  cbn [rstrip_by]. rewrite (IH Hs), (digit_not_c_space c Hc). by destruct s.
Qed.

Lemma strip_digits s :
  forallb is_digit s = true -> strip_by is_c_space s = s.
Proof.
  intros Hs. unfold strip_by. destruct s as [|c s]; [done|].
  cbn [forallb] in Hs. pose proof Hs as [Hc _]%andb_true_iff.
  rewrite lstrip_by_head by (by apply digit_not_c_space).
  by apply rstrip_by_digits.
Qed.

Lemma strip_signed s :
  forallb is_digit s = true -> s <> [] ->
  strip_by is_c_space (45 :: s) = 45 :: s.
Proof.
  intros Hs Hne. unfold strip_by. rewrite lstrip_by_head by reflexivity.
  cbn [rstrip_by]. rewrite (rstrip_by_digits s Hs). by destruct s.
Qed.

Lemma digits_ascii s :
  forallb is_digit s = true -> forallb (Codec.in_range 0 0x7F) s = true.
Proof.
  rewrite !forallb_forall. intros Hs c Hc. specialize (Hs c Hc).
  unfold is_digit in Hs. apply in_range_spec in Hs. apply in_range_true. lia.
Qed.

Lemma int_ascii_str_of_int n : int_ascii (str_of_int n) = Ok n.
Proof.
  unfold str_of_int. destruct (Z.ltb_spec n 0) as [Hneg|Hpos].
  - destruct (digits_spec (- n) ltac:(lia)) as (Hall & Hne & Hval).
    unfold int_ascii. rewrite strip_signed by done.
    rewrite Z.eqb_refl.
    rewrite int_digits_all_digits by (done || by left).
    rewrite Hval. f_equal. lia.
  - destruct (digits_spec n Hpos) as (Hall & Hne & Hval).
    unfold int_ascii. rewrite strip_digits by done.
    destruct (digits n) as [|c ds] eqn:Hd; [done|].
    cbn [forallb] in Hall. pose proof Hall as [Hc%in_range_spec _]%andb_true_iff.
    rewrite (proj2 (Z.eqb_neq c 45)) by lia.
    rewrite (proj2 (Z.eqb_neq c 43)) by lia.
    rewrite int_digits_all_digits by (done || by left).
    by rewrite Hval.
Qed.

Lemma str_of_int_ascii n :
  forallb (Codec.in_range 0 0x7F) (str_of_int n) = true.
Proof.
  unfold str_of_int. destruct (Z.ltb_spec n 0) as [Hneg|Hpos].
  - destruct (digits_spec (- n) ltac:(lia)) as (Hall & _).
    cbn [forallb]. by rewrite digits_ascii.
  - destruct (digits_spec n Hpos) as (Hall & _). by apply digits_ascii.
Qed.

Lemma str_of_int_nonempty n : str_of_int n <> [].
Proof.
  unfold str_of_int. destruct (Z.ltb_spec n 0) as [Hneg|Hpos]; [done|].
  by destruct (digits_spec n Hpos) as (_ & Hne & _).
Qed.

End IntFacts.

Section FlagFacts.
Variable host : FlagHost.

Lemma py_int_str_of_int n : py_int host (PyStr.str_of_int n) = Ok n.
Proof. unfold py_int. by rewrite str_of_int_ascii, int_ascii_str_of_int. Qed.

Lemma decode_int f n :
  decode_flag_val_fuel host (S f) (PyStr.str_of_int n) = Ok (VInt n).
Proof.
  cbn [decode_flag_val_fuel].
  rewrite bool_decide_eq_false_2 by apply str_of_int_nonempty.
  by rewrite py_int_str_of_int.
Qed.

(** A word that is no number and no flag function is what YAML makes of
    it. *)
Lemma decode_plain_word f s v :
  s <> [] ->
  (exists e, py_int host s = Raise e /\ is_ValueError e = true) ->
  FUNCTION_P_match s = None ->
  yaml_safe_load host s = Ok v ->
  decode_flag_val_fuel host (S f) s = Ok v.
Proof.
  intros Hne (e & Hint & He) Hfn Hyaml. cbn [decode_flag_val_fuel].
  rewrite bool_decide_eq_false_2 by done. rewrite Hint, He.
  unfold _yaml_parse_with, decode_flag_function_with. rewrite Hfn.
  cbn [is_ValueError]. by rewrite Hyaml.
Qed.

(** C10. [True], [False], [None] and every integer are encoded as [yes],
    [no], [null] and the decimal numeral, and decoding the encoded text
    gives the value back, for a YAML loader that reads [yes], [no] and
    [null] as YAML 1.1 does. *)
Theorem flag_val_round_trip :
  yaml_safe_load host (py "yes") = Ok (VBool true) ->
  yaml_safe_load host (py "no") = Ok (VBool false) ->
  yaml_safe_load host (py "null") = Ok VNone ->
  encode_flag_val host (VBool true) = py "yes"
  /\ encode_flag_val host (VBool false) = py "no"
  /\ encode_flag_val host VNone = py "null"
  /\ (forall n, encode_flag_val host (VInt n) = PyStr.str_of_int n
                /\ PyStr.int_ascii (PyStr.str_of_int n) = Ok n)
  /\ (forall v, is_scalar_literal v = true ->
                decode_flag_val host (encode_flag_val host v) = Ok v).
Proof.
  intros Hyes Hno Hnull.
  split; [done|]. split; [done|]. split; [done|].
  split; [intros n; split; [done|apply int_ascii_str_of_int]|].
  intros v Hv. unfold decode_flag_val.
  destruct v as [[|]| |n| | | |]; try discriminate Hv; cbn [encode_flag_val].
  - apply decode_plain_word; [done| |reflexivity|done].
    eexists. split; [vm_compute; reflexivity|reflexivity].
  - apply decode_plain_word; [done| |reflexivity|done].
    eexists. split; [vm_compute; reflexivity|reflexivity].
  - apply decode_plain_word; [done| |reflexivity|done].
    eexists. split; [vm_compute; reflexivity|reflexivity].
  - apply decode_int.
Qed.

End FlagFacts.

Lemma flag_val_round_trip_witness :
  encode_flag_val example_flag_host (VBool true) = py "yes"
  /\ encode_flag_val example_flag_host (VBool false) = py "no"
  /\ encode_flag_val example_flag_host VNone = py "null"
  /\ (forall n, encode_flag_val example_flag_host (VInt n) = PyStr.str_of_int n
                /\ PyStr.int_ascii (PyStr.str_of_int n) = Ok n)
  /\ (forall v, is_scalar_literal v = true ->
                decode_flag_val example_flag_host
                  (encode_flag_val example_flag_host v) = Ok v).
Proof.
  apply (flag_val_round_trip example_flag_host); reflexivity.
Defined.

Example decode_examples :
  decode_flag_val example_flag_host (py "yes") = Ok (VBool true)
  /\ decode_flag_val example_flag_host (py "-42") = Ok (VInt (-42))
  /\ decode_flag_val example_flag_host (py " 1_000 ") = Ok (VInt 1000)
  /\ decode_flag_val example_flag_host (py "[1:2]") = Ok (VStr (py "[1:2]"))
  /\ decode_flag_val example_flag_host (py "") = Ok (VStr [])
  /\ decode_flag_val example_flag_host (py "007") = Ok (VInt 7)
  /\ decode_flag_val example_flag_host (py "1__0") = Ok (VStr (py "1__0"))
  /\ decode_flag_val example_flag_host (py "+") = Ok (VStr (py "+"))
  /\ PyStr.str_of_int 0 = py "0"
  /\ PyStr.str_of_int (-1203) = py "-1203"
  /\ PyStr.str_of_int 1000 = py "1000"
  /\ FUNCTION_P_match (py "uniform[1:2] ") = Some (py "uniform", py "1:2")
  /\ FUNCTION_P_match (py "a[b]c]") = Some (py "a", py "b]c")
  /\ FUNCTION_P_match (py "a[b]c") = None
  /\ encode_flag_val example_flag_host (VList [VInt 1; VBool true; VNone])
     = py "[1, yes, null]".
Proof. vm_compute. repeat split; reflexivity. Qed.

(** *** The bound on nesting is never reached *)

Section FuelFacts.
Variable host : FlagHost.

Lemma lstrip_by_length space s :
  (length (PyStr.lstrip_by space s) <= length s)%nat.
Proof.
  induction s as [|c s IH]; [done|]. cbn [PyStr.lstrip_by].
  destruct (space c); simpl; lia.
Qed.

Lemma rstrip_by_length space s :
  (length (PyStr.rstrip_by space s) <= length s)%nat.
Proof.
  induction s as [|c s IH]; [done|]. cbn [PyStr.rstrip_by].
  destruct (PyStr.rstrip_by space s) as [|x r]; [destruct (space c)|];
    simpl in *; lia.
Qed.

Lemma strip_length s : (length (PyStr.strip s) <= length s)%nat.
Proof.
  unfold PyStr.strip, PyStr.strip_by.
  pose proof (rstrip_by_length PyStr.is_space (PyStr.lstrip_by PyStr.is_space s)).
  pose proof (lstrip_by_length PyStr.is_space s). lia.
Qed.

Lemma split_part_length sep s w :
  w ∈ Str.split sep s -> (length w <= length s)%nat.
Proof.
  revert w. induction s as [|c s IH]; intros w; cbn [Str.split].
  - intros ->%list_elem_of_singleton. done.
  - destruct (c =? sep).
    + intros [->|Hw]%elem_of_cons; [simpl; lia|].
      specialize (IH w Hw). simpl. lia.
    + destruct (Str.split sep s) as [|w0 ws] eqn:Hsp.
      * intros ->%list_elem_of_singleton. simpl.
        assert ([] ∈ Str.split sep s) as Hin.
        { destruct s; simpl in Hsp; [done|]. destruct (_ =? _); [done|].
          by destruct (Str.split sep s). }
        rewrite Hsp in Hin. by apply elem_of_nil in Hin.
      * intros [->|Hw]%elem_of_cons.
        -- assert (length w0 <= length s)%nat by (apply IH; by left).
           simpl. lia.
        -- assert (length w <= length s)%nat by (apply IH; by right).
           simpl. lia.
Qed.

Lemma span_name_length s n r :
  span_name s = (n, r) -> (length n + length r = length s)%nat.
Proof.
  revert n r. induction s as [|c s IH]; intros n r; cbn [span_name].
  - by intros [= <- <-].
  - destruct (is_name_char c).
    + destruct (span_name s) as [n' r']. intros [= <- <-].
      specialize (IH n' r' eq_refl). simpl. lia.
    + intros [= <- <-]. done.
Qed.

Lemma split_last_bracket_length s a t :
  split_last_bracket s = Some (a, t) -> (length a + length t < length s)%nat.
Proof.
  revert a t. induction s as [|c s IH]; intros a t; cbn [split_last_bracket]; [done|].
  destruct (split_last_bracket s) as [[a' t']|].
  - intros [= <- <-]. specialize (IH a' t' eq_refl). simpl. lia.
  - destruct (c =? 93); [|done]. intros [= <- <-]. simpl. lia.
Qed.

Lemma FUNCTION_P_match_length s g1 g2 :
  FUNCTION_P_match s = Some (g1, g2) -> (length g2 < length s)%nat.
Proof.
  unfold FUNCTION_P_match.
  destruct (span_name s) as [n r] eqn:Hspan.
  apply span_name_length in Hspan.
  destruct r as [|c body]; [done|].
  destruct c as [|p|p]; try done.
  do 7 (destruct p as [p|p|]; try done).
  destruct (split_last_bracket body) as [[a t]|] eqn:Hsplit; [|done].
  apply split_last_bracket_length in Hsplit.
  destruct (_ && _); [|done]. intros [= <- <-]. simpl in Hspan. lia.
Qed.

Lemma decode_args_ext d1 d2 args :
  Forall (fun x => d1 (PyStr.strip x) = d2 (PyStr.strip x)) args ->
  decode_args d1 args = decode_args d2 args.
Proof.
  induction 1 as [|x args Hx _ IH]; [done|].
  cbn [decode_args]. by rewrite Hx, IH.
Qed.

Lemma decode_flag_function_with_ext d1 d2 s :
  (forall x, (length x < length s)%nat -> d1 x = d2 x) ->
  decode_flag_function_with d1 s = decode_flag_function_with d2 s.
Proof.
  intros Hd. unfold decode_flag_function_with.
  destruct (FUNCTION_P_match s) as [[g1 g2]|] eqn:Hm; [|done].
  apply FUNCTION_P_match_length in Hm.
  pose proof (strip_length g2) as Hg2.
  rewrite (decode_args_ext d1 d2); [done|].
  case_bool_decide; [constructor|].
  apply Forall_forall. intros x Hx. apply Hd.
  apply split_part_length in Hx. pose proof (strip_length x). lia.
Qed.

(** Any bound above the length of the text gives the same answer: the
    bound of [decode_flag_val] is never the reason for its result. *)
Lemma decode_flag_val_fuel_enough f f' s :
  (length s < f)%nat -> (length s < f')%nat ->
  decode_flag_val_fuel host f s = decode_flag_val_fuel host f' s.
Proof.
  revert f' s. induction f as [|f IH]; intros f' s Hf Hf'; [lia|].
  destruct f' as [|f']; [lia|]. cbn [decode_flag_val_fuel].
  case_bool_decide; [done|].
  destruct (py_int host s) as [n|e]; [done|].
  destruct (is_ValueError e); [|done].
  unfold _yaml_parse_with.
  rewrite (decode_flag_function_with_ext
             (decode_flag_val_fuel host f) (decode_flag_val_fuel host f') s); [done|].
  intros x Hx. apply IH; lia.
Qed.

Lemma decode_flag_val_unfold s :
  decode_flag_val host s
  = if bool_decide (s = []) then Ok (VStr s)
    else match py_int host s with
         | Ok n => Ok (VInt n)
         | Raise e =>
             if is_ValueError e then
               match _yaml_parse host s with
               | Ok v => Ok v
               | Raise e' =>
                   if is_ValueError_or_YAMLError e' then Ok (VStr s) else Raise e'
               end
             else Raise e
         end.
Proof.
  unfold decode_flag_val at 1. cbn [decode_flag_val_fuel].
  case_bool_decide; [done|].
  destruct (py_int host s) as [n|e]; [done|].
  destruct (is_ValueError e); [|done].
  unfold _yaml_parse, _yaml_parse_with.
  rewrite (decode_flag_function_with_ext
             (decode_flag_val_fuel host (length s)) (decode_flag_val host) s); [done|].
  intros x Hx. unfold decode_flag_val. apply decode_flag_val_fuel_enough; lia.
Qed.

End FuelFacts.

(** * Further properties *)

(** ** The project name codec as a bijection *)

Section CodecInverse.
Import Codec.

Lemma encode_cp_1 c : 0 <= c < 0x80 -> utf8_encode_cp c = Some [c].
Proof.
  intros Hc. unfold utf8_encode_cp.
  rewrite (proj2 (Z.ltb_ge c 0)) by lia.
  by rewrite (proj2 (Z.ltb_lt c 0x80)) by lia.
Qed.

Lemma encode_cp_2 c :
  0x80 <= c < 0x800 -> utf8_encode_cp c = Some [0xC0 + c / 64; 0x80 + c mod 64].
Proof.
  intros Hc. unfold utf8_encode_cp.
  rewrite (proj2 (Z.ltb_ge c 0)) by lia.
  rewrite (proj2 (Z.ltb_ge c 0x80)) by lia.
  by rewrite (proj2 (Z.ltb_lt c 0x800)) by lia.
Qed.

Lemma encode_cp_3 c :
  0x800 <= c < 0x10000 -> c < 0xD800 \/ 0xDFFF < c ->
  utf8_encode_cp c
  = Some [0xE0 + c / 4096; 0x80 + (c / 64) mod 64; 0x80 + c mod 64].
Proof.
  intros Hc Hs. unfold utf8_encode_cp.
  rewrite (proj2 (Z.ltb_ge c 0)) by lia.
  rewrite (proj2 (Z.ltb_ge c 0x80)) by lia.
  rewrite (proj2 (Z.ltb_ge c 0x800)) by lia.
  rewrite (proj2 (Z.ltb_lt c 0x10000)) by lia.
  destruct Hs as [Hs|Hs].
  - by rewrite (proj2 (Z.leb_gt 0xD800 c)) by lia.
  - rewrite (proj2 (Z.leb_gt c 0xDFFF)) by lia. by rewrite andb_false_r.
Qed.

Lemma encode_cp_4 c :
  0x10000 <= c < 0x110000 ->
  utf8_encode_cp c
  = Some [0xF0 + c / 262144; 0x80 + (c / 4096) mod 64;
          0x80 + (c / 64) mod 64; 0x80 + c mod 64].
Proof.
  intros Hc. unfold utf8_encode_cp.
  rewrite (proj2 (Z.ltb_ge c 0)) by lia.
  rewrite (proj2 (Z.ltb_ge c 0x80)) by lia.
  rewrite (proj2 (Z.ltb_ge c 0x800)) by lia.
  rewrite (proj2 (Z.ltb_ge c 0x10000)) by lia.
  by rewrite (proj2 (Z.ltb_lt c 0x110000)) by lia.
Qed.

Lemma div_mod_64 q r : 0 <= r < 64 -> (q * 64 + r) / 64 = q /\ (q * 64 + r) mod 64 = r.
Proof.
  intros Hr. split.
  - symmetry. apply (Z.div_unique _ 64 q r); lia.
  - symmetry. apply (Z.mod_unique _ 64 q r); lia.
Qed.

Lemma decoded_2 b0 b1 :
  0xC2 <= b0 <= 0xDF -> 0x80 <= b1 <= 0xBF ->
  utf8_encode_cp ((b0 - 0xC0) * 64 + (b1 - 0x80)) = Some [b0; b1].
Proof.
  intros H0 H1.
  destruct (div_mod_64 (b0 - 0xC0) (b1 - 0x80) ltac:(lia)) as [Hq Hr].
  rewrite encode_cp_2 by lia. rewrite Hq, Hr. f_equal. f_equal; [lia|]. f_equal. lia.
Qed.

Lemma decoded_3 b0 b1 b2 :
  0xE0 <= b0 <= 0xEF ->
  (if b0 =? 0xE0 then 0xA0 else 0x80) <= b1 <= (if b0 =? 0xED then 0x9F else 0xBF) ->
  0x80 <= b2 <= 0xBF ->
  utf8_encode_cp ((b0 - 0xE0) * 4096 + (b1 - 0x80) * 64 + (b2 - 0x80))
  = Some [b0; b1; b2].
Proof.
  intros H0 H1 H2.
  assert (0x80 <= b1 <= 0xBF) as H1'.
  { destruct (b0 =? 0xE0), (b0 =? 0xED); lia. }
  set (c := (b0 - 0xE0) * 4096 + (b1 - 0x80) * 64 + (b2 - 0x80)).
  replace c with (((b0 - 0xE0) * 64 + (b1 - 0x80)) * 64 + (b2 - 0x80))
    by (unfold c; lia).
  destruct (div_mod_64 ((b0 - 0xE0) * 64 + (b1 - 0x80)) (b2 - 0x80) ltac:(lia))
    as [Hq Hr].
  destruct (div_mod_64 (b0 - 0xE0) (b1 - 0x80) ltac:(lia)) as [Hq2 Hr2].
  rewrite encode_cp_3.
  - replace 4096 with (64 * 64) by done. rewrite <- Z.div_div by lia.
    rewrite Hq, Hr, Hq2, Hr2. f_equal. f_equal; [lia|]. f_equal; [lia|]. f_equal. lia.
  - destruct (Z.eqb_spec b0 0xE0); destruct (Z.eqb_spec b0 0xED); lia.
  - destruct (Z.eqb_spec b0 0xE0); destruct (Z.eqb_spec b0 0xED); lia.
Qed.

Lemma decoded_4 b0 b1 b2 b3 :
  0xF0 <= b0 <= 0xF4 ->
  (if b0 =? 0xF0 then 0x90 else 0x80) <= b1 <= (if b0 =? 0xF4 then 0x8F else 0xBF) ->
  0x80 <= b2 <= 0xBF -> 0x80 <= b3 <= 0xBF ->
  utf8_encode_cp ((b0 - 0xF0) * 262144 + (b1 - 0x80) * 4096
                  + (b2 - 0x80) * 64 + (b3 - 0x80))
  = Some [b0; b1; b2; b3].
Proof.
  intros H0 H1 H2 H3.
  assert (0x80 <= b1 <= 0xBF) as H1'.
  { destruct (b0 =? 0xF0), (b0 =? 0xF4); lia. }
  set (c := (b0 - 0xF0) * 262144 + (b1 - 0x80) * 4096
            + (b2 - 0x80) * 64 + (b3 - 0x80)).
  replace c
    with ((((b0 - 0xF0) * 64 + (b1 - 0x80)) * 64 + (b2 - 0x80)) * 64 + (b3 - 0x80))
    by (unfold c; lia).
  destruct (div_mod_64 (((b0 - 0xF0) * 64 + (b1 - 0x80)) * 64 + (b2 - 0x80))
              (b3 - 0x80) ltac:(lia)) as [Hq Hr].
  destruct (div_mod_64 ((b0 - 0xF0) * 64 + (b1 - 0x80)) (b2 - 0x80) ltac:(lia))
    as [Hq2 Hr2].
  destruct (div_mod_64 (b0 - 0xF0) (b1 - 0x80) ltac:(lia)) as [Hq3 Hr3].
  rewrite encode_cp_4.
  - replace 262144 with (64 * (64 * 64)) by done.
    replace 4096 with (64 * 64) by done.
    rewrite <- !Z.div_div by lia.
    rewrite Hq, Hr, Hq2, Hr2, Hq3, Hr3.
    f_equal. f_equal; [lia|]. f_equal; [lia|]. f_equal; [lia|]. f_equal. lia.
  - destruct (Z.eqb_spec b0 0xF0); destruct (Z.eqb_spec b0 0xF4); lia.
Qed.

(** Strict decoding accepts canonical encodings only: encoding what was
    decoded gives the bytes back. *)
Lemma utf8_encode_decode b s :
  utf8_decode b = Ok s -> utf8_encode s = Ok b.
Proof.
  remember (length b) as n eqn:Hn. revert b s Hn.
  induction n as [n IH] using lt_wf_ind. intros b s Hn.
  destruct b as [|b0 t0]; [by intros [= <-]|].
  cbn [utf8_decode].
  destruct (in_range 0 0x7F b0) eqn:R1.
  { apply in_range_spec in R1.
    destruct (utf8_decode t0) as [s0|] eqn:Hd; [|done]. intros [= <-].
    cbn [utf8_encode]. rewrite encode_cp_1 by lia.
    rewrite (IH (length t0) ltac:(simpl in Hn; lia) t0 s0 eq_refl Hd). done. }
  destruct (in_range 0xC2 0xDF b0) eqn:R2.
  { apply in_range_spec in R2.
    destruct t0 as [|b1 t1]; [done|].
    destruct (is_cont b1) eqn:C1; [|done]. apply in_range_spec in C1.
    destruct (utf8_decode t1) as [s1|] eqn:Hd; [|done]. intros [= <-].
    cbn [utf8_encode]. rewrite decoded_2 by lia.
    rewrite (IH (length t1) ltac:(simpl in Hn; lia) t1 s1 eq_refl Hd). done. }
  destruct (in_range 0xE0 0xEF b0) eqn:R3.
  { apply in_range_spec in R3.
    destruct t0 as [|b1 [|b2 t2]]; [done..|].
    destruct (in_range _ _ b1) eqn:C1; [|done]. apply in_range_spec in C1.
    destruct (is_cont b2) eqn:C2; [|done]. apply in_range_spec in C2.
    cbn [andb].
    destruct (utf8_decode t2) as [s2|] eqn:Hd; [|done]. intros [= <-].
    cbn [utf8_encode]. rewrite decoded_3 by done.
    rewrite (IH (length t2) ltac:(simpl in Hn; lia) t2 s2 eq_refl Hd). done. }
  destruct (in_range 0xF0 0xF4 b0) eqn:R4; [|done].
  apply in_range_spec in R4.
  destruct t0 as [|b1 [|b2 [|b3 t3]]]; [done..|].
  destruct (in_range _ _ b1) eqn:C1; [|done]. apply in_range_spec in C1.
  destruct (is_cont b2) eqn:C2; [|done]. apply in_range_spec in C2.
  destruct (is_cont b3) eqn:C3; [|done]. apply in_range_spec in C3.
  cbn [andb].
  destruct (utf8_decode t3) as [s3|] eqn:Hd; [|done]. intros [= <-].
  cbn [utf8_encode]. rewrite decoded_4 by done.
  rewrite (IH (length t3) ltac:(simpl in Hn; lia) t3 s3 eq_refl Hd). done.
Qed.

Lemma hex_value_digit d :
  is_b16_digit d = true -> 0 <= hex_value d < 16 /\ hex_digit (hex_value d) = d.
Proof.
  unfold is_b16_digit. rewrite orb_true_iff, !in_range_spec.
  unfold hex_value, hex_digit. intros Hd.
  destruct (Z.ltb_spec d 65).
  - destruct (Z.ltb_spec (d - 48) 10); lia.
  - destruct (Z.ltb_spec (d - 55) 10); lia.
Qed.

Lemma b16encode_unhexlify t b :
  forallb is_b16_digit t = true -> unhexlify t = Ok b -> b16encode b = t.
Proof.
  remember (length t) as n eqn:Hn. revert t b Hn.
  induction n as [n IH] using lt_wf_ind. intros t b Hn Hal.
  destruct t as [|h [|l t']]; [by intros [= <-]|done|].
  cbn [forallb] in Hal.
  apply andb_true_iff in Hal as [Hh Hal]. apply andb_true_iff in Hal as [Hl Hal].
  cbn [unhexlify]. destruct (unhexlify t') as [r|] eqn:Hr; [|done].
  intros [= <-]. cbn [b16encode flat_map]. fold (b16encode r).
  rewrite (IH (length t') ltac:(simpl in Hn; lia) t' r eq_refl Hal Hr).
  destruct (hex_value_digit h Hh) as [Hhr Hhd].
  destruct (hex_value_digit l Hl) as [Hlr Hld].
  assert ((16 * hex_value h + hex_value l) / 16 = hex_value h) as ->.
  { symmetry. apply (Z.div_unique _ 16 _ (hex_value l)); lia. }
  assert ((16 * hex_value h + hex_value l) mod 16 = hex_value l) as ->.
  { symmetry. apply (Z.mod_unique _ 16 (hex_value h)); lia. }
  by rewrite Hhd, Hld.
Qed.

End CodecInverse.

(** X1. A token that unescapes is the escape of what it unescapes to:
    with C1, escaping and unescaping are inverse to each other. *)
Theorem escape_unescape (t p : str) :
  _unescape_project_name t = Ok p -> _escape_project_name p = Ok t.
Proof.
  unfold _unescape_project_name, Codec.b16decode, Codec.ascii_encode.
  destruct (forallb (Codec.in_range 0 127) t) eqn:Hascii; [|done].
  destruct (forallb Codec.is_b16_digit t) eqn:Hal; [|done].
  destruct (Codec.unhexlify t) as [b|] eqn:Hb; [|done]. cbn [rbind].
  intros Hp. unfold _escape_project_name.
  rewrite (utf8_encode_decode b p Hp). cbn [rbind].
  rewrite (b16encode_unhexlify t b Hal Hb).
  by apply utf8_decode_ascii.
Qed.

Lemma escape_unescape_witness :
  _unescape_project_name (py "2E2F70726F6A2D61") = Ok (py "./proj-a")
  /\ _escape_project_name (py "./proj-a") = Ok (py "2E2F70726F6A2D61").
Proof.
  split; [reflexivity|].
  apply (escape_unescape (py "2E2F70726F6A2D61") (py "./proj-a")). reflexivity.
Defined.

Lemma b16encode_length b : length (Codec.b16encode b) = (2 * length b)%nat.
Proof.
  unfold Codec.b16encode. induction b as [|x b IH]; [done|].
  cbn [flat_map app length]. rewrite IH. lia.
Qed.

Lemma utf8_encode_length p b :
  Codec.utf8_encode p = Ok b -> (length p <= length b)%nat.
Proof.
  revert b. induction p as [|c p IH]; intros b; cbn [Codec.utf8_encode].
  - intros [= <-]. done.
  - destruct (Codec.utf8_encode_cp c) as [bs|] eqn:Hc; [|done].
    destruct (Codec.utf8_encode p) as [rest|]; [|done]. intros [= <-].
    specialize (IH rest eq_refl). rewrite length_app. simpl.
    assert (1 <= length bs)%nat; [|lia].
    unfold Codec.utf8_encode_cp in Hc.
    repeat match type of Hc with
           | (if ?x then _ else _) = _ => destruct x
           end; try discriminate; injection Hc as <-; simpl; lia.
Qed.

(** X2. An escaped name is made of the characters [0-9A-F] only, two for
    each byte of the UTF-8 form of the name: it holds no slash, and
    [safe_name] does not alter it. *)
Theorem escaped_token_shape (p t : str) :
  _escape_project_name p = Ok t ->
  forallb Codec.is_b16_digit t = true
  /\ (exists b, Codec.utf8_encode p = Ok b /\ length t = (2 * length b)%nat)
  /\ (2 * length p <= length t)%nat
  /\ (slash ∉ t)
  /\ PkgResources.safe_name t = t.
Proof.
  intros Ht. pose proof (escape_alphabet p t Ht) as Hal.
  destruct (Codec.utf8_encode p) as [b|] eqn:Hb;
    [|unfold _escape_project_name in Ht; by rewrite Hb in Ht].
  pose proof (escape_spec p b Hb) as Hspec.
  assert (t = Codec.b16encode b) as Htb by congruence.
  split; [done|]. split; [|split; [|split]].
  - exists b. split; [done|]. by rewrite Htb, b16encode_length.
  - rewrite Htb, b16encode_length. pose proof (utf8_encode_length p b Hb). lia.
  - intros Hin. rewrite forallb_forall in Hal.
    apply list_elem_of_In, Hal in Hin. vm_compute in Hin. discriminate.
  - apply safe_name_safe. rewrite forallb_forall in Hal |- *.
    intros x Hx. by apply b16_digit_safe, Hal.
Qed.

Lemma escaped_token_shape_witness :
  forallb Codec.is_b16_digit (py "2E2F70726F6A2D61") = true
  /\ (exists b, Codec.utf8_encode (py "./proj-a") = Ok b
                /\ length (py "2E2F70726F6A2D61") = (2 * length b)%nat)
  /\ (2 * length (py "./proj-a") <= length (py "2E2F70726F6A2D61"))%nat
  /\ (slash ∉ py "2E2F70726F6A2D61")
  /\ PkgResources.safe_name (py "2E2F70726F6A2D61") = py "2E2F70726F6A2D61".
Proof.
  apply (escaped_token_shape (py "./proj-a") (py "2E2F70726F6A2D61")). reflexivity.
Defined.

(** ** Project names of file-backed distributions *)

Lemma init_project_name cwd modelfile d :
  ModelfileDistribution_init (Ok cwd) modelfile = Ok d ->
  exists p t,
    spec_relative_dir cwd (mf_src modelfile) = Ok p
    /\ _escape_project_name p = Ok t
    /\ mfd_project_name d = modelfile_prefix ++ t
    /\ mfd_modelfile d = modelfile
    /\ mfd_entry_map d = _modelfile_entry_map modelfile.
Proof.
  unfold ModelfileDistribution_init. rewrite modelfile_project_name_spec.
  destruct (spec_relative_dir _ _) as [p|e] eqn:Hp; [|done]. cbn [rbind].
  destruct (_escape_project_name p) as [t|e] eqn:Ht; [|done]. cbn [rbind].
  intros Hd. exists p, t. split; [done|]. split; [done|].
  assert (PkgResources.safe_name (modelfile_prefix ++ t) = modelfile_prefix ++ t)
    as Hsafe.
  { apply safe_name_safe. rewrite forallb_app. apply andb_true_iff. split; [done|].
    pose proof (escape_alphabet p t Ht) as Hal.
    rewrite forallb_forall in Hal |- *. intros x Hx. by apply b16_digit_safe, Hal. }
  rewrite bool_decide_eq_false_2 in Hd by done. rewrite Hsafe in Hd.
  assert (d = {| mfd_location := mf_src modelfile;
                 mfd_project_name := modelfile_prefix ++ t;
                 mfd_modelfile := modelfile;
                 mfd_entry_map := _modelfile_entry_map modelfile |}) as ->
    by congruence.
  done.
Qed.

(** X3. The project name of a file-backed distribution, alone or followed
    by a slash and a model name, is recognized by
    [is_project_name_member], which gives back the directory path the
    name was made from. *)
Theorem distribution_project_name_is_member
    (cwd : str) (modelfile : Modelfile) (d : ModelfileDistribution)
    (rest : option str) :
  ModelfileDistribution_init (Ok cwd) modelfile = Ok d ->
  exists p,
    spec_relative_dir cwd (mf_src modelfile) = Ok p
    /\ is_project_name_member (mfd_project_name d ++ remainder rest)
       = Ok (yes, Some (p ++ remainder rest)).
Proof.
  intros (p & t & Hp & Ht & Hname & _)%init_project_name.
  exists p. split; [done|]. rewrite Hname, <- app_assoc.
  by apply is_project_name_member_escaped.
Qed.

Lemma distribution_project_name_is_member_witness :
  exists p,
    spec_relative_dir example_cwd (mf_src example_modelfile) = Ok p
    /\ is_project_name_member
         (mfd_project_name example_file_dist ++ remainder (Some (py "net")))
       = Ok (yes, Some (p ++ remainder (Some (py "net")))).
Proof.
  apply (distribution_project_name_is_member example_cwd example_modelfile
           example_file_dist (Some (py "net"))).
  vm_compute. reflexivity.
Defined.

Lemma rfind_from_bounds c s i found :
  c ∈ s -> i <= Str.rfind_from c s i found < i + Z.of_nat (length s).
Proof.
  revert i found. induction s as [|x s IH]; intros i found Hin.
  - by apply elem_of_nil in Hin.
  - cbn [Str.rfind_from length]. destruct (decide (c ∈ s)) as [Hs|Hs].
    + specialize (IH (i + 1) (if x =? c then i else found) Hs). lia.
    + rewrite rfind_from_absent by done.
      apply elem_of_cons in Hin as [->|?]; [|done].
      rewrite Z.eqb_refl. lia.
Qed.

Lemma rstrip_nil c s : Str.rstrip c s = [] -> s = replicate (length s) c.
Proof.
  induction s as [|x s IH]; [done|]. cbn [Str.rstrip].
  destruct (Str.rstrip c s) as [|y r] eqn:Hr; [|done].
  destruct (Z.eqb_spec x c) as [->|]; [|done]. intros _.
  simpl. f_equal. by apply IH.
Qed.

Lemma dirname_nil p : Posixpath.dirname p = [] <-> slash ∉ p.
Proof.
  unfold Posixpath.dirname. split.
  - intros Hd Hin. pose proof (rfind_from_bounds slash p 0 (-1) Hin) as Hb.
    fold (Str.rfind slash p) in Hb.
    set (head := take (Z.to_nat (Str.rfind slash p + 1)) p) in *.
    assert (head <> []) as Hne.
    { unfold head. destruct p as [|x p]; [by apply elem_of_nil in Hin|].
      replace (Z.to_nat (Str.rfind slash (x :: p) + 1))
        with (S (Z.to_nat (Str.rfind slash (x :: p)))) by lia.
      done. }
    rewrite (bool_decide_eq_false_2 _ Hne) in Hd. cbn [negb andb] in Hd.
    case_bool_decide as Hall; cbn [negb] in Hd; [done|].
    apply rstrip_nil in Hd. done.
  - intros Hout. unfold Str.rfind. rewrite rfind_from_absent by done. done.
Qed.

Lemma utf8_encode_error p e :
  Codec.utf8_encode p = Raise e -> e = UnicodeEncodeError.
Proof.
  induction p as [|c p IH]; [done|]. cbn [Codec.utf8_encode].
  destruct (Codec.utf8_encode_cp c); [|by intros [= <-]].
  destruct (Codec.utf8_encode p); [done|]. intros [= <-]. by apply IH.
Qed.

Lemma escape_error p e :
  _escape_project_name p = Raise e -> e = UnicodeEncodeError.
Proof.
  destruct (Codec.utf8_encode p) as [b|e'] eqn:Hb.
  - by rewrite (escape_spec p b Hb).
  - unfold _escape_project_name. rewrite Hb. cbn [rbind].
    intros [= <-]. by eapply utf8_encode_error.
Qed.

Lemma escape_encodable p t : _escape_project_name p = Ok t -> encodable p.
Proof.
  unfold _escape_project_name.
  destruct (Codec.utf8_encode p) as [b|e] eqn:Hb; [|done].
  intros _. by eapply utf8_encode_encodable.
Qed.

(** X4. The errors of [_modelfile_project_name]. When the path of the
    definition file holds no slash it raises [ValueError], for the missing
    path, whether there is a working directory or not. Otherwise it asks
    for the working directory, and what [os.getcwd()] raises it raises;
    with a working directory the only error left is that of a path which
    cannot be encoded, and it comes exactly when the relative directory
    cannot. The subscript [pkg_path[0]] never fails. *)
Theorem modelfile_project_name_errors (getcwd : result str) (modelfile : Modelfile) :
  ((slash ∉ mf_src modelfile) ->
     _modelfile_project_name getcwd modelfile
     = Raise (ValueError (py "no path specified")))
  /\ (slash ∈ mf_src modelfile ->
      (forall e, getcwd = Raise e ->
         _modelfile_project_name getcwd modelfile = Raise e)
      /\ (forall cwd, getcwd = Ok cwd ->
            exists p,
              spec_relative_dir cwd (mf_src modelfile) = Ok p
              /\ ((exists e, _modelfile_project_name getcwd modelfile = Raise e)
                  <-> ~ encodable p)
              /\ forall e, _modelfile_project_name getcwd modelfile = Raise e ->
                   e = UnicodeEncodeError)).
Proof.
  split.
  - intros Hd%dirname_nil. unfold _modelfile_project_name, Posixpath.relpath_in.
    rewrite Hd. reflexivity.
  - intros Hin. assert (Posixpath.dirname (mf_src modelfile) <> []) as Hd.
    { intros Hd%dirname_nil. done. }
    split.
    + intros e ->. unfold _modelfile_project_name, Posixpath.relpath_in.
      by rewrite bool_decide_eq_false_2 by done.
    + intros cwd ->. rewrite modelfile_project_name_spec.
      unfold spec_relative_dir, Posixpath.relpath.
      rewrite bool_decide_eq_false_2 by done.
      match goal with
      | |- context [rbind ?r _] =>
          assert (exists r0, r = Ok r0) as [r0 ->] by (destruct (_ ++ _); eauto)
      end.
      cbn [rbind]. eexists. split; [reflexivity|].
      destruct (_escape_project_name _) as [t|e'] eqn:Ht; cbn [rbind].
      * split; [|done]. split; [by intros [e ?]|].
        intros Hne. exfalso. apply Hne. by eapply escape_encodable.
      * apply escape_error in Ht as Heq. subst e'. split.
        -- split; [|by eauto]. intros _ Henc.
           apply escape_total in Henc as [t Ht']. congruence.
        -- by intros e [= <-].
Qed.

Lemma modelfile_project_name_errors_witness :
  _modelfile_project_name (Raise IOError)
    {| mf_src := py "MODEL"; mf_models := [] |}
  = Raise (ValueError (py "no path specified"))
  /\ _modelfile_project_name (Raise IOError)
       example_modelfile
     = Raise IOError.
Proof.
  split.
  - apply (proj1 (modelfile_project_name_errors
                    (Raise IOError)
                    {| mf_src := py "MODEL"; mf_models := [] |})).
    refine (bool_decide_unpack _ _). vm_compute. exact I.
  - apply (proj2 (modelfile_project_name_errors
                    (Raise IOError)
                    example_modelfile)); [|reflexivity].
    refine (bool_decide_unpack _ _). vm_compute. exact I.
Defined.

(** ** The entry map of a file-backed distribution *)

Lemma dict_of_snoc {A} (key : A -> str) (value : A -> EntryPoint) items x :
  dict_of key value (items ++ [x]) = <[key x := value x]> (dict_of key value items).
Proof. unfold dict_of. by rewrite foldl_app. Qed.

Lemma dict_of_lookup_Some {A} (key : A -> str) (value : A -> EntryPoint) items k v :
  dict_of key value items !! k = Some v ->
  exists x, x ∈ items /\ key x = k /\ v = value x.
Proof.
  induction items as [|x items IH] using rev_ind.
  - unfold dict_of. simpl. by rewrite lookup_empty.
  - rewrite dict_of_snoc. destruct (decide (key x = k)) as [<-|Hne].
    + rewrite lookup_insert_eq. intros [= <-]. exists x.
      split; [apply elem_of_app; right; by left|done].
    + rewrite lookup_insert_ne by done. intros (y & Hy & Hk & Hv)%IH.
      exists y. split; [apply elem_of_app; by left|done].
Qed.

Lemma dict_of_lookup_is_Some {A} (key : A -> str) (value : A -> EntryPoint) items x :
  x ∈ items -> is_Some (dict_of key value items !! key x).
Proof.
  induction items as [|y items IH] using rev_ind.
  - by intros ?%elem_of_nil.
  - rewrite dict_of_snoc. intros [Hin|Hin%list_elem_of_singleton]%elem_of_app.
    + destruct (decide (key y = key x)) as [->|Hne].
      * rewrite lookup_insert_eq. eauto.
      * rewrite lookup_insert_ne by done. by apply IH.
    + subst y. rewrite lookup_insert_eq. eauto.
Qed.

Lemma first_named_is_Some name l :
  is_Some (first_named name l) <-> exists m, m ∈ l /\ md_name m = name.
Proof.
  split.
  - intros [m Hm]. apply first_named_Some in Hm as (l1 & l2 & -> & Hn & _).
    exists m. split; [|done]. apply elem_of_app. right. by left.
  - intros (m & Hin & Hn).
    destruct (first_named name l) as [m'|] eqn:Hf; [eauto|].
    apply first_named_None in Hf. rewrite Forall_forall in Hf.
    by destruct (Hf m Hin).
Qed.

(** X5. In the entry map of a file-backed distribution the group
    [guild.models] has an entry under a name exactly when [get_model]
    finds a definition of that name; the entry bears the name and points
    to [guild.model:Model]. A group other than the two of the map is
    empty. *)
Theorem entry_map_models (cwd : str) (modelfile : Modelfile)
    (d : ModelfileDistribution) (name : str) :
  ModelfileDistribution_init (Ok cwd) modelfile = Ok d ->
  (is_Some (get_entry_map d (py "guild.models") !! name)
   <-> exists m, get_model d name = Ok m)
  /\ (forall ep, get_entry_map d (py "guild.models") !! name = Some ep ->
        ep = {| ep_name := name; ep_module_name := py "guild.model";
                ep_attrs := [py "Model"] |})
  /\ (forall group, group <> py "guild.models" -> group <> py "guild.resources" ->
        get_entry_map d group = ∅).
Proof.
  intros (p & t & _ & _ & _ & Hmf & Hmap)%init_project_name.
  unfold get_entry_map. rewrite Hmap. unfold _modelfile_entry_map.
  assert (py "guild.resources" <> py "guild.models") as Hgr by (by vm_compute).
  split; [|split].
  - rewrite lookup_insert_ne, lookup_insert_eq by done. cbn [default].
    unfold get_model. rewrite Hmf. split.
    + intros [ep (m & Hin & Hk & _)%dict_of_lookup_Some].
      assert (is_Some (first_named name (mf_models modelfile))) as [m' ->]
        by (apply first_named_is_Some; eauto).
      eauto.
    + intros [m Hm].
      destruct (first_named name (mf_models modelfile)) as [m'|] eqn:Hf; [|done].
      assert (is_Some (first_named name (mf_models modelfile))) as Hs by eauto.
      apply first_named_is_Some in Hs as (m0 & Hin & <-).
      by apply dict_of_lookup_is_Some.
  - intros ep. rewrite lookup_insert_ne, lookup_insert_eq by done. cbn [default].
    intros (m & _ & <- & ->)%dict_of_lookup_Some. done.
  - intros group Hg1 Hg2.
    rewrite !lookup_insert_ne, lookup_empty by done. done.
Qed.

Lemma entry_map_models_witness :
  (is_Some (get_entry_map example_file_dist (py "guild.models") !! py "net")
   <-> exists m, get_model example_file_dist (py "net") = Ok m)
  /\ get_entry_map example_file_dist (py "guild.tools") = ∅.
Proof.
  destruct (entry_map_models example_cwd example_modelfile example_file_dist
              (py "net")) as (Hiff & _ & Hother).
  { vm_compute. reflexivity. }
  split; [exact Hiff|]. apply Hother; vm_compute; discriminate.
Defined.

(** X6. The group [guild.resources] has an entry under a name exactly
    when some definition of the file declares a resource of that name,
    and the entry points to [guild.resource:Resource]. *)
Theorem entry_map_resources (cwd : str) (modelfile : Modelfile)
    (d : ModelfileDistribution) (name : str) :
  ModelfileDistribution_init (Ok cwd) modelfile = Ok d ->
  (is_Some (get_entry_map d (py "guild.resources") !! name)
   <-> exists m r, m ∈ mf_models modelfile /\ r ∈ md_resources m
                   /\ res_name r = name)
  /\ (forall ep, get_entry_map d (py "guild.resources") !! name = Some ep ->
        ep = {| ep_name := name; ep_module_name := py "guild.resource";
                ep_attrs := [py "Resource"] |}).
Proof.
  intros (p & t & _ & _ & _ & Hmf & Hmap)%init_project_name.
  unfold get_entry_map. rewrite Hmap. unfold _modelfile_entry_map.
  rewrite lookup_insert_eq. cbn [default]. unfold _iter_resources. split.
  - split.
    + intros [ep (r & Hin & Hk & _)%dict_of_lookup_Some].
      apply list_elem_of_In, in_flat_map in Hin as (m & Hm & Hr).
      exists m, r. by rewrite !list_elem_of_In.
    + intros (m & r & Hm & Hr & <-).
      apply (dict_of_lookup_is_Some res_name).
      apply list_elem_of_In, in_flat_map. exists m. by rewrite <- !list_elem_of_In.
  - intros ep (r & _ & <- & ->)%dict_of_lookup_Some. done.
Qed.

Lemma entry_map_resources_witness :
  is_Some (get_entry_map example_res_dist (py "guild.resources") !! py "data").
Proof.
  apply (proj1 (entry_map_resources example_cwd example_modelfile_res
                  example_res_dist (py "data") eq_refl)).
  exists {| md_name := py "net"; md_private := false;
            md_resources := [ {| res_name := py "data" |} ] |},
         {| res_name := py "data" |}.
  split; [apply list_elem_of_singleton; reflexivity|].
  split; [apply list_elem_of_singleton; reflexivity|reflexivity].
Defined.

Section EntryPointFacts.
Variable host : Host.

(** X7. A model can be made from every entry of the group [guild.models]
    of a file-backed distribution: [Model.__init__] finds a definition
    with the name of the entry, reads nothing and logs nothing. *)
Theorem model_init_from_entry (cwd : str) (modelfile : Modelfile)
    (d : ModelfileDistribution) (name : str) (s : state) :
  ModelfileDistribution_init (Ok cwd) modelfile = Ok d ->
  is_Some (get_entry_map d (py "guild.models") !! name) ->
  exists model,
    Model_init host name (ModelfileDist d) s = (Ok model, s)
    /\ model_name model = name
    /\ md_name (model_modeldef model) = name
    /\ first_match name (mf_models modelfile) (model_modeldef model).
Proof.
  intros Hinit [ep Hep].
  pose proof Hinit as (p & t & _ & _ & _ & Hmf & Hmap)%init_project_name.
  unfold get_entry_map in Hep. rewrite Hmap in Hep. unfold _modelfile_entry_map in Hep.
  assert (py "guild.resources" <> py "guild.models") as Hgr by (by vm_compute).
  rewrite lookup_insert_ne, lookup_insert_eq in Hep by done. cbn [default] in Hep.
  apply dict_of_lookup_Some in Hep as (m0 & Hin & Hk & _).
  assert (is_Some (first_named name (mf_models modelfile))) as [m Hm]
    by (apply first_named_is_Some; eauto).
  exists {| model_name := name; model_dist := ModelfileDist d; model_modeldef := m |}.
  split.
  - unfold Model_init, _modeldef_for_dist, bind, lift, get_model.
    rewrite Hmf, Hm. reflexivity.
  - cbn [model_name model_modeldef].
    apply first_named_Some in Hm as Hfm. split; [done|]. split; [|done].
    by destruct Hfm as (? & ? & _ & ? & _).
Qed.

End EntryPointFacts.

Lemma model_init_from_entry_witness :
  exists model,
    Model_init example_host (py "debug-net") (ModelfileDist example_file_dist)
      initial_state = (Ok model, initial_state)
    /\ model_name model = py "debug-net"
    /\ md_name (model_modeldef model) = py "debug-net"
    /\ first_match (py "debug-net") (mf_models example_modelfile)
         (model_modeldef model).
Proof.
  apply (model_init_from_entry example_host example_cwd example_modelfile
           example_file_dist (py "debug-net") initial_state).
  - vm_compute. reflexivity.
  - vm_compute. eauto.
Defined.

(** ** Effects of loading *)

Section LoadFacts.
Variable host : Host.

(** X8. [_load_dist_modeldefs] asks for the manifest once and then hands
    to the parser exactly the matched files, once each and in manifest
    order; it sets no attribute and leaves the registry alone. An
    exception of the manifest read other than [IOError] is not caught:
    it is raised to the caller and nothing is logged. *)
Theorem load_dist_modeldefs_effects (dist : PackageDistribution) (s : state) :
  let out := _load_dist_modeldefs host dist s in
  st_attrs out.2 = st_attrs s
  /\ st_models out.2 = st_models s
  /\ match pd_metadata_lines dist (py "RECORD") with
     | Ok record =>
         st_io out.2
         = st_io s ++ GetMetadataLines (pd_id dist) (py "RECORD")
                      :: map FromFile (matched_paths host dist record)
     | Raise e =>
         st_io out.2 = st_io s ++ [GetMetadataLines (pd_id dist) (py "RECORD")]
         /\ (e <> IOError -> out.1 = Raise e /\ st_warnings out.2 = st_warnings s)
     end.
Proof.
  destruct (pd_metadata_lines dist (py "RECORD")) as [record|e] eqn:Hrec.
  - rewrite (load_dist_modeldefs_record host dist record s Hrec).
    cbn [fst snd log_loads io st_attrs st_models st_io].
    split; [done|]. split; [done|]. by rewrite <- app_assoc.
  - unfold _load_dist_modeldefs, try_except_else, get_metadata_lines, bind, lift.
    cbn [io fst snd]. rewrite Hrec.
    destruct e; cbn [fst snd logging_warning ret st_attrs st_models st_io st_warnings];
      repeat split; try done.
Qed.

(** X9. While the attribute [_modelefs] is unset, as it is unless some
    other code sets it, [_ensure_dist_modeldefs] on a distribution with a
    readable manifest answers with the definitions of the matched files
    that parse, stores that list under [_modeldefs], touches no other
    attribute, and leaves [_modelefs] unset. *)
Theorem ensure_dist_modeldefs_loads (dist : PackageDistribution)
    (record : list str) (s : state) :
  st_attrs s !! (pd_id dist, "_modelefs") = None ->
  pd_metadata_lines dist (py "RECORD") = Ok record ->
  let out := _ensure_dist_modeldefs host dist s in
  let modeldefs := loaded host (matched_paths host dist record) in
  out.1 = Ok modeldefs
  /\ st_attrs out.2 = <[(pd_id dist, "_modeldefs") := modeldefs]> (st_attrs s)
  /\ st_attrs out.2 !! (pd_id dist, "_modelefs") = None
  /\ getattr dist "_modeldefs" out.2 = (Ok modeldefs, out.2).
Proof.
  intros Hno Hrec out modeldefs. unfold out.
  rewrite (ensure_dist_modeldefs_always_loads host dist s Hno).
  rewrite (load_dist_modeldefs_record host dist record s Hrec).
  cbn [fst snd setattr log_loads io st_attrs].
  split; [done|]. split; [done|]. split.
  - rewrite lookup_insert_ne by (intros [= ?]; done). done.
  - unfold getattr. cbn [st_attrs]. by rewrite lookup_insert_eq.
Qed.

End LoadFacts.

Lemma load_dist_modeldefs_effects_witness :
  (_load_dist_modeldefs example_host example_dist_denied initial_state).1
  = Raise (OtherError (py "no such metadata"))
  /\ st_warnings (_load_dist_modeldefs example_host example_dist_denied initial_state).2
     = [].
Proof.
  pose proof (load_dist_modeldefs_effects example_host example_dist_denied
                initial_state) as (_ & _ & _ & Hraise).
  apply Hraise. discriminate.
Defined.

Lemma ensure_dist_modeldefs_loads_witness :
  (_ensure_dist_modeldefs example_host example_dist initial_state).1
  = Ok [net; debug_net; net]
  /\ st_attrs (_ensure_dist_modeldefs example_host example_dist initial_state).2
       !! (1%nat, "_modelefs") = None.
Proof.
  destruct (ensure_dist_modeldefs_loads example_host example_dist
              [py "demo/MODEL,sha256=ab12,120";
               py "demo/__init__.py,,";
               py "demo/broken/MODEL,sha256=cd34,7";
               py "demo/extra/MODELS,sha256=ef56,64"] initial_state)
    as (Hres & _ & Hno & _); [reflexivity..|].
  split; [|exact Hno]. rewrite Hres. vm_compute. reflexivity.
Defined.

(** ** The search path *)

Lemma add_model_path_run r s :
  add_model_path r s
  = (Ok tt, with_models {| epr_path := r :: without_first r (epr_path (st_models s));
                           epr_index := None |} s).
Proof. reflexivity. Qed.

Lemma without_first_head r l : without_first r (r :: l) = l.
Proof.
  unfold without_first. cbn [list_remove].
  by rewrite (proj2 (str_eqb_eq r r)) by done.
Qed.

Lemma without_first_cons_ne x y l :
  y <> x -> without_first x (y :: l) = y :: without_first x l.
Proof.
  intros Hne. unfold without_first. cbn [list_remove].
  rewrite (proj2 (str_eqb_neq y x)) by done.
  by destruct (list_remove x l).
Qed.

(** X10. Adding the same root twice in a row is the same as adding it
    once: the whole state after the second call is the state after the
    first. *)
Theorem add_model_path_idempotent (r : str) (s : state) :
  add_model_path r (add_model_path r s).2 = add_model_path r s.
Proof.
  rewrite !add_model_path_run. cbn [snd with_models st_models epr_path].
  by rewrite without_first_head.
Qed.

Lemma without_first_elem x r l :
  x ∈ without_first r l -> x ∈ l.
Proof.
  induction l as [|y l IH]; [done|].
  destruct (decide (y = r)) as [->|Hne].
  - rewrite without_first_head. by right.
  - rewrite without_first_cons_ne by done.
    intros [->|Hx]%elem_of_cons; [by left|right; by apply IH].
Qed.

Lemma without_first_keeps x r l :
  x ∈ l -> x <> r -> x ∈ without_first r l.
Proof.
  induction l as [|y l IH]; [done|]. intros Hin Hne.
  destruct (decide (y = r)) as [->|Hyr].
  - rewrite without_first_head. apply elem_of_cons in Hin as [->|?]; done.
  - rewrite without_first_cons_ne by done.
    apply elem_of_cons in Hin as [->|?]; [by left|right; by apply IH].
Qed.

Lemma without_first_length r l :
  length (without_first r l)
  = (if bool_decide (r ∈ l) then length l - 1 else length l)%nat.
Proof.
  induction l as [|y l IH].
  - by rewrite bool_decide_eq_false_2 by apply not_elem_of_nil.
  - destruct (decide (y = r)) as [->|Hyr].
    + rewrite without_first_head.
      rewrite bool_decide_eq_true_2 by (by left). simpl. lia.
    + rewrite without_first_cons_ne by done. cbn [length]. rewrite IH.
      destruct (decide (r ∈ l)) as [Hin|Hout].
      * rewrite !bool_decide_eq_true_2 by (done || by right).
        destruct l; [by apply elem_of_nil in Hin|]. simpl. lia.
      * rewrite !bool_decide_eq_false_2; [done| |done].
        intros [?|?]%elem_of_cons; congruence.
Qed.

(** X11. [add_model_path] loses no root and adds none but its argument:
    the entries after the call are the argument and the entries before.
    The path grows by one when the root is new and keeps its length
    otherwise. *)
Theorem add_model_path_entries (r : str) (s : state) :
  let before := epr_path (st_models s) in
  let after := epr_path (st_models (add_model_path r s).2) in
  (forall x, x ∈ after <-> x = r \/ x ∈ before)
  /\ length after
     = (if bool_decide (r ∈ before) then length before else S (length before))%nat.
Proof.
  rewrite add_model_path_run. cbn [snd with_models st_models epr_path].
  split.
  - intros x. rewrite elem_of_cons. split.
    + intros [->|Hx]; [by left|right; by eapply without_first_elem].
    + intros [->|Hx]; [by left|].
      destruct (decide (x = r)) as [->|Hne]; [by left|].
      right. by apply without_first_keeps.
  - cbn [length]. rewrite without_first_length.
    case_bool_decide as Hin; [|done].
    destruct (epr_path (st_models s)); [by apply elem_of_nil in Hin|]. simpl. lia.
Qed.

(** X12. The root added last comes first: after adding [a] and then a
    different root [b] the path starts with [b] and [a], and the other
    entries follow in the order they had. *)
Theorem add_model_path_twice (a b : str) (s : state) :
  a <> b ->
  let before := epr_path (st_models s) in
  let after := epr_path (st_models (add_model_path b (add_model_path a s).2).2) in
  after = b :: a :: without_first b (without_first a before)
  /\ filter (fun x => x <> a /\ x <> b) after
     = filter (fun x => x <> a /\ x <> b) before.
Proof.
  intros Hab. rewrite !add_model_path_run.
  cbn [snd with_models st_models epr_path].
  rewrite without_first_cons_ne by done. split; [done|].
  rewrite !filter_cons_False by (intros [? ?]; done).
  assert (forall x l, filter (fun y => y <> a /\ y <> b) (without_first x l)
                      = filter (fun y => y <> a /\ y <> b) l
                      \/ (x <> a /\ x <> b)) as Hf.
  { intros x l. destruct (decide (x <> a /\ x <> b)) as [?|Hx]; [by right|left].
    induction l as [|y l IH]; [done|].
    destruct (decide (y = x)) as [->|Hyx].
    - rewrite without_first_head. by rewrite filter_cons_False.
    - rewrite without_first_cons_ne by done. by rewrite !filter_cons, IH. }
  destruct (Hf b (without_first a (epr_path (st_models s)))) as [->|[_ ?]]; [|done].
  destruct (Hf a (epr_path (st_models s))) as [->|[? _]]; done.
Qed.

Lemma add_model_path_twice_witness :
  epr_path (st_models
    (add_model_path (py "./proj-b")
       (add_model_path (py "./proj-a")
          (with_models {| epr_path := [py "./x"; py "./proj-b"; py "./proj-a"];
                          epr_index := None |} initial_state)).2).2)
  = [py "./proj-b"; py "./proj-a"; py "./x"].
Proof.
  destruct (add_model_path_twice (py "./proj-a") (py "./proj-b")
              (with_models {| epr_path := [py "./x"; py "./proj-b"; py "./proj-a"];
                              epr_index := None |} initial_state))
    as [Hafter _]; [vm_compute; discriminate|].
  cbv zeta in Hafter. rewrite Hafter. vm_compute. reflexivity.
Defined.

(** ** The importer *)

Lemma finds_modelfile_spec names path_names :
  finds_modelfile names path_names = true
  <-> exists n, n ∈ names /\ n ∈ path_names.
Proof.
  induction names as [|n names IH]; cbn [finds_modelfile].
  - split; [done|]. intros (n & Hn & _). by apply elem_of_nil in Hn.
  - case_bool_decide as Hin.
    + split; [|done]. intros _. exists n. split; [by left|done].
    + rewrite IH. split.
      * intros (m & Hm & Hp). exists m. split; [by right|done].
      * intros (m & [->|Hm]%elem_of_cons & Hp); [done|eauto].
Qed.

(** X13. [ModelImporter(path)] is made exactly for a directory whose
    listing holds one of the recognized names. It raises
    [ModelImportError], with that path, exactly for a path that is not a
    directory and for a directory whose listing holds none of the names;
    and when the directory cannot be listed, what [os.listdir] raises
    reaches the caller as it is. *)
Theorem model_importer_accepts (fs : FsHost) (names : list str) (path : str) :
  (ModelImporter_init fs names path = Importer
   <-> isdir fs path = true
       /\ exists path_names, listdir fs path = Ok path_names
            /\ exists n, n ∈ names /\ n ∈ path_names)
  /\ (forall p, ModelImporter_init fs names path = ModelImportError p
      <-> p = path
          /\ (isdir fs path = false
              \/ exists path_names, listdir fs path = Ok path_names
                   /\ forall n, n ∈ names -> n ∉ path_names))
  /\ (forall e, ModelImporter_init fs names path = Propagates e
      <-> isdir fs path = true /\ listdir fs path = Raise e).
Proof.
  unfold ModelImporter_init. destruct (isdir fs path); cbn [negb].
  - destruct (listdir fs path) as [path_names|e0].
    + destruct (finds_modelfile names path_names) eqn:Hf.
      * apply finds_modelfile_spec in Hf. split; [|split].
        -- split; [|done]. intros _. split; [done|]. by exists path_names.
        -- intros p. split; [done|].
           intros [_ [?|(l & [= <-] & Hnone)]]; [done|].
           destruct Hf as (n & Hn & Hin). by destruct (Hnone n Hn).
        -- intros e. split; [done|]. by intros [_ ?].
      * split; [|split].
        -- split; [done|]. intros [_ (l & [= <-] & Hex%finds_modelfile_spec)].
           congruence.
        -- intros p. split.
           ++ intros [= <-]. split; [done|]. right. exists path_names.
              split; [done|]. intros n Hn Hin.
              assert (finds_modelfile names path_names = true) as Ht
                by (apply finds_modelfile_spec; eauto).
              congruence.
           ++ by intros [-> _].
        -- intros e. split; [done|]. by intros [_ ?].
    + split; [|split].
      * split; [done|]. by intros [_ (l & ? & _)].
      * intros p. split; [done|]. intros [_ [?|(l & ? & _)]]; done.
      * intros e. split; [by intros [= <-]|]. by intros [_ [= <-]].
  - split; [|split].
    + split; [done|]. by intros [? _].
    + intros p. split; [intros [= <-]; split; [done|by left]|by intros [-> _]].
    + intros e. split; [done|]. by intros [? _].
Qed.

Lemma model_importer_accepts_witness :
  ModelImporter_init example_fs [py "MODEL"; py "MODELS"] (py "./proj-a") = Importer
  /\ ModelImporter_init example_fs [py "MODEL"; py "MODELS"] (py "./proj-b")
     = ModelImportError (py "./proj-b")
  /\ ModelImporter_init example_fs [py "MODEL"; py "MODELS"] (py "./locked")
     = Propagates (OtherError (py "Permission denied")).
Proof.
  split; [|split].
  - apply (proj1 (model_importer_accepts example_fs [py "MODEL"; py "MODELS"]
                    (py "./proj-a"))).
    split; [reflexivity|]. exists [py "README"; py "MODEL"].
    split; [reflexivity|]. exists (py "MODEL").
    split; refine (bool_decide_unpack _ _); vm_compute; exact I.
  - apply (proj1 (proj2 (model_importer_accepts example_fs [py "MODEL"; py "MODELS"]
                           (py "./proj-b")))).
    split; [reflexivity|]. left. reflexivity.
  - apply (proj2 (proj2 (model_importer_accepts example_fs [py "MODEL"; py "MODELS"]
                           (py "./locked")))).
    split; reflexivity.
Defined.

(** ** Decoding flag values *)

Section DecodeFacts.
Variable host : FlagHost.

(** X14. [decode_flag_val] never raises [ValueError]: a text that is
    neither a number nor readable as YAML comes back as it is. *)
Theorem decode_flag_val_no_value_error (s : str) (e : exn) :
  decode_flag_val host s = Raise e -> is_ValueError e = false.
Proof.
  rewrite decode_flag_val_unfold. case_bool_decide; [done|].
  destruct (py_int host s) as [n|e0]; [done|].
  destruct (is_ValueError e0) eqn:He0.
  - destruct (_yaml_parse host s) as [v|e1]; [done|].
    destruct (is_ValueError_or_YAMLError e1) eqn:He1; [done|].
    intros [= <-]. by destruct e1.
  - by intros [= <-].
Qed.




















(** X17. No two of the values [True], [False], [None] and the integers
    are encoded alike. *)
Theorem encode_scalar_literal_injective (v w : pyval) :
  is_scalar_literal v = true -> is_scalar_literal w = true ->
  encode_flag_val host v = encode_flag_val host w -> v = w.
Proof.
  assert (forall n word, head word <> Some 45 ->
            (forall c, head word = Some c -> PyStr.is_digit c = false) ->
            PyStr.str_of_int n <> word) as Hnum.
  { intros n word Hm Hd Heq. subst word. unfold PyStr.str_of_int in *.
    destruct (Z.ltb_spec n 0); [by apply Hm|].
    destruct (digits_spec n ltac:(lia)) as (Hall & Hne & _).
    destruct (PyStr.digits n) as [|c ds]; [done|].
    cbn [forallb] in Hall. apply andb_true_iff in Hall as [Hc _].
    by rewrite (Hd c eq_refl) in Hc. }
  assert (forall n m, PyStr.str_of_int n = PyStr.str_of_int m -> n = m) as Hinj.
  { intros n m Heq. pose proof (int_ascii_str_of_int n) as Hn.
    rewrite Heq, int_ascii_str_of_int in Hn. congruence. }
  intros Hv Hw.
  destruct v as [[|]| |n| | | |]; try discriminate Hv;
    destruct w as [[|]| |m| | | |]; try discriminate Hw;
    cbn [encode_flag_val]; intros Heq; try done;
    try (by vm_compute in Heq);
    try (exfalso; revert Heq; apply Hnum; [by vm_compute|];
         intros c [= <-]; reflexivity);
    try (exfalso; symmetry in Heq; revert Heq; apply Hnum; [by vm_compute|];
         intros c [= <-]; reflexivity).
  f_equal. by apply Hinj.
Qed.

End DecodeFacts.




Lemma decode_flag_val_no_value_error_witness :
  decode_flag_val
    {| yaml_safe_dump := fun _ => [];
       yaml_safe_load := fun _ => Raise (OtherError (py "constructor failed"));
       py_float := fun _ => Raise (ValueError []);
       py_int_unicode := fun s => Raise (ValueError s) |}
    (py "a: b") = Raise (OtherError (py "constructor failed"))
  /\ is_ValueError (OtherError (py "constructor failed")) = false.
Proof.
  split; [vm_compute; reflexivity|].
  apply (decode_flag_val_no_value_error
           {| yaml_safe_dump := fun _ => [];
              yaml_safe_load := fun _ => Raise (OtherError (py "constructor failed"));
              py_float := fun _ => Raise (ValueError []);
              py_int_unicode := fun s => Raise (ValueError s) |}
           (py "a: b")).
  vm_compute. reflexivity.
Defined.

Lemma encode_scalar_literal_injective_witness :
  encode_flag_val example_flag_host (VInt 7) = encode_flag_val example_flag_host (VInt 7)
  /\ VInt 7 = VInt 7.
Proof.
  split; [reflexivity|].
  apply (encode_scalar_literal_injective example_flag_host (VInt 7) (VInt 7));
    reflexivity.
Defined.

(** ** Formatting flags *)

Lemma slice_to_prefix k s : slice_to k s `prefix_of` s.
Proof. unfold slice_to. destruct (0 <=? k); apply prefix_take. Qed.

Lemma maybe_truncate_dec_part_cases (part : str) (trunc_len : Z) :
  (take 1 part <> [dot] -> _maybe_truncate_dec_part part trunc_len = part)
  /\ (take 1 part = [dot] -> 0 <= trunc_len ->
      _maybe_truncate_dec_part part trunc_len = take (S (Z.to_nat trunc_len)) part)
  /\ _maybe_truncate_dec_part part trunc_len `prefix_of` part.
Proof.
  unfold _maybe_truncate_dec_part. split; [|split].
  - intros Hne. by rewrite bool_decide_eq_false_2.
  - intros Hdot Hn. rewrite bool_decide_eq_true_2 by done. cbn [negb].
    destruct (Z.leb_spec (Z.of_nat (length part)) trunc_len).
    + symmetry. apply take_ge. lia.
    + unfold slice_to. rewrite (proj2 (Z.leb_le 0 (trunc_len + 1))) by lia.
      f_equal. lia.
  - case_bool_decide; cbn [negb]; [|done].
    destruct (_ <=? _); [done|apply slice_to_prefix].
Qed.

(** X18. [_maybe_truncate_dec_part] gives back a part that does not start
    with a dot; of a part that does, it keeps the dot and the first
    [trunc_len] characters after it, for a length that is not negative.
    Whatever the length, the result is a prefix of the part. *)
Theorem maybe_truncate_dec_part_spec (part : str) (trunc_len : Z) :
  (take 1 part <> [dot] -> _maybe_truncate_dec_part part trunc_len = part)
  /\ (take 1 part = [dot] -> 0 <= trunc_len ->
      _maybe_truncate_dec_part part trunc_len = take (S (Z.to_nat trunc_len)) part)
  /\ _maybe_truncate_dec_part part trunc_len `prefix_of` part.
Proof. apply maybe_truncate_dec_part_cases. Qed.

Lemma maybe_truncate_dec_part_spec_witness :
  _maybe_truncate_dec_part (py "e-05") 2 = py "e-05"
  /\ _maybe_truncate_dec_part (py ".123456") 2 = py ".12".
Proof.
  pose proof (maybe_truncate_dec_part_spec (py "e-05") 2) as (Hkeep & _ & _).
  pose proof (maybe_truncate_dec_part_spec (py ".123456") 2) as (_ & Hcut & _).
  split; [apply Hkeep; vm_compute; discriminate|].
  rewrite Hcut; [reflexivity|reflexivity|lia].
Defined.

Lemma split_decimals_concat s text in_dec :
  concat (split_decimals s text in_dec) = rev text ++ s.
Proof.
  revert text in_dec. induction s as [|c s IH]; intros text in_dec.
  - cbn [split_decimals]. destruct in_dec; cbn [concat]; by rewrite ?app_nil_r.
  - cbn [split_decimals].
    destruct (in_dec && PyStr.is_digit c) eqn:Hd.
    + rewrite IH. cbn [rev]. by rewrite <- app_assoc.
    + destruct ((c =? dot) && _) eqn:Hm.
      * rewrite concat_app. cbn [concat]. rewrite IH.
        destruct in_dec; cbn [concat rev app]; by rewrite ?app_nil_r, <- ?app_assoc.
      * rewrite concat_app, IH.
        destruct in_dec; cbn [concat rev app]; by rewrite ?app_nil_r, <- ?app_assoc.
Qed.

Lemma split_decimals_no_dot s text :
  dot ∉ s -> split_decimals s text false = [rev text ++ s].
Proof.
  revert text. induction s as [|c s IH]; intros text Hs.
  - cbn [split_decimals]. by rewrite app_nil_r.
  - apply not_elem_of_cons in Hs as [Hc Hs]. cbn [split_decimals andb].
    rewrite (proj2 (Z.eqb_neq c dot)) by congruence. cbn [andb app].
    rewrite IH by done. cbn [rev]. by rewrite <- app_assoc.
Qed.

Lemma concat_prefixes_sublist (f : str -> str) parts :
  (forall p, f p `prefix_of` p) -> concat (map f parts) `sublist_of` concat parts.
Proof.
  intros Hf. induction parts as [|p parts IH]; [done|].
  cbn [map concat]. apply sublist_app; [|done].
  destruct (Hf p) as [k Hk]. rewrite Hk at 2. apply sublist_inserts_r. done.
Qed.

Lemma elem_of_concat_length (p : str) parts :
  p ∈ parts -> (length p <= length (concat parts))%nat.
Proof.
  induction parts as [|q parts IH]; [by intros ?%elem_of_nil|].
  cbn [concat]. rewrite length_app.
  intros [->|Hin]%elem_of_cons; [lia|]. specialize (IH Hin). lia.
Qed.

(** X19. [_truncate_formatted_float] only ever drops characters: the
    result is the text with some characters left out, in the same order.
    Nothing is dropped from a text without a dot, nor when [trunc_len] is
    at least the length of the text. *)
Theorem truncate_formatted_float_drops (s : str) (trunc_len : Z) :
  _truncate_formatted_float s trunc_len `sublist_of` s
  /\ (dot ∉ s -> _truncate_formatted_float s trunc_len = s)
  /\ (Z.of_nat (length s) <= trunc_len -> _truncate_formatted_float s trunc_len = s).
Proof.
  unfold _truncate_formatted_float. split; [|split].
  - rewrite <- (split_decimals_concat s [] false) at 2.
    apply concat_prefixes_sublist. intros p.
    apply maybe_truncate_dec_part_cases.
  - intros Hs. rewrite split_decimals_no_dot by done. cbn [rev app map concat].
    rewrite app_nil_r.
    apply maybe_truncate_dec_part_cases. destruct s as [|c s]; [done|].
    apply not_elem_of_cons in Hs as [Hc _]. cbn. congruence.
  - intros Hn. rewrite <- (split_decimals_concat s [] false) at 2.
    f_equal. rewrite <- (map_id (split_decimals s [] false)) at 2.
    apply map_ext_in. intros p Hp%list_elem_of_In.
    apply elem_of_concat_length in Hp. rewrite split_decimals_concat in Hp.
    cbn [rev app] in Hp. unfold _maybe_truncate_dec_part.
    destruct (negb _); [done|].
    by rewrite (proj2 (Z.leb_le (Z.of_nat (length p)) trunc_len)) by lia.
Qed.

Lemma truncate_formatted_float_drops_witness :
  _truncate_formatted_float (py "1e-05") 2 = py "1e-05"
  /\ _truncate_formatted_float (py "1.25") 4 = py "1.25".
Proof.
  pose proof (truncate_formatted_float_drops (py "1e-05") 2) as (_ & Hdot & _).
  pose proof (truncate_formatted_float_drops (py "1.25") 4) as (_ & _ & Hlen).
  split; [apply Hdot|apply Hlen; vm_compute; discriminate].
  refine (bool_decide_unpack _ _). vm_compute. exact I.
Defined.

Lemma split_decimals_text int_part rest text :
  dot ∉ int_part ->
  split_decimals (int_part ++ rest) text false
  = split_decimals rest (rev int_part ++ text) false.
Proof.
  revert text. induction int_part as [|c l IH]; intros text Hs; [done|].
  apply not_elem_of_cons in Hs as [Hc Hs]. cbn [app split_decimals andb].
  rewrite (proj2 (Z.eqb_neq c dot)) by congruence. cbn [andb app].
  rewrite IH by done. cbn [rev]. by rewrite <- app_assoc.
Qed.

Lemma split_decimals_digits frac rest text :
  forallb PyStr.is_digit frac = true ->
  split_decimals (frac ++ rest) text true
  = split_decimals rest (rev frac ++ text) true.
Proof.
  revert text. induction frac as [|c l IH]; intros text Hd; [done|].
  cbn [forallb] in Hd. apply andb_true_iff in Hd as [Hc Hd].
  cbn [app split_decimals andb]. rewrite Hc. rewrite IH by done.
  cbn [rev]. by rewrite <- app_assoc.
Qed.

(** X20. Of a numeral made of an integer part, a dot, a fraction of one
    or more digits and a rest without a dot that starts with no digit,
    [_truncate_formatted_float] cuts the fraction to [trunc_len] digits
    and keeps everything else. *)
Theorem truncate_formatted_float_decimal
    (int_part frac rest : str) (trunc_len : Z) :
  0 <= trunc_len ->
  dot ∉ int_part ->
  forallb PyStr.is_digit frac = true -> frac <> [] ->
  dot ∉ rest ->
  (forall c, head rest = Some c -> PyStr.is_digit c = false) ->
  _truncate_formatted_float (int_part ++ dot :: frac ++ rest) trunc_len
  = int_part ++ dot :: take (Z.to_nat trunc_len) frac ++ rest.
Proof.
  intros Hn Hint Hfrac Hne Hrest Hhead. unfold _truncate_formatted_float.
  assert (split_decimals (int_part ++ dot :: frac ++ rest) [] false
          = [int_part; dot :: frac; rest]) as ->.
  { rewrite split_decimals_text by done. rewrite app_nil_r.
    destruct frac as [|d frac]; [done|].
    cbn [forallb] in Hfrac. apply andb_true_iff in Hfrac as [Hd Hfrac].
    cbn [app split_decimals andb]. rewrite Z.eqb_refl, Hd. cbn [andb app].
    rewrite rev_involutive. f_equal.
    rewrite split_decimals_digits by done.
    destruct rest as [|c rest].
    - cbn [split_decimals]. rewrite rev_app_distr, rev_involutive. done.
    - cbn [split_decimals]. rewrite (Hhead c eq_refl). cbn [andb].
      apply not_elem_of_cons in Hrest as [Hc Hrest].
      rewrite (proj2 (Z.eqb_neq c dot)) by congruence. cbn [andb app].
      rewrite rev_app_distr, rev_involutive. f_equal.
      by rewrite split_decimals_no_dot. }
  cbn [map concat]. rewrite app_nil_r.
  assert (forall l : str, dot ∉ l -> take 1 l <> [dot]) as Hnd.
  { intros [|c l]; [done|]. intros [Hc _]%not_elem_of_cons. cbn. congruence. }
  rewrite (proj1 (maybe_truncate_dec_part_cases int_part trunc_len) (Hnd _ Hint)).
  rewrite (proj1 (proj2 (maybe_truncate_dec_part_cases (dot :: frac) trunc_len))
             eq_refl Hn).
  rewrite (proj1 (maybe_truncate_dec_part_cases rest trunc_len) (Hnd _ Hrest)).
  reflexivity.
Qed.

Lemma truncate_formatted_float_decimal_witness :
  _truncate_formatted_float (py "1.23456789e-05") 5 = py "1.23456e-05".
Proof.
  apply (truncate_formatted_float_decimal (py "1") (py "23456789") (py "e-05") 5).
  - lia.
  - refine (bool_decide_unpack _ _). vm_compute. exact I.
  - reflexivity.
  - discriminate.
  - refine (bool_decide_unpack _ _). vm_compute. exact I.
  - intros c [= <-]. reflexivity.
Defined.

Section FormatFacts.
Variable host : FlagHost.
Variable py_repr : pyval -> str.

(** X21. A boolean, [None] or an integer formatted by [format_flag] is
    read back by [decode_flag_val] as the same value, whatever
    [truncate_floats] is: such a value is neither truncated nor quoted.
    The YAML loader is taken to read [yes], [no] and [null] as YAML 1.1
    does. *)
Theorem format_flag_scalar_round_trip (val truncate_floats : pyval) :
  yaml_safe_load host (py "yes") = Ok (VBool true) ->
  yaml_safe_load host (py "no") = Ok (VBool false) ->
  yaml_safe_load host (py "null") = Ok VNone ->
  is_scalar_literal val = true ->
  exists text,
    format_flag host py_repr val truncate_floats = Ok text
    /\ text = encode_flag_val host val
    /\ decode_flag_val host text = Ok val.
Proof.
  intros Hyes Hno Hnull Hv. exists (encode_flag_val host val).
  split; [|split; [done|]].
  - unfold format_flag. destruct val; try discriminate Hv; by rewrite andb_false_r.
  - unfold decode_flag_val.
    destruct val as [[|]| |n| | | |]; try discriminate Hv; cbn [encode_flag_val].
    + apply decode_plain_word; [done| |reflexivity|done].
      eexists. split; [vm_compute; reflexivity|reflexivity].
    + apply decode_plain_word; [done| |reflexivity|done].
      eexists. split; [vm_compute; reflexivity|reflexivity].
    + apply decode_plain_word; [done| |reflexivity|done].
      eexists. split; [vm_compute; reflexivity|reflexivity].
    + apply decode_int.
Qed.

(** X22. Of a value that is neither a list nor a dict, so a boolean,
    [None], a number or a text: [format_flag] raises exactly for a float
    formatted with a [truncate_floats] that is true but neither a boolean
    nor an integer; the error is the [ValueError] of [_trunc_len]. For
    the other such values a bad [truncate_floats] goes unnoticed. *)
Theorem format_flag_raises (val truncate_floats : pyval) :
  is_container val = false ->
  ((exists e, format_flag host py_repr val truncate_floats = Raise e)
   <-> is_float val = true /\ truthy truncate_floats = true
       /\ (forall b, truncate_floats <> VBool b)
       /\ (forall n, truncate_floats <> VInt n))
  /\ (forall e, format_flag host py_repr val truncate_floats = Raise e ->
        _trunc_len py_repr truncate_floats = Raise e /\ is_ValueError e = true).
Proof.
  intros _. unfold format_flag. split.
  - split.
    + intros [e He]. destruct (truthy truncate_floats) eqn:Ht; cbn [andb] in He; [|done].
      destruct val; try done. split; [done|]. split; [done|].
      destruct truncate_floats as [[|]| | | | | |]; try done.
    + intros (Hf & Ht & Hb & Hn). rewrite Ht. destruct val; try discriminate Hf.
      cbn [andb].
      destruct truncate_floats as [b| |n| | | |];
        try (by destruct (Hb b)); try (by destruct (Hn n)); cbn [_trunc_len]; eauto.
  - intros e. destruct (truthy truncate_floats) eqn:Ht; cbn [andb]; [|done].
    destruct val; try done.
    destruct (_trunc_len py_repr truncate_floats) as [n|e'] eqn:Hl; [done|].
    intros [= <-]. split; [done|].
    destruct truncate_floats as [[|]| | | | | |]; try discriminate Hl;
      by injection Hl as <-.
Qed.

End FormatFacts.

Lemma format_flag_scalar_round_trip_witness :
  exists text,
    format_flag example_flag_host (fun _ => []) (VInt 12) (VStr (py "many")) = Ok text
    /\ text = py "12"
    /\ decode_flag_val example_flag_host text = Ok (VInt 12).
Proof.
  apply (format_flag_scalar_round_trip example_flag_host (fun _ => [])
           (VInt 12) (VStr (py "many"))); reflexivity.
Defined.

Lemma format_flag_raises_witness :
  exists e, format_flag example_flag_host (fun _ => []) (VFloat 4609434218613702656)
              (VStr (py "many")) = Raise e.
Proof.
  apply (proj1 (format_flag_raises example_flag_host (fun _ => [])
                  (VFloat 4609434218613702656) (VStr (py "many")) eq_refl)).
  repeat split; discriminate.
Defined.

(** *** Flags in name order *)

Lemma str_leb_total a b : str_leb a b = true \/ str_leb b a = true.
Proof.
  revert b. induction a as [|x a IH]; intros [|y b]; cbn [str_leb]; auto.
  destruct (Z.ltb_spec x y), (Z.ltb_spec y x); auto; lia.
Qed.

Lemma str_leb_trans a b c :
  str_leb a b = true -> str_leb b c = true -> str_leb a c = true.
Proof.
  revert b c. induction a as [|x a IH]; intros [|y b] [|z c]; cbn [str_leb];
    try done.
  destruct (Z.ltb_spec x y), (Z.ltb_spec y x), (Z.ltb_spec y z),
    (Z.ltb_spec z y), (Z.ltb_spec x z), (Z.ltb_spec z x);
    try done; try lia. apply IH.
Qed.

Lemma str_leb_antisym a b :
  str_leb a b = true -> str_leb b a = true -> a = b.
Proof.
  revert b. induction a as [|x a IH]; intros [|y b]; cbn [str_leb]; try done.
  destruct (Z.ltb_spec x y), (Z.ltb_spec y x); try done; try lia.
  intros Hab Hba. f_equal; [lia|by apply IH].
Qed.

#[local] Instance flag_le_total : Total flag_le.
Proof. intros a b. apply str_leb_total. Qed.

#[local] Instance flag_le_trans : Transitive flag_le.
Proof. intros a b c. apply str_leb_trans. Qed.

Lemma distinct_keys_eq (l : list (str * pyval)) x y :
  NoDup (map fst l) -> x ∈ l -> y ∈ l -> x.1 = y.1 -> x = y.
Proof.
  induction l as [|z l IH]; [by intros _ ?%elem_of_nil|].
  cbn [map]. intros [Hz Hnd]%NoDup_cons Hx Hy Hk.
  assert (forall w, w ∈ l -> w.1 ∈ map fst l) as Hin.
  { intros w Hw. apply list_elem_of_In, in_map, list_elem_of_In, Hw. }
  apply elem_of_cons in Hx as [->|Hx]; apply elem_of_cons in Hy as [->|Hy].
  - done.
  - destruct Hz. rewrite Hk. by apply Hin.
  - destruct Hz. rewrite <- Hk. by apply Hin.
  - by apply IH.
Qed.

Lemma sorted_flags_unique (l1 l2 : list (str * pyval)) :
  NoDup (map fst l1) -> l1 ≡ₚ l2 ->
  merge_sort flag_le l1 = merge_sort flag_le l2.
Proof.
  intros Hnd Hp. apply (Sorted_unique_strong flag_le).
  - intros x1 x2 Hx1 Hx2 H12 H21.
    rewrite merge_sort_Permutation in Hx1, Hx2. rewrite <- Hp in Hx2.
    apply (distinct_keys_eq l1); [done..|]. by apply str_leb_antisym.
  - apply Sorted_merge_sort, _.
  - apply Sorted_merge_sort, _.
  - by rewrite !merge_sort_Permutation.
Qed.

Section FormatFlagsFacts.
Variable host : FlagHost.
Variable py_repr : pyval -> str.

Lemma format_each_lines items tf lines :
  format_each host py_repr items tf = Ok lines ->
  Forall2 (fun item line =>
             exists v, format_flag host py_repr item.2 tf = Ok v
                       /\ line = item.1 ++ py "=" ++ v) items lines.
Proof.
  revert lines. induction items as [|[name val] items IH]; intros lines.
  - intros [= <-]. constructor.
  - cbn [format_each]. unfold _flag_assign.
    destruct (format_flag host py_repr val tf) as [v|] eqn:Hv; [|done].
    destruct (format_each host py_repr items tf) as [ls|]; [|done].
    intros [= <-]. constructor; [eauto|by apply IH].
Qed.

(** X23. [format_flags] gives one line [name=value] for each flag, the
    lines in the order of the names, and the same lines whatever order the
    dict lists its items in. *)
Theorem format_flags_sorted (flags flags' : list (str * pyval)) (tf : pyval) :
  NoDup (map fst flags) ->
  (flags ≡ₚ flags' ->
   format_flags host py_repr flags tf = format_flags host py_repr flags' tf)
  /\ (forall lines, format_flags host py_repr flags tf = Ok lines ->
        exists sorted,
          sorted ≡ₚ flags
          /\ StronglySorted flag_le sorted
          /\ Forall2 (fun item line =>
                        exists v, format_flag host py_repr item.2 tf = Ok v
                                  /\ line = item.1 ++ py "=" ++ v) sorted lines
          /\ length lines = length flags).
Proof.
  intros Hnd. split.
  - intros Hp. unfold format_flags. by rewrite (sorted_flags_unique flags flags').
  - intros lines Hl. exists (merge_sort flag_le flags).
    split; [apply merge_sort_Permutation|].
    split; [apply StronglySorted_merge_sort; apply _|].
    apply format_each_lines in Hl. split; [done|].
    pose proof (Forall2_length _ _ _ Hl) as Hlen.
    exact (eq_trans (eq_sym Hlen)
             (Permutation_length (merge_sort_Permutation flag_le flags))).
Qed.

End FormatFlagsFacts.

Lemma format_flags_sorted_witness :
  format_flags example_flag_host (fun _ => [])
    [(py "lr", VInt 3); (py "batch", VInt 64); (py "debug", VBool false)] VNone
  = format_flags example_flag_host (fun _ => [])
      [(py "debug", VBool false); (py "lr", VInt 3); (py "batch", VInt 64)] VNone
  /\ format_flags example_flag_host (fun _ => [])
       [(py "lr", VInt 3); (py "batch", VInt 64); (py "debug", VBool false)] VNone
     = Ok [py "batch=64"; py "debug=no"; py "lr=3"].
Proof.
  split; [|vm_compute; reflexivity].
  apply (proj1 (format_flags_sorted example_flag_host (fun _ => [])
                  [(py "lr", VInt 3); (py "batch", VInt 64); (py "debug", VBool false)]
                  [(py "debug", VBool false); (py "lr", VInt 3); (py "batch", VInt 64)]
                  VNone ltac:(refine (bool_decide_unpack _ _); vm_compute; exact I))).
  symmetry.
  exact (Permutation_cons_append [(py "lr", VInt 3); (py "batch", VInt 64)]
           (py "debug", VBool false)).
Defined.

(** ** Errors of unescaping *)

Lemma unhexlify_even t :
  (exists b, Codec.unhexlify t = Ok b) <-> Nat.Even (length t).
Proof.
  remember (length t) as n eqn:Hn. revert t Hn.
  induction n as [n IH] using lt_wf_ind. intros t Hn.
  destruct t as [|h [|l t']].
  - subst n. split; [intros _; by exists 0%nat|eauto].
  - subst n. split; [by intros [? ?]|]. intros [k Hk]. simpl in Hk. lia.
  - cbn [Codec.unhexlify]. subst n. cbn [length].
    specialize (IH (length t') ltac:(simpl; lia) t' eq_refl). split.
    + intros [b Hb]. destruct (Codec.unhexlify t') as [r|] eqn:Hr; [|done].
      destruct (proj1 IH ltac:(eauto)) as [k Hk]. exists (S k). lia.
    + intros [k Hk].
      assert (Nat.Even (length t')) as He.
      { destruct k as [|k]; [lia|]. exists k. lia. }
      apply IH in He as [r ->]. eauto.
Qed.

Lemma unhexlify_error t e : Codec.unhexlify t = Raise e -> e = BinasciiError.
Proof.
  remember (length t) as n eqn:Hn. revert t Hn.
  induction n as [n IH] using lt_wf_ind. intros t Hn.
  destruct t as [|h [|l t']]; [done|by intros [= <-]|].
  cbn [Codec.unhexlify].
  destruct (Codec.unhexlify t') as [r|e'] eqn:Hr; [done|].
  intros [= <-]. apply (IH (length t') ltac:(subst n; simpl; lia) t' eq_refl Hr).
Qed.

Lemma utf8_decode_error b e :
  Codec.utf8_decode b = Raise e -> e = UnicodeDecodeError.
Proof.
  remember (length b) as n eqn:Hn. revert b Hn.
  induction n as [n IH] using lt_wf_ind. intros b Hn.
  destruct b as [|b0 t0]; [done|]. cbn [Codec.utf8_decode].
  assert (forall t (k : str -> str),
            (length t < n)%nat ->
            match Codec.utf8_decode t with
            | Ok s => Ok (k s)
            | Raise e0 => Raise e0
            end = Raise e -> e = UnicodeDecodeError) as Htail.
  { intros t k Hlt. destruct (Codec.utf8_decode t) eqn:Hd; [done|].
    intros [= <-]. by apply (IH (length t) Hlt t eq_refl). }
  subst n. cbn [length] in Htail.
  destruct (Codec.in_range 0 127 b0); [apply (Htail t0 (cons b0)); lia|].
  destruct (Codec.in_range 194 223 b0).
  { destruct t0 as [|b1 t1]; [by intros [= <-]|].
    destruct (Codec.is_cont b1); [|by intros [= <-]].
    apply (Htail t1 (cons _)). simpl. lia. }
  destruct (Codec.in_range 224 239 b0).
  { destruct t0 as [|b1 [|b2 t2]]; [by intros [= <-]..|].
    destruct (_ && _); [|by intros [= <-]].
    apply (Htail t2 (cons _)). simpl. lia. }
  destruct (Codec.in_range 240 244 b0); [|by intros [= <-]].
  destruct t0 as [|b1 [|b2 [|b3 t3]]]; [by intros [= <-]..|].
  destruct (_ && _); [|by intros [= <-]].
  apply (Htail t3 (cons _)). simpl. lia.
Qed.

(** X24. [_unescape_project_name] accepts a token only if it is made of
    the characters [0-9A-F], lower case excluded, and has even length. A
    character outside ASCII is a [ValueError], any other stray character
    or an odd length a [binascii.Error], and bytes that are not UTF-8 a
    [UnicodeDecodeError]; there are no other errors. *)
Theorem unescape_project_name_errors (t : str) :
  (forall p, _unescape_project_name t = Ok p ->
     forallb Codec.is_b16_digit t = true /\ Nat.Even (length t))
  /\ (forallb (Codec.in_range 0 0x7F) t = false ->
      exists msg, _unescape_project_name t = Raise (ValueError msg))
  /\ (forallb (Codec.in_range 0 0x7F) t = true ->
      forallb Codec.is_b16_digit t = false \/ Nat.Odd (length t) ->
      _unescape_project_name t = Raise BinasciiError)
  /\ (forallb Codec.is_b16_digit t = true -> Nat.Even (length t) ->
      forall e, _unescape_project_name t = Raise e -> e = UnicodeDecodeError).
Proof.
  unfold _unescape_project_name, Codec.b16decode, Codec.ascii_encode.
  split; [|split; [|split]].
  - intros p. destruct (forallb (Codec.in_range 0 127) t); [|done].
    destruct (forallb Codec.is_b16_digit t); [|done].
    destruct (Codec.unhexlify t) as [b|] eqn:Hb; [|done]. intros _.
    split; [done|]. apply unhexlify_even. eauto.
  - intros ->. cbn [rbind]. eauto.
  - intros -> [->|Hodd]; [done|].
    destruct (forallb Codec.is_b16_digit t); [|done].
    destruct (Codec.unhexlify t) as [b|e] eqn:Hb.
    + assert (Nat.Even (length t)) as He by (apply unhexlify_even; eauto).
      destruct (Nat.Even_Odd_False _ He Hodd).
    + cbn [rbind]. by rewrite (unhexlify_error t e Hb).
  - intros Hal [b Hb]%unhexlify_even e.
    assert (forallb (Codec.in_range 0 127) t = true) as ->.
    { rewrite forallb_forall in Hal |- *. intros c Hc. specialize (Hal c Hc).
      unfold Codec.is_b16_digit in Hal.
      apply orb_true_iff in Hal as [H|H]; apply in_range_spec in H;
        apply in_range_true; lia. }
    rewrite Hal, Hb. cbn [rbind]. apply utf8_decode_error.
Qed.

Lemma unescape_project_name_errors_witness :
  _unescape_project_name (py "2e2f") = Raise BinasciiError
  /\ _unescape_project_name (py "2E2") = Raise BinasciiError
  /\ (exists msg, _unescape_project_name [0x2E; 0xE9] = Raise (ValueError msg)).
Proof.
  split; [|split].
  - apply (proj1 (proj2 (proj2 (unescape_project_name_errors (py "2e2f")))));
      [reflexivity|]. left. reflexivity.
  - apply (proj1 (proj2 (proj2 (unescape_project_name_errors (py "2E2")))));
      [reflexivity|]. right. exists 1%nat. reflexivity.
  - apply (proj1 (proj2 (unescape_project_name_errors [0x2E; 0xE9]))). reflexivity.
Defined.

(** ** References and manifests *)

Section ReferenceEffects.
Variable host : Host.


Lemma basename_dir_base dir name :
  slash ∉ name -> Posixpath.basename (dir ++ slash :: name) = name.
Proof.
  intros Hn. unfold Posixpath.basename. rewrite rfind_last_sep by done.
  replace (Z.to_nat (Z.of_nat (length dir) + 1)) with (length (dir ++ [slash]))
    by (rewrite length_app; simpl; lia).
  replace (dir ++ slash :: name) with ((dir ++ [slash]) ++ name)
    by (by rewrite <- app_assoc).
  by rewrite drop_app_length.
Qed.

(** X26. A manifest line counts by the base name of its first field
    alone: of a line [dir/name,...] the file [dir/name] under the
    location of the distribution is parsed when [name] is a recognized
    name, whatever follows the first comma, and no file is parsed
    otherwise. *)
Theorem manifest_line_matching (dist : PackageDistribution)
    (dir name columns : str) :
  comma ∉ dir -> comma ∉ name -> slash ∉ name ->
  matched_paths host dist [dir ++ slash :: name ++ comma :: columns]
  = if bool_decide (name ∈ NAMES host)
    then [Posixpath.join (pd_location dist) [dir ++ slash :: name]]
    else [].
Proof.
  intros Hd Hn Hs. unfold matched_paths. cbn [flat_map]. rewrite app_nil_r.
  replace (dir ++ slash :: name ++ comma :: columns)
    with ((dir ++ slash :: name) ++ comma :: columns)
    by (by rewrite <- app_assoc).
  rewrite split1_at_sep.
  - cbn [nth]. by rewrite basename_dir_base.
  - apply not_elem_of_app. split; [done|].
    apply not_elem_of_cons. split; [by vm_compute|done].
Qed.

End ReferenceEffects.


Lemma manifest_line_matching_witness :
  matched_paths example_host example_dist [py "demo/extra/MODELS,sha256=ef56,64"]
  = [py "/site/demo/extra/MODELS"].
Proof.
  assert (comma ∉ py "demo/extra") as H1
    by (refine (bool_decide_unpack _ _); vm_compute; exact I).
  assert (comma ∉ py "MODELS") as H2
    by (refine (bool_decide_unpack _ _); vm_compute; exact I).
  assert (slash ∉ py "MODELS") as H3
    by (refine (bool_decide_unpack _ _); vm_compute; exact I).
  refine (eq_trans (manifest_line_matching example_host example_dist
                      (py "demo/extra") (py "MODELS") (py "sha256=ef56,64")
                      H1 H2 H3) _).
  vm_compute. reflexivity.
Defined.
